(** * phpIPAM MCP server: the API client ([src/client.ts]) and the
      configuration helpers it relies on ([config.ts], [types.ts]).

    The development is a shallow embedding.  An asynchronous method of
    [PhpIpamClient] is a function from a [World] to a result and a new
    [World]; the world holds the mutable fields of the client object and
    what the client observes of Node.js: the readings of [Date.now()],
    the outcomes of the HTTP exchanges, the lines written with
    [console.error] and the delays passed to [setTimeout].

    Conventions.
    - A JavaScript string is the Rocq string of the bytes of its UTF-8
      encoding: buffers, base64 and [encodeURIComponent] work on these
      bytes, while [substring] counts UTF-16 code units
      ([take_string]).
    - The numbers the client inspects (status codes, retry counters,
      delays, timestamps) are integers in [Z].
    - [undefined] and [null] are [None]; truthiness is spelled out.
    - A response body that [JSON.parse] accepts has the shape of
      [ApiResponse], as types.ts declares it: an object with a numeric
      [code], a boolean [success], an optional [data] and an optional
      string [message]; the token of a login answer is a string, as
      [AuthResponseData] declares it.  A body that parses to anything
      else (the text [null], say, at whose first property access the
      code throws a [TypeError]) has no counterpart in the model.
    - [baseUrl] is a well-formed https URL, so that [new URL] and the
      choice of the protocol module succeed.
    - [JSON.parse], [JSON.stringify] and the AES cipher of node:crypto are
      parameters ([Runtime]); base64 and [encodeURIComponent] are
      defined. *)

From Stdlib Require Import ZArith Lia Bool Ascii String DecimalString.
From stdpp Require Import base option list gmap strings.

Local Open Scope Z_scope.

(* ================================================================== *)
(** ** JavaScript values *)
(* ================================================================== *)

(** JSON data as the client sees it after [JSON.parse]. *)
#[local] Set Warnings "-register-all".
Inductive Json : Type :=
| JNull
| JBool (b : bool)
| JNum (n : Z)
| JStr (s : string)
| JArr (items : list Json)
| JObj (fields : list (string * Json)).

(** A plain JS object used as a record of named values
    ([Record<string, unknown>]); own keys in insertion order. *)
Definition JsObject : Type := list (string * Json).

(** Truthiness of a string: every string but the empty one. *)
Definition truthy_string (s : string) : bool :=
  match s with EmptyString => false | String _ _ => true end.

(** Truthiness of an optional string ([undefined] is falsy). *)
Definition truthy_ostring (o : option string) : bool :=
  match o with Some s => truthy_string s | None => false end.

(** Truthiness of a JSON value. *)
Definition truthy_json (j : Json) : bool :=
  match j with
  | JNull => false
  | JBool b => b
  | JNum n => negb (n =? 0)
  | JStr s => truthy_string s
  | JArr _ => true
  | JObj _ => true
  end.

Definition truthy_ojson (o : option Json) : bool :=
  match o with Some j => truthy_json j | None => false end.

(** [o[k] = v]: overwrite in place when the key exists, append otherwise. *)
Fixpoint obj_set (k : string) (v : Json) (o : JsObject) : JsObject :=
  match o with
  | [] => [(k, v)]
  | (k', v') :: rest =>
      if String.eqb k k' then (k, v) :: rest else (k', v') :: obj_set k v rest
  end.

Fixpoint obj_get (k : string) (o : JsObject) : option Json :=
  match o with
  | [] => None
  | (k', v') :: rest => if String.eqb k k' then Some v' else obj_get k rest
  end.

(** [Object.assign(target, source)]. *)
Definition Object_assign (target source : JsObject) : JsObject :=
  fold_left (fun acc kv => obj_set (fst kv) (snd kv) acc) source target.

(** The double-quote character, for JSON text in examples. *)
Definition dq : string := String (ascii_of_nat 34) EmptyString.

(** Decimal rendering of a number inside a template literal. *)
Definition string_of_Z (z : Z) : string := NilZero.string_of_int (Z.to_int z).

(** A byte that continues a UTF-8 sequence ([10xxxxxx]). *)
Definition is_continuation (c : ascii) : bool :=
  ((128 <=? N_of_ascii c) && (N_of_ascii c <=? 191))%N.

(** The first byte of a sequence of four bytes ([11110xxx]): a character
    outside the basic plane, two UTF-16 code units. *)
Definition is_lead4 (c : ascii) : bool := (240 <=? N_of_ascii c)%N.

(** The number of UTF-16 code units of a string ([s.length]). *)
Fixpoint utf16_length (s : string) : nat :=
  match s with
  | EmptyString => O
  | String c s' =>
      ((if is_continuation c then 0 else if is_lead4 c then 2 else 1)
       + utf16_length s')%nat
  end.

(** The high surrogate of the character whose four bytes are
    [c b1 b2 b3], as the three bytes that generalized UTF-8 gives a code
    unit on its own. *)
Definition high_surrogate (c b1 b2 b3 : ascii) : string :=
  let cp := ((N_of_ascii c mod 8) * 262144 + (N_of_ascii b1 mod 64) * 4096
             + (N_of_ascii b2 mod 64) * 64 + N_of_ascii b3 mod 64)%N in
  let hi := (55296 + (cp - 65536) / 1024)%N in
  String (ascii_of_N 237)
    (String (ascii_of_N (128 + (hi / 64) mod 64))
       (String (ascii_of_N (128 + hi mod 64)) EmptyString)).

(** [s.substring(0, n)]: the first [n] UTF-16 code units of [s].  A
    character of one, two or three bytes is one unit; a character of four
    bytes is two units, and when only its first unit is within [n], that
    half (the high surrogate) is what the result ends with. *)
Fixpoint take_string (n : nat) (s : string) : string :=
  match s with
  | EmptyString => EmptyString
  | String c s' =>
      if is_continuation c then String c (take_string n s')
      else
        match n with
        | O => EmptyString
        | S n' =>
            if is_lead4 c then
              match n' with
              | O =>
                  match s' with
                  | String b1 (String b2 (String b3 _)) =>
                      high_surrogate c b1 b2 b3
                  | _ => EmptyString
                  end
              | S n'' => String c (take_string n'' s')
              end
            else String c (take_string n' s')
        end
  end.

(** [hay.includes(needle)]. *)
Fixpoint contains (needle hay : string) : bool :=
  String.prefix needle hay ||
  match hay with
  | EmptyString => false
  | String _ hay' => contains needle hay'
  end.

(** [s.split(sep)] for a one-character separator. *)
Fixpoint split_on (sep : ascii) (s : string) : list string :=
  match s with
  | EmptyString => [EmptyString]
  | String c s' =>
      if Ascii.eqb c sep then EmptyString :: split_on sep s'
      else match split_on sep s' with
           | [] => [String c EmptyString]
           | seg :: segs => String c seg :: segs
           end
  end.

(* ================================================================== *)
(** ** types.ts *)
(* ================================================================== *)

Inductive AuthMode : Type := token_mode | password_mode | auto_mode.

Record PhpIpamConfig : Type := {
  baseUrl : string;
  appId : string;
  authMode : AuthMode;
  token : option string;
  username : option string;
  password : option string;
  writeEnabled : bool;
  verifyTls : bool;
  enableCache : bool;
  debugHttp : bool;
  allowSubnetCreate : bool;
  allowSectionCreate : bool;
  timeout : Z;
  maxRetries : Z;
  retryDelay : Z
}.

Inductive ErrorCode : Type :=
| AUTH | VALIDATION | NOT_FOUND | CONFLICT | RETRYABLE | FORBIDDEN | INTERNAL.

(** [class PhpIpamError extends Error]; [retryable] defaults to [false]. *)
Record PhpIpamError : Type := {
  message : string;
  code : ErrorCode;
  statusCode : option Z;
  retryable : bool
}.

Definition new_PhpIpamError (msg : string) (c : ErrorCode)
    (status : option Z) (r : option bool) : PhpIpamError :=
  {| message := msg; code := c; statusCode := status;
     retryable := default false r |}.

(** [interface ApiResponse]. *)
Record ApiResponse : Type := {
  resp_code : Z;
  resp_success : bool;
  resp_data : option Json;
  resp_message : option string
}.

(* ================================================================== *)
(** ** config.ts *)
(* ================================================================== *)

(** The two results of [getEffectiveAuthMode]. *)
Inductive EffectiveMode : Type := eff_token | eff_password.

Definition getEffectiveAuthMode (config : PhpIpamConfig) : EffectiveMode :=
  match authMode config with
  | token_mode => eff_token
  | password_mode => eff_password
  | auto_mode =>
      (* Auto mode: prefer token if available *)
      if truthy_ostring (token config) then eff_token else eff_password
  end.

(** [validateAuthConfig]: [true] when no VALIDATION error is thrown. *)
Definition validateAuthConfig (mode : AuthMode)
    (tok user pass : option string) : bool :=
  let hasToken := truthy_ostring tok in
  let hasPassword := truthy_ostring user && truthy_ostring pass in
  match mode with
  | token_mode => hasToken
  | password_mode => hasPassword
  | auto_mode => hasToken || hasPassword
  end.

(* ================================================================== *)
(** ** The surroundings of the client *)
(* ================================================================== *)

(** What can be thrown: a [PhpIpamError], or some other [Error]
    (a [TypeError] raised by a Node.js built-in). *)
Inductive Exn : Type :=
| PhpIpam (e : PhpIpamError)
| OtherError (name msg : string).

(** [error.message] of a thrown value (every thrown value is an [Error]). *)
Definition exn_message (e : Exn) : string :=
  match e with
  | PhpIpam e => message e
  | OtherError _ msg => msg
  end.

(** [`${error}`] for a thrown [Error]: its name, a colon, its message. *)
Definition exn_to_string (e : Exn) : string :=
  match e with
  | PhpIpam e => "PhpIpamError: " +:+ message e
  | OtherError name msg => name +:+ ": " +:+ msg
  end.

Definition is_Some_bool {A} (o : option A) : bool :=
  match o with Some _ => true | None => false end.

Inductive Method : Type := GET | POST | PATCH | DELETE.

Definition method_name (m : Method) : string :=
  match m with
  | GET => "GET" | POST => "POST" | PATCH => "PATCH" | DELETE => "DELETE"
  end.

(** The argument of [httpRequest]; a header may hold [undefined]. *)
Record HttpOptions : Type := {
  http_method : string;
  http_url : string;
  http_headers : list (string * option string);
  http_body : option string
}.

(** [interface RequestOptions]. *)
Record RequestOptions : Type := {
  opt_method : Method;
  opt_path : string;
  opt_body : option JsObject;
  opt_retryCount : option Z
}.

(** How one HTTP exchange ends: the ['end'] event of a response with its
    status code and the body text collected so far, the request's
    ['error'] event, or its ['timeout'] event. *)
Inductive NetEvent : Type :=
| NetResponse (status : Z) (data : string)
| NetError (msg : string)
| NetTimeout.

(** [class SimpleCache]: the map and its time to live. *)
Record SimpleCache : Type := {
  cache_map : gmap string (option Json * Z);
  ttl : Z
}.

(** The fields of [class PhpIpamClient] (the TLS agent is left out). *)
Record PhpIpamClient : Type := {
  config : PhpIpamConfig;
  authToken : option string;
  tokenExpires : Z;
  cache : SimpleCache;
  useCrypt : bool
}.

(** The client object and everything around it.  [clock] lists the
    successive readings of [Date.now()], [network] the outcome of the
    successive HTTP exchanges; [ticks] and [sent] say how far both have
    been consumed.  [console] collects the lines written with
    [console.error], [slept] the delays passed to [sleep]. *)
Record World : Type := {
  this : PhpIpamClient;
  clock : nat -> Z;
  ticks : nat;
  network : nat -> NetEvent;
  sent : list HttpOptions;
  console : list string;
  slept : list Z
}.

Definition with_this (c : PhpIpamClient) (w : World) : World :=
  {| this := c; clock := clock w; ticks := ticks w; network := network w;
     sent := sent w; console := console w; slept := slept w |}.

Definition with_ticks (n : nat) (w : World) : World :=
  {| this := this w; clock := clock w; ticks := n; network := network w;
     sent := sent w; console := console w; slept := slept w |}.

Definition with_sent (l : list HttpOptions) (w : World) : World :=
  {| this := this w; clock := clock w; ticks := ticks w; network := network w;
     sent := l; console := console w; slept := slept w |}.

Definition with_console (l : list string) (w : World) : World :=
  {| this := this w; clock := clock w; ticks := ticks w; network := network w;
     sent := sent w; console := l; slept := slept w |}.

Definition with_slept (l : list Z) (w : World) : World :=
  {| this := this w; clock := clock w; ticks := ticks w; network := network w;
     sent := sent w; console := console w; slept := l |}.

Definition with_authToken (t : option string) (c : PhpIpamClient) : PhpIpamClient :=
  {| config := config c; authToken := t; tokenExpires := tokenExpires c;
     cache := cache c; useCrypt := useCrypt c |}.

Definition with_tokenExpires (t : Z) (c : PhpIpamClient) : PhpIpamClient :=
  {| config := config c; authToken := authToken c; tokenExpires := t;
     cache := cache c; useCrypt := useCrypt c |}.

Definition with_cache (k : SimpleCache) (c : PhpIpamClient) : PhpIpamClient :=
  {| config := config c; authToken := authToken c;
     tokenExpires := tokenExpires c; cache := k; useCrypt := useCrypt c |}.

(** The Node.js built-ins whose code is not part of the repository. *)
Class Runtime : Type := {
  (** [JSON.parse(text) as ApiResponse] for a text that is an
      [ApiResponse] object; [None] when it throws. *)
  JSON_parse : string -> option ApiResponse;
  (** [JSON.stringify] of a plain object. *)
  JSON_stringify : JsObject -> string;
  (** [crypto.createCipheriv('aes-256-ecb', key, null)] with automatic
      padding: [update(data, 'utf8', 'base64') + final('base64')]. *)
  aes_256_ecb_base64 : string -> string -> string
}.

(* ================================================================== *)
(** ** A monad for asynchronous methods *)
(* ================================================================== *)

(** How a method ends: it returns, it throws (a rejected promise), or the
    bound on nested calls of the model was too small ([Diverge]). *)
Inductive Res (A : Type) : Type :=
| Ret (a : A)
| Throw (e : Exn)
| Diverge.
Arguments Ret {A} a.
Arguments Throw {A} e.
Arguments Diverge {A}.

Definition M (A : Type) : Type := World -> Res A * World.

Definition ret {A} (a : A) : M A := fun w => (Ret a, w).
Definition throw {A} (e : Exn) : M A := fun w => (Throw e, w).
Definition diverge {A} : M A := fun w => (Diverge, w).

Definition bind {A B} (m : M A) (k : A -> M B) : M B :=
  fun w =>
    match m w with
    | (Ret a, w') => k a w'
    | (Throw e, w') => (Throw e, w')
    | (Diverge, w') => (Diverge, w')
    end.

(** [try { m } catch (error) { h error }]. *)
Definition try_catch {A} (m : M A) (h : Exn -> M A) : M A :=
  fun w =>
    match m w with
    | (Throw e, w') => h e w'
    | r => r
    end.

Declare Scope js_scope.
Delimit Scope js_scope with js.
Notation "x <- m ;; k" := (bind m (fun x => k))
  (at level 100, m at next level, right associativity) : js_scope.
Notation "m ;;; k" := (bind m (fun _ => k))
  (at level 100, right associativity) : js_scope.
Local Open Scope js_scope.

Definition get_this : M PhpIpamClient := fun w => (Ret (this w), w).

Definition modify_this (f : PhpIpamClient -> PhpIpamClient) : M unit :=
  fun w => (Ret tt, with_this (f (this w)) w).

(** [Date.now()]. *)
Definition Date_now : M Z :=
  fun w => (Ret (clock w (ticks w)), with_ticks (S (ticks w)) w).

(** [console.error(line)]. *)
Definition console_error (line : string) : M unit :=
  fun w => (Ret tt, with_console (console w ++ [line]) w).

(** [private sleep(ms)]. *)
Definition sleep (ms : Z) : M unit :=
  fun w => (Ret tt, with_slept (slept w ++ [ms]) w).

Definition when (b : bool) (m : M unit) : M unit := if b then m else ret tt.

(* ================================================================== *)
(** ** Built-ins that are modelled concretely *)
(* ================================================================== *)

Definition base64_alphabet : string :=
  "ABCDEFGHIJKLMNOPQRSTUVWXYZabcdefghijklmnopqrstuvwxyz0123456789+/".

Definition base64_digit (n : N) : string :=
  match String.get (N.to_nat n) base64_alphabet with
  | Some c => String c EmptyString
  | None => EmptyString
  end.

Fixpoint base64_bytes (l : list N) : string :=
  match l with
  | [] => EmptyString
  | [a] =>
      base64_digit (a / 4) +:+ base64_digit ((a mod 4) * 16) +:+ "=="
  | [a; b] =>
      base64_digit (a / 4) +:+ base64_digit ((a mod 4) * 16 + b / 16)
      +:+ base64_digit ((b mod 16) * 4) +:+ "="
  | a :: b :: c :: rest =>
      base64_digit (a / 4) +:+ base64_digit ((a mod 4) * 16 + b / 16)
      +:+ base64_digit ((b mod 16) * 4 + c / 64) +:+ base64_digit (c mod 64)
      +:+ base64_bytes rest
  end%N.

(** [Buffer.from(s).toString('base64')]. *)
Definition base64 (s : string) : string :=
  base64_bytes (map N_of_ascii (list_ascii_of_string s)).

Definition hex_digit (n : N) : string :=
  match String.get (N.to_nat n) "0123456789ABCDEF" with
  | Some c => String c EmptyString
  | None => EmptyString
  end.

(** The characters [encodeURIComponent] leaves alone:
    letters, digits and [- _ . ! ~ * ' ( )]. *)
Definition uri_unreserved (c : ascii) : bool :=
  let n := N_of_ascii c in
  ((65 <=? n) && (n <=? 90) || (97 <=? n) && (n <=? 122)
   || (48 <=? n) && (n <=? 57)
   || (n =? 45) || (n =? 95) || (n =? 46) || (n =? 33) || (n =? 126)
   || (n =? 42) || (n =? 39) || (n =? 40) || (n =? 41))%N.

(** [encodeURIComponent(s)]: every other byte becomes [%XX]. *)
Fixpoint encodeURIComponent (s : string) : string :=
  match s with
  | EmptyString => EmptyString
  | String c s' =>
      (if uri_unreserved c then String c EmptyString
       else "%" +:+ hex_digit (N_of_ascii c / 16) +:+ hex_digit (N_of_ascii c mod 16)%N)
      +:+ encodeURIComponent s'
  end.



(* ================================================================== *)
(** ** client.ts *)
(* ================================================================== *)

Section Client.
Context `{Runtime}.

(** [Buffer.alloc(32)] filled from [Buffer.from(key)]: the first 32 bytes
    of the key, padded with zero bytes. *)
Definition keyBuffer (key : string) : string :=
  string_of_list_ascii
    (take 32 (list_ascii_of_string key ++ replicate 32 Ascii.zero)).

Definition encryptRequest (data key : string) : string :=
  let encrypted := aes_256_ecb_base64 (keyBuffer key) data in
  encodeURIComponent encrypted.

(** [SimpleCache.get]. *)
Definition cache_get (key : string) : M (option Json) :=
  this <- get_this ;;
  match cache_map (cache this) !! key with
  | None => ret None
  | Some entry =>
      now <- Date_now ;;
      if snd entry <? now then
        modify_this (fun c =>
          with_cache {| cache_map := delete key (cache_map (cache c));
                        ttl := ttl (cache c) |} c) ;;;
        ret None
      else ret (fst entry)
  end.

(** [SimpleCache.set]. *)
Definition cache_set (key : string) (data : option Json) : M unit :=
  now <- Date_now ;;
  modify_this (fun c =>
    with_cache {| cache_map := <[key := (data, now + ttl (cache c))]>
                                 (cache_map (cache c));
                  ttl := ttl (cache c) |} c).

(** [constructor(config)]. *)
Definition new_PhpIpamClient (config : PhpIpamConfig) : PhpIpamClient :=
  {| config := config;
     authToken := None;
     tokenExpires := 0;
     cache := {| cache_map := ∅; ttl := 60000 |};
     (* Use crypt mode when token auth is configured *)
     useCrypt := match getEffectiveAuthMode config with
                 | eff_token => true | eff_password => false end |}.

(** One HTTP exchange on the wire: the request is recorded and the next
    outcome of the network is taken. *)
Definition exchange (options : HttpOptions) : M NetEvent :=
  fun w => (Ret (network w (length (sent w))), with_sent (sent w ++ [options]) w).

(** [private httpRequest(options)].  A header holding [undefined] makes
    [protocol.request] throw inside the promise executor. *)
Definition httpRequest (options : HttpOptions) : M ApiResponse :=
  this <- get_this ;;
  let debug := debugHttp (config this) in
  when debug
    (console_error ("[HTTP] " +:+ http_method options +:+ " " +:+ http_url options) ;;;
     when (truthy_ostring (http_body options))
       (console_error ("[HTTP] Body: " +:+ default EmptyString (http_body options)))) ;;;
  if existsb (fun h => negb (is_Some_bool (snd h))) (http_headers options) then
    throw (OtherError "TypeError" "Invalid value for header")
  else
    ev <- exchange options ;;
    match ev with
    | NetResponse status data =>
        when debug
          (console_error ("[HTTP] Response " +:+ string_of_Z status +:+ ": "
                          +:+ take_string 500 data)) ;;;
        match JSON_parse data with
        | Some parsed => ret parsed
        | None =>
            ret {| resp_code := status;
                   resp_success := false;
                   resp_data := None;
                   resp_message :=
                     Some ("Failed to parse response: " +:+ take_string 200 data) |}
        end
    | NetError msg =>
        throw (PhpIpam (new_PhpIpamError ("HTTP request failed: " +:+ msg)
                          RETRYABLE None (Some true)))
    | NetTimeout =>
        throw (PhpIpam (new_PhpIpamError "Request timeout"
                          RETRYABLE None (Some true)))
    end.

(** [authData?.token] for [authData = response.data as AuthResponseData],
    whose [token] is declared a string.  A falsy value of any type counts
    as no token, as in the code; a truthy token that is not a string,
    which the code would take as it is, is outside the model. *)
Definition authData_token (data : option Json) : option string :=
  match data with
  | Some (JObj fields) =>
      match obj_get "token" fields with
      | Some (JStr t) => Some t
      | _ => None
      end
  | _ => None
  end.

(** A value inside a template literal; [undefined] prints as such. *)
Definition template (o : option string) : string := default "undefined" o.

(** [private getAuthToken()]. *)
Definition getAuthToken : M (option string) :=
  this <- get_this ;;
  let effectiveMode := getEffectiveAuthMode (config this) in
  match effectiveMode with
  | eff_token =>
      (* Token authentication - use the static token directly *)
      ret (token (config this))
  | eff_password =>
      (* Password authentication - check if we have a valid session token *)
      valid <- (if truthy_ostring (authToken this)
                then now <- Date_now ;; ret (now <? tokenExpires this)
                else ret false) ;;
      if valid then ret (authToken this)
      else
        (* Authenticate and get session token *)
        let authUrl :=
          baseUrl (config this) +:+ "/api/" +:+ appId (config this) +:+ "/user/" in
        let auth :=
          base64 (template (username (config this)) +:+ ":"
                  +:+ template (password (config this))) in
        response <- httpRequest
          {| http_method := "POST";
             http_url := authUrl;
             http_headers := [("Authorization", Some ("Basic " +:+ auth));
                              ("Content-Type", Some "application/json")];
             http_body := None |} ;;
        let authData := resp_data response in
        if negb (resp_success response)
           || negb (truthy_ostring (authData_token authData))
        then
          throw (PhpIpam (new_PhpIpamError
            ("Authentication failed: "
             +:+ (if truthy_ostring (resp_message response)
                  then default EmptyString (resp_message response)
                  else "Unknown error"))
            AUTH (Some (resp_code response)) None))
        else
          modify_this (with_authToken (authData_token authData)) ;;;
          (* Token typically expires in 6 hours, refresh after 5 *)
          now <- Date_now ;;
          modify_this (with_tokenExpires (now + 5 * 60 * 60 * 1000)) ;;;
          this <- get_this ;;
          ret (authToken this)
  end.

(** [private mapApiError(response)]. *)
Definition mapApiError (response : ApiResponse) : M PhpIpamError :=
  let code := resp_code response in
  let message :=
    if truthy_ostring (resp_message response)
    then default EmptyString (resp_message response) else "Unknown error" in
  if code =? 401 then
    (* Clear cached auth token on auth failure *)
    modify_this (with_authToken None) ;;;
    ret (new_PhpIpamError message AUTH (Some code) None)
  else if code =? 403 then
    ret (new_PhpIpamError message FORBIDDEN (Some code) None)
  else if code =? 404 then
    ret (new_PhpIpamError message NOT_FOUND (Some code) None)
  else if code =? 409 then
    ret (new_PhpIpamError message CONFLICT (Some code) None)
  else if 500 <=? code then
    ret (new_PhpIpamError message RETRYABLE (Some code) (Some true))
  else
    ret (new_PhpIpamError message VALIDATION (Some code) None).

(** [{ ...options, retryCount: n }]. *)
Definition with_retryCount (n : Z) (options : RequestOptions) : RequestOptions :=
  {| opt_method := opt_method options; opt_path := opt_path options;
     opt_body := opt_body options; opt_retryCount := Some n |}.

(** The body of [async request<T>(options)] up to the point where it
    returns.

    A nested call [return this.request({...})] hands its promise back
    without awaiting it, so neither the [try] nor the [catch] around it
    sees how the nested call ends.  The body therefore ends either with
    the value to return ([inl]) or with the options of the nested call
    that takes over ([inr]). *)
Definition attempt (options : RequestOptions) : M (option Json + RequestOptions) :=
  let method := opt_method options in
  let path := opt_path options in
  let body := opt_body options in
  let retryCount := default 0 (opt_retryCount options) in
  token <- getAuthToken ;;
  this <- get_this ;;
  prepared <-
    (if useCrypt this then
       (* Crypt mode: encrypt the request parameters *)
       let controller :=
         default EmptyString (List.filter truthy_string (split_on "/" path) !! 0%nat) in
       let requestParams : JsObject := [("controller", JStr controller)] in
       (* Parse path to extract controller and id *)
       let pathParts := List.filter truthy_string (split_on "/" path) in
       let requestParams :=
         if (1 <? length pathParts)%nat
         then obj_set "id" (JStr (default EmptyString (pathParts !! 1%nat))) requestParams
         else requestParams in
       (* Add body params for write operations *)
       let requestParams :=
         match body with
         | Some b => Object_assign requestParams b
         | None => requestParams
         end in
       match token with
       | None =>
           (* [Buffer.from(undefined)] *)
           throw (OtherError "TypeError" "The first argument must be of type string")
       | Some key =>
           let encryptedRequest :=
             encryptRequest (JSON_stringify requestParams) key in
           ret (baseUrl (config this) +:+ "/api/" +:+ appId (config this)
                +:+ "/?enc_request=" +:+ encryptedRequest,
                [("Content-Type", Some "application/json")],
                @None string)
       end
     else
       (* Standard mode: use token in header *)
       ret (baseUrl (config this) +:+ "/api/" +:+ appId (config this) +:+ path,
            [("Content-Type", Some "application/json"); ("token", token)],
            match body with
            | Some b => Some (JSON_stringify b)
            | None => None
            end)) ;;
  let '(url, headers, requestBody) := prepared in
  let retry : M (option Json + RequestOptions) :=
    let delay := retryDelay (config this) * 2 ^ retryCount in
    sleep delay ;;;
    ret (inr (with_retryCount (retryCount + 1) options)) in
  try_catch
    (response <- httpRequest
       {| (* Crypt mode uses GET with encrypted params *)
          http_method := if useCrypt this then "GET" else method_name method;
          http_url := url;
          http_headers := headers;
          http_body := if useCrypt this then None else requestBody |} ;;
     if negb (resp_success response) then
       error <- mapApiError response ;;
       (* Retry on transient errors *)
       if retryable error && (retryCount <? maxRetries (config this))
       then retry
       else throw (PhpIpam error)
     else ret (inl (resp_data response)))
    (fun error =>
       match error with
       | PhpIpam error =>
           (* Retry on retryable errors *)
           if retryable error && (retryCount <? maxRetries (config this))
           then retry
           else throw (PhpIpam error)
       | _ =>
           throw (PhpIpam (new_PhpIpamError
             ("Unexpected error: " +:+ exn_to_string error)
             INTERNAL None None))
       end).

(** [async request<T>(options)]: the body, then the nested call when
    there is one.  [fuel] bounds the depth of nested calls. *)
Fixpoint request_fuel (fuel : nat) (options : RequestOptions) : M (option Json) :=
  match fuel with
  | O => diverge
  | S fuel' =>
      outcome <- attempt options ;;
      match outcome with
      | inl data => ret data
      | inr options' => request_fuel fuel' options'
      end
  end.

(** The public method: enough fuel for every retry that the
    configuration allows. *)
Definition request (options : RequestOptions) : M (option Json) :=
  fun w =>
    request_fuel
      (S (Z.to_nat (maxRetries (config (this w))
                    - default 0 (opt_retryCount options))))
      options w.

(** [value || []]. *)
Definition or_empty (value : option Json) : Json :=
  match value with
  | Some j => if truthy_json j then j else JArr []
  | None => JArr []
  end.

(** [result && result.length > 0 ? result[0] : null] for an array. *)
Definition first_or_null (result : option Json) : option Json :=
  match result with
  | Some (JArr (x :: _)) => Some x
  | _ => None
  end.

(** [catch (error) { if (error instanceof PhpIpamError &&
    error.code === 'NOT_FOUND') return fallback; throw error; }]. *)
Definition on_NOT_FOUND {A} (fallback : A) (error : Exn) : M A :=
  match error with
  | PhpIpam e =>
      match code e with
      | NOT_FOUND => ret fallback
      | _ => throw error
      end
  | _ => throw error
  end.

(** The result of [health()]. *)
Record Health : Type := { healthy : bool; health_message : string }.

Definition listSections : M Json :=
  this <- get_this ;;
  hit <- (if enableCache (config this)
          then cached <- cache_get "sections" ;;
               ret (if truthy_ojson cached then cached else None)
          else ret None) ;;
  match hit with
  | Some cached => ret cached
  | None =>
      sections <- request {| opt_method := GET; opt_path := "/sections/";
                             opt_body := None; opt_retryCount := None |} ;;
      when (enableCache (config this)) (cache_set "sections" sections) ;;;
      ret (or_empty sections)
  end.

Definition getSection (id : string) : M (option Json) :=
  request {| opt_method := GET; opt_path := "/sections/" +:+ id +:+ "/";
             opt_body := None; opt_retryCount := None |}.

Definition listSubnets (sectionId : string) : M Json :=
  this <- get_this ;;
  let cacheKey := "subnets:" +:+ sectionId in
  hit <- (if enableCache (config this)
          then cached <- cache_get cacheKey ;;
               ret (if truthy_ojson cached then cached else None)
          else ret None) ;;
  match hit with
  | Some cached => ret cached
  | None =>
      try_catch
        (subnets <- request {| opt_method := GET;
                               opt_path := "/sections/" +:+ sectionId +:+ "/subnets/";
                               opt_body := None; opt_retryCount := None |} ;;
         when (enableCache (config this)) (cache_set cacheKey subnets) ;;;
         ret (or_empty subnets))
        (on_NOT_FOUND (JArr []))
  end.

Definition getSubnet (id : string) : M (option Json) :=
  request {| opt_method := GET; opt_path := "/subnets/" +:+ id +:+ "/";
             opt_body := None; opt_retryCount := None |}.

Definition getSubnetByCidr (cidr : string) : M (option Json) :=
  try_catch
    (result <- request {| opt_method := GET;
                          opt_path := "/subnets/cidr/" +:+ encodeURIComponent cidr +:+ "/";
                          opt_body := None; opt_retryCount := None |} ;;
     ret (first_or_null result))
    (on_NOT_FOUND None).

Definition listAddresses (subnetId : string) : M Json :=
  try_catch
    (addresses <- request {| opt_method := GET;
                             opt_path := "/subnets/" +:+ subnetId +:+ "/addresses/";
                             opt_body := None; opt_retryCount := None |} ;;
     ret (or_empty addresses))
    (on_NOT_FOUND (JArr [])).

Definition getAddress (id : string) : M (option Json) :=
  request {| opt_method := GET; opt_path := "/addresses/" +:+ id +:+ "/";
             opt_body := None; opt_retryCount := None |}.

Definition getAddressByIp (ip : string) : M (option Json) :=
  try_catch
    (result <- request {| opt_method := GET;
                          opt_path := "/addresses/search/" +:+ encodeURIComponent ip +:+ "/";
                          opt_body := None; opt_retryCount := None |} ;;
     ret (first_or_null result))
    (on_NOT_FOUND None).

Definition deleteAddress (id : string) : M unit :=
  request {| opt_method := DELETE; opt_path := "/addresses/" +:+ id +:+ "/";
             opt_body := None; opt_retryCount := None |} ;;;
  ret tt.

Definition search (query : string) : M Json :=
  try_catch
    (addresses <- request {| opt_method := GET;
                             opt_path := "/addresses/search/" +:+ encodeURIComponent query +:+ "/";
                             opt_body := None; opt_retryCount := None |} ;;
     ret (JObj [("addresses", or_empty addresses)]))
    (on_NOT_FOUND (JObj [("addresses", JArr [])])).

Definition searchByHostname (hostname : string) : M Json :=
  try_catch
    (result <- request {| opt_method := GET;
                          opt_path := "/addresses/search_hostname/"
                                      +:+ encodeURIComponent hostname +:+ "/";
                          opt_body := None; opt_retryCount := None |} ;;
     ret (or_empty result))
    (on_NOT_FOUND (JArr [])).

(** [async health()]: the [catch] takes every thrown value. *)
Definition health : M Health :=
  try_catch
    ((* Make an actual API call to verify full connectivity *)
     listSections ;;;
     ret {| healthy := true; health_message := "Connected to phpIPAM" |})
    (fun error =>
       let message := exn_message error in
       ret {| healthy := false; health_message := message |}).

End Client.

(* ================================================================== *)
(** ** Vocabulary for the statements *)
(* ================================================================== *)

(** No method changes the configuration, the transport mode chosen by the
    constructor, or the behaviour of clock and network. *)
Definition frame (w w' : World) : Prop :=
  config (this w') = config (this w)
  /\ useCrypt (this w') = useCrypt (this w)
  /\ clock w' = clock w
  /\ network w' = network w.

(** A method is [safe] when it ends (it never runs out of fuel) and
    respects the [frame]. *)
Definition safe {A} (m : M A) : Prop :=
  forall w, fst (m w) <> Diverge /\ frame w (snd (m w)).

(** The outcome of the next exchange. *)
Definition next_event (w : World) : NetEvent := network w (length (sent w)).

(** The lines [httpRequest] writes before the exchange when debugging. *)
Definition request_log (debug : bool) (o : HttpOptions) : list string :=
  if debug then
    ("[HTTP] " +:+ http_method o +:+ " " +:+ http_url o)
    :: (if truthy_ostring (http_body o)
        then ["[HTTP] Body: " +:+ default EmptyString (http_body o)] else [])
  else [].

(** The line it writes when a response has arrived. *)
Definition response_log (debug : bool) (ev : NetEvent) : list string :=
  match ev with
  | NetResponse status data =>
      if debug
      then ["[HTTP] Response " +:+ string_of_Z status +:+ ": " +:+ take_string 500 data]
      else []
  | _ => []
  end.

Definition headers_defined (o : HttpOptions) : bool :=
  negb (existsb (fun h => negb (is_Some_bool (snd h))) (http_headers o)).

(** The world after [httpRequest o]: one more request on the wire and,
    when debugging, the lines written to the console. *)
Definition exchanged (o : HttpOptions) (w : World) : World :=
  with_console (console w ++ request_log (debugHttp (config (this w))) o
                ++ response_log (debugHttp (config (this w))) (next_event w))
    (with_sent (sent w ++ [o]) w).

(** The login exchange of [getAuthToken]. *)
Definition login_options (c : PhpIpamConfig) : HttpOptions :=
  {| http_method := "POST";
     http_url := baseUrl c +:+ "/api/" +:+ appId c +:+ "/user/";
     http_headers :=
       [("Authorization",
         Some ("Basic " +:+ base64 (template (username c) +:+ ":"
                                    +:+ template (password c))));
        ("Content-Type", Some "application/json")];
     http_body := None |}.

(** The world in which the login exchange starts: the expiry check has
    read the clock when there was a token to check. *)
Definition before_login (w : World) : World :=
  if truthy_ostring (authToken (this w)) then with_ticks (S (ticks w)) w else w.

(** No usable session token: none is cached, or the cached one has
    reached its tracked expiry. *)
Definition needs_login (w : World) : Prop :=
  truthy_ostring (authToken (this w)) = false
  \/ tokenExpires (this w) <= clock w (ticks w).

(** The error of a rejected login. *)
Definition auth_failed (response : ApiResponse) : PhpIpamError :=
  {| message := "Authentication failed: "
                +:+ (if truthy_ostring (resp_message response)
                     then default EmptyString (resp_message response)
                     else "Unknown error");
     code := AUTH; statusCode := Some (resp_code response); retryable := false |}.

(** The world after an accepted login: the token is cached and expires
    five hours after the reading of the clock that follows the exchange. *)
Definition logged_in (tok : option string) (w : World) : World :=
  with_this
    (with_tokenExpires (clock w (ticks w) + 5 * 60 * 60 * 1000)
       (with_authToken tok (this w)))
    (with_ticks (S (ticks w)) w).

(** The parameter object of crypt mode, in the words of the protocol:
    the controller is the first non-empty path segment, the id the second
    one when there is one, and the body fields are merged in. *)
Definition crypt_params (path : string) (body : option JsObject) : JsObject :=
  let segments := List.filter truthy_string (split_on "/" path) in
  let named :=
    ("controller", JStr (hd EmptyString segments))
    :: match segments with
       | _ :: id :: _ => [("id", JStr id)]
       | _ => []
       end in
  match body with
  | Some fields => Object_assign named fields
  | None => named
  end.


(** The error [mapApiError] builds. *)
Definition classify (response : ApiResponse) : PhpIpamError :=
  let c := resp_code response in
  {| message := if truthy_ostring (resp_message response)
                then default EmptyString (resp_message response) else "Unknown error";
     code := if c =? 401 then AUTH else if c =? 403 then FORBIDDEN
             else if c =? 404 then NOT_FOUND else if c =? 409 then CONFLICT
             else if 500 <=? c then RETRYABLE else VALIDATION;
     statusCode := Some c;
     retryable := negb (c =? 401) && negb (c =? 403) && negb (c =? 404)
                  && negb (c =? 409) && (500 <=? c) |}.

(** The session after a response has been classified. *)
Definition invalidate_on_401 (response : ApiResponse) (w : World) : World :=
  if resp_code response =? 401
  then with_this (with_authToken None (this w)) w else w.

(** How the body of [request] ends on an error. *)
Definition retry_or_throw (options : RequestOptions) (c : PhpIpamClient)
    (e : PhpIpamError) (w : World) : Res (option Json + RequestOptions) * World :=
  let retryCount := default 0 (opt_retryCount options) in
  if retryable e && (retryCount <? maxRetries (config c))
  then (Ret (inr (with_retryCount (retryCount + 1) options)),
        with_slept (slept w ++ [retryDelay (config c) * 2 ^ retryCount]) w)
  else (Throw (PhpIpam e), w).

(** How the body of [request] ends once the exchange is over. *)
Definition attempt_outcome (options : RequestOptions) (c : PhpIpamClient)
    (r : Res ApiResponse) (w : World) : Res (option Json + RequestOptions) * World :=
  match r with
  | Ret response =>
      if resp_success response then (Ret (inl (resp_data response)), w)
      else retry_or_throw options c (classify response) (invalidate_on_401 response w)
  | Throw (PhpIpam e) => retry_or_throw options c e w
  | Throw e =>
      (Throw (PhpIpam {| message := "Unexpected error: " +:+ exn_to_string e;
                         code := INTERNAL; statusCode := None; retryable := false |}), w)
  | Diverge => (Diverge, w)
  end.

(** The look into the response cache that [listSections] and
    [listSubnets] start with: the cached value, when caching is on and
    [get] hands back a truthy one. *)
Definition cache_lookup (key : string) : M (option Json) :=
  this <- get_this ;;
  if enableCache (config this)
  then cached <- cache_get key ;;
       ret (if truthy_ojson cached then cached else None)
  else ret None.

(** [authData?.token] as the JSON value it is: the property [token] of
    the data when the data is an object that has one. *)
Definition data_token (data : option Json) : option Json :=
  match data with
  | Some (JObj fields) => obj_get "token" fields
  | _ => None
  end.

(** Started in [w0], the operation finds nothing to return in the cache
    and goes on to ask the backend in [w]: caching is off, or there is no
    entry under the key, or the entry has expired (the look deletes it),
    or its value is falsy. *)
Definition asks_backend (key : string) (w0 w : World) : Prop :=
  cache_lookup key w0 = (Ret None, w).

(** A credential is at hand without any network call: the static token
    in token mode; in password mode a cached session token that no
    later reading of the clock finds expired. *)
Definition credential_ready (w : World) : Prop :=
  match getEffectiveAuthMode (config (this w)) with
  | eff_token => is_Some (token (config (this w)))
  | eff_password =>
      truthy_ostring (authToken (this w)) = true
      /\ forall k, (ticks w <= k)%nat -> clock w k < tokenExpires (this w)
  end.

(** The delays [retryDelay * 2^i] for the attempt indices [0 .. n-1]. *)
Definition backoff (c : PhpIpamConfig) (n : nat) : list Z :=
  map (fun i => retryDelay c * 2 ^ Z.of_nat i) (seq 0 n).

(** An exchange that carries the Basic credentials: a login. *)
Definition is_login (o : HttpOptions) : bool :=
  existsb (fun h => String.eqb (fst h) "Authorization") (http_headers o).

(** The number of exchanges so far that are not logins: the calls
    themselves. *)
Definition calls_made (w : World) : nat :=
  length (List.filter (fun o => negb (is_login o)) (sent w)).

Section Vocabulary.
Context `{Runtime}.

(** What [httpRequest] resolves or rejects with, by outcome of the exchange. *)
Definition http_result (ev : NetEvent) : Res ApiResponse :=
  match ev with
  | NetResponse status data =>
      Ret (match JSON_parse data with
           | Some parsed => parsed
           | None =>
               {| resp_code := status; resp_success := false; resp_data := None;
                  resp_message :=
                    Some ("Failed to parse response: " +:+ take_string 200 data) |}
           end)
  | NetError msg =>
      Throw (PhpIpam {| message := "HTTP request failed: " +:+ msg;
                        code := RETRYABLE; statusCode := None; retryable := true |})
  | NetTimeout =>
      Throw (PhpIpam {| message := "Request timeout";
                        code := RETRYABLE; statusCode := None; retryable := true |})
  end.

(** A retryable outcome of an exchange: a transport failure, or a
    response that reports failure with a status of 500 or more. *)
Definition retryable_outcome (ev : NetEvent) : bool :=
  match http_result ev with
  | Ret response => negb (resp_success response) && (500 <=? resp_code response)
  | Throw _ => true
  | Diverge => false
  end.

(** The call on the wire, by transport mode. *)
Definition wire_request (c : PhpIpamClient) (tok : string)
    (options : RequestOptions) : HttpOptions :=
  if useCrypt c then
    {| http_method := "GET";
       http_url :=
         baseUrl (config c) +:+ "/api/" +:+ appId (config c) +:+ "/?enc_request="
         +:+ encodeURIComponent
               (aes_256_ecb_base64 (keyBuffer tok)
                  (JSON_stringify (crypt_params (opt_path options) (opt_body options))));
       http_headers := [("Content-Type", Some "application/json")];
       http_body := None |}
  else
    {| http_method := method_name (opt_method options);
       http_url := baseUrl (config c) +:+ "/api/" +:+ appId (config c)
                   +:+ opt_path options;
       http_headers := [("Content-Type", Some "application/json");
                        ("token", Some tok)];
       http_body := JSON_stringify <$> opt_body options |}.

(** The attempt that starts in [w] obtains a credential (the static
    token, a cached session token, or a login that is accepted) and its
    own exchange ends in a retryable outcome. *)
Definition meets_retryable (w : World) : Prop :=
  exists tok w1,
    getAuthToken w = (Ret (Some tok), w1)
    /\ retryable_outcome (next_event w1) = true.

(** The first [k] attempts of the call each meet a retryable outcome;
    an attempt starts in the world its predecessor left. *)
Fixpoint retryable_attempts (k : nat) (options : RequestOptions) (w : World)
    : Prop :=
  match k with
  | O => True
  | S k' =>
      meets_retryable w
      /\ retryable_attempts k'
           (with_retryCount (default 0 (opt_retryCount options) + 1) options)
           (snd (attempt options w))
  end.

End Vocabulary.

(* ================================================================== *)
(** ** Sample data *)
(* ================================================================== *)

(** A string between double quotes, as in JSON text. *)
Definition quoted (s : string) : string := dq +:+ s +:+ dq.

(** The response body with code 500 and success false, and two more
    response bodies. *)
Definition body_500 : string :=
  "{" +:+ quoted "code" +:+ ":500," +:+ quoted "success" +:+ ":false}".

Definition body_404 : string :=
  "{" +:+ quoted "code" +:+ ":404," +:+ quoted "success" +:+ ":false,"
  +:+ quoted "message" +:+ ":" +:+ quoted "Not found" +:+ "}".

Definition body_login : string :=
  "{" +:+ quoted "code" +:+ ":200," +:+ quoted "success" +:+ ":true,"
  +:+ quoted "data" +:+ ":{" +:+ quoted "token" +:+ ":" +:+ quoted "s3ss10nT0k3n"
  +:+ "}}".

Definition sample_bodies : list (string * ApiResponse) :=
  [ (body_500, {| resp_code := 500; resp_success := false;
                  resp_data := None; resp_message := None |});
    (body_404, {| resp_code := 404; resp_success := false;
                  resp_data := None; resp_message := Some "Not found" |});
    (body_login, {| resp_code := 200; resp_success := true;
                    resp_data := Some (JObj [("token", JStr "s3ss10nT0k3n")]);
                    resp_message := None |}) ].

Definition sample_parse (text : string) : option ApiResponse :=
  snd <$> List.find (fun entry => String.eqb (fst entry) text) sample_bodies.

Fixpoint sample_render (j : Json) : string :=
  match j with
  | JNull => "null"
  | JBool b => if b then "true" else "false"
  | JNum n => string_of_Z n
  | JStr s => quoted s
  | JArr items =>
      "[" +:+ (fix go (l : list Json) : string :=
                 match l with
                 | [] => EmptyString
                 | [x] => sample_render x
                 | x :: rest => sample_render x +:+ "," +:+ go rest
                 end) items +:+ "]"
  | JObj fields =>
      "{" +:+ (fix go (l : list (string * Json)) : string :=
                 match l with
                 | [] => EmptyString
                 | [(k, v)] => quoted k +:+ ":" +:+ sample_render v
                 | (k, v) :: rest =>
                     quoted k +:+ ":" +:+ sample_render v +:+ "," +:+ go rest
                 end) fields +:+ "}"
  end.

(** A runtime to run the client on concrete inputs.  Its [JSON.parse]
    knows the response bodies listed in [sample_bodies], its
    [JSON.stringify] renders values whose strings need no escaping, and
    its cipher is a stand-in that only base64-encodes the plaintext.  The
    theorems are proved for every [Runtime]. *)
Definition sample_runtime : Runtime :=
  {| JSON_parse := sample_parse;
     JSON_stringify := fun o => sample_render (JObj o);
     aes_256_ecb_base64 := fun _ data => base64 data |}.



(** [{authMode: auto, token: "t1"}] with the default retry settings. *)
Definition token_config : PhpIpamConfig :=
  {| baseUrl := "https://ipam.example.com"; appId := "mcp";
     authMode := auto_mode; token := Some "t1";
     username := None; password := None;
     writeEnabled := true; verifyTls := true; enableCache := false;
     debugHttp := false; allowSubnetCreate := false;
     allowSectionCreate := false;
     timeout := 30000; maxRetries := 3; retryDelay := 1000 |}.

(** Password mode with HTTP debugging switched on. *)
Definition password_config : PhpIpamConfig :=
  {| baseUrl := "https://ipam.example.com"; appId := "mcp";
     authMode := password_mode; token := None;
     username := Some "admin"; password := Some "hunter2secret";
     writeEnabled := false; verifyTls := true; enableCache := false;
     debugHttp := true; allowSubnetCreate := false;
     allowSectionCreate := false;
     timeout := 30000; maxRetries := 3; retryDelay := 1000 |}.

(** Password mode selected explicitly although a token is configured. *)
Definition both_config : PhpIpamConfig :=
  {| baseUrl := "https://ipam.example.com"; appId := "mcp";
     authMode := password_mode; token := Some "t1";
     username := Some "admin"; password := Some "hunter2secret";
     writeEnabled := false; verifyTls := true; enableCache := false;
     debugHttp := false; allowSubnetCreate := false;
     allowSectionCreate := false;
     timeout := 30000; maxRetries := 3; retryDelay := 1000 |}.

(** A client just constructed, a clock that advances one second per
    reading, and the given network. *)
Definition fresh_world (c : PhpIpamConfig) (net : nat -> NetEvent) : World :=
  {| this := new_PhpIpamClient c;
     clock := fun n => 1767225600000 + 1000 * Z.of_nat n;
     ticks := 0;
     network := net;
     sent := [];
     console := [];
     slept := [] |}.

(** A write call, as [createAddress] issues it. *)
Definition write_call : RequestOptions :=
  {| opt_method := POST; opt_path := "/addresses/";
     opt_body := Some [("ip", JStr "10.0.0.7"); ("subnetId", JStr "3")];
     opt_retryCount := None |}.

(** A world around a given client object in which every reading of the
    clock gives [t]. *)
Definition world_at (t : Z) (c : PhpIpamClient) (net : nat -> NetEvent) : World :=
  {| this := c;
     clock := fun _ => t;
     ticks := 0;
     network := net;
     sent := [];
     console := [];
     slept := [] |}.

(** A password-mode client that holds a session token with hours to go. *)
Definition session_world (net : nat -> NetEvent) : World :=
  world_at 1767225600000
    (with_tokenExpires (1767225600000 + 3 * 60 * 60 * 1000)
       (with_authToken (Some "0ldT0k3n") (new_PhpIpamClient password_config)))
    net.

(** A network that accepts the login and answers every later call with
    a 500. *)
Definition login_then_500 (n : nat) : NetEvent :=
  match n with
  | O => NetResponse 200 body_login
  | S _ => NetResponse 500 body_500
  end.

Definition response_401 : ApiResponse :=
  {| resp_code := 401; resp_success := false;
     resp_data := None; resp_message := Some "Unauthorized" |}.

Definition response_404 : ApiResponse :=
  {| resp_code := 404; resp_success := false;
     resp_data := None; resp_message := Some "Not found" |}.

Definition response_503 : ApiResponse :=
  {| resp_code := 503; resp_success := false;
     resp_data := None; resp_message := None |}.

(* ================================================================== *)
(** ** config.ts: loading, gating and masking *)
(* ================================================================== *)

(** The line feed inside a message. *)
Definition lf : string := String (ascii_of_nat 10) EmptyString.

Definition ascii_toLowerCase (c : ascii) : ascii :=
  let n := N_of_ascii c in
  if ((65 <=? n) && (n <=? 90))%N then ascii_of_N (n + 32) else c.

(** [s.toLowerCase()] on the letters A to Z.  It is only compared with
    ['true'], and no character outside A to Z has t, r, u or e as its
    lower case. *)
Fixpoint toLowerCase (s : string) : string :=
  match s with
  | EmptyString => EmptyString
  | String c s' => String (ascii_toLowerCase c) (toLowerCase s')
  end.

(** [parseBool(value, defaultValue)]. *)
Definition parseBool (value : option string) (defaultValue : bool) : bool :=
  match value with
  | None => defaultValue
  | Some v =>
      if negb (truthy_string v) then defaultValue
      else String.eqb (toLowerCase v) "true" || String.eqb v "1"
  end.

(** [baseUrl.replace(/\/$/, '')]: one slash at the very end goes. *)
Fixpoint strip_trailing_slash (s : string) : string :=
  match s with
  | EmptyString => EmptyString
  | String c EmptyString => if Ascii.eqb c "/" then EmptyString else s
  | String c s' => String c (strip_trailing_slash s')
  end.

(** [validateAuthConfig] on the mode as the environment spells it: the
    error it throws, if any. *)
Definition validateAuthConfig_error (authMode : string)
    (tok user pass : option string) : option PhpIpamError :=
  let hasToken := truthy_ostring tok in
  let hasPassword := truthy_ostring user && truthy_ostring pass in
  if String.eqb authMode "token" then
    if negb hasToken then
      Some (new_PhpIpamError
              "PHPIPAM_TOKEN is required when PHPIPAM_AUTH_MODE=token"
              VALIDATION None None)
    else None
  else if String.eqb authMode "password" then
    if negb hasPassword then
      Some (new_PhpIpamError
              "PHPIPAM_USERNAME and PHPIPAM_PASSWORD are required when PHPIPAM_AUTH_MODE=password"
              VALIDATION None None)
    else None
  else if String.eqb authMode "auto" then
    if negb hasToken && negb hasPassword then
      Some (new_PhpIpamError
              ("Authentication credentials required. Provide either:" +:+ lf
               +:+ "  - PHPIPAM_TOKEN for token authentication, or" +:+ lf
               +:+ "  - PHPIPAM_USERNAME and PHPIPAM_PASSWORD for password authentication")
              VALIDATION None None)
    else None
  else
    Some (new_PhpIpamError
            ("Invalid PHPIPAM_AUTH_MODE: " +:+ authMode
             +:+ ". Must be 'token', 'password', or 'auto'")
            VALIDATION None None).

(** The value of type [AuthMode] behind a mode that passed validation. *)
Definition authMode_of (raw : string) : AuthMode :=
  if String.eqb raw "token" then token_mode
  else if String.eqb raw "password" then password_mode
  else auto_mode.

Section Config.
(** [Number.parseInt(text, 10)]; [None] is [NaN]. *)
Variable Number_parseInt : string -> option Z.

(** [parseInt(value, defaultValue)] of config.ts. *)
Definition parseInt (value : option string) (defaultValue : Z) : Z :=
  match value with
  | None => defaultValue
  | Some v =>
      if negb (truthy_string v) then defaultValue
      else match Number_parseInt v with
           | Some parsed => parsed
           | None => defaultValue
           end
  end.

(** [loadConfig()] over [process.env]: the error thrown, or the
    configuration. *)
Definition loadConfig (env : gmap string string) : PhpIpamError + PhpIpamConfig :=
  let baseUrl := env !! "PHPIPAM_BASE_URL" in
  let appId := env !! "PHPIPAM_APP_ID" in
  if negb (truthy_ostring baseUrl) then
    inl (new_PhpIpamError
           "PHPIPAM_BASE_URL is required. Set the base URL of your phpIPAM instance (e.g., https://phpipam.example.com)"
           VALIDATION None None)
  else if negb (truthy_ostring appId) then
    inl (new_PhpIpamError
           "PHPIPAM_APP_ID is required. Set the API application ID configured in phpIPAM"
           VALIDATION None None)
  else
    let authMode :=
      if truthy_ostring (env !! "PHPIPAM_AUTH_MODE")
      then default EmptyString (env !! "PHPIPAM_AUTH_MODE") else "auto" in
    let token := env !! "PHPIPAM_TOKEN" in
    let username := env !! "PHPIPAM_USERNAME" in
    let password := env !! "PHPIPAM_PASSWORD" in
    (* Validate auth configuration *)
    match validateAuthConfig_error authMode token username password with
    | Some e => inl e
    | None =>
        inr {| baseUrl := strip_trailing_slash (default EmptyString baseUrl);
               appId := default EmptyString appId;
               authMode := authMode_of authMode;
               token := token;
               username := username;
               password := password;
               (* Feature toggles with secure defaults *)
               writeEnabled := parseBool (env !! "PHPIPAM_WRITE_ENABLED") false;
               verifyTls := parseBool (env !! "PHPIPAM_VERIFY_TLS") true;
               enableCache := parseBool (env !! "PHPIPAM_ENABLE_CACHE") false;
               debugHttp := parseBool (env !! "PHPIPAM_DEBUG_HTTP") false;
               allowSubnetCreate :=
                 parseBool (env !! "PHPIPAM_ALLOW_SUBNET_CREATE") false;
               allowSectionCreate :=
                 parseBool (env !! "PHPIPAM_ALLOW_SECTION_CREATE") false;
               (* Timeouts and retries *)
               timeout := parseInt (env !! "PHPIPAM_TIMEOUT") 30000;
               maxRetries := parseInt (env !! "PHPIPAM_MAX_RETRIES") 3;
               retryDelay := parseInt (env !! "PHPIPAM_RETRY_DELAY") 1000 |}
    end.

End Config.

(** [assertWriteEnabled(config, operation)]: the error thrown, if any. *)
Definition assertWriteEnabled (config : PhpIpamConfig) (operation : string)
    : option PhpIpamError :=
  if negb (writeEnabled config) then
    Some (new_PhpIpamError
            ("Write operation '" +:+ operation
             +:+ "' is disabled. Set PHPIPAM_WRITE_ENABLED=true to enable write operations.")
            FORBIDDEN None None)
  else None.

(** [assertSubnetCreateEnabled(config)]. *)
Definition assertSubnetCreateEnabled (config : PhpIpamConfig)
    : option PhpIpamError :=
  match assertWriteEnabled config "subnets.ensure" with
  | Some e => Some e
  | None =>
      if negb (allowSubnetCreate config) then
        Some (new_PhpIpamError
                "Subnet creation is disabled. Set PHPIPAM_ALLOW_SUBNET_CREATE=true to enable."
                FORBIDDEN None None)
      else None
  end.

(** [assertSectionCreateEnabled(config)]. *)
Definition assertSectionCreateEnabled (config : PhpIpamConfig)
    : option PhpIpamError :=
  match assertWriteEnabled config "sections.ensure" with
  | Some e => Some e
  | None =>
      if negb (allowSectionCreate config) then
        Some (new_PhpIpamError
                "Section creation is disabled. Set PHPIPAM_ALLOW_SECTION_CREATE=true to enable."
                FORBIDDEN None None)
      else None
  end.

Definition authMode_name (m : AuthMode) : string :=
  match m with
  | token_mode => "token" | password_mode => "password" | auto_mode => "auto"
  end.

(** [maskConfig(config)]: the record that is logged, key by key; a key
    may hold [undefined]. *)
Definition maskConfig (config : PhpIpamConfig) : list (string * option Json) :=
  [ ("baseUrl", Some (JStr (baseUrl config)));
    ("appId", Some (JStr (appId config)));
    ("authMode", Some (JStr (authMode_name (authMode config))));
    ("token", if truthy_ostring (token config)
              then Some (JStr "***REDACTED***") else None);
    ("username", JStr <$> username config);
    ("password", if truthy_ostring (password config)
                 then Some (JStr "***REDACTED***") else None);
    ("writeEnabled", Some (JBool (writeEnabled config)));
    ("verifyTls", Some (JBool (verifyTls config)));
    ("enableCache", Some (JBool (enableCache config)));
    ("debugHttp", Some (JBool (debugHttp config)));
    ("allowSubnetCreate", Some (JBool (allowSubnetCreate config)));
    ("allowSectionCreate", Some (JBool (allowSectionCreate config)));
    ("timeout", Some (JNum (timeout config)));
    ("maxRetries", Some (JNum (maxRetries config)));
    ("retryDelay", Some (JNum (retryDelay config))) ].

(* ================================================================== *)
(** ** client.ts: the cache and the write operations *)
(* ================================================================== *)

(** A JSON value inside a template literal. *)
Fixpoint json_to_string (j : Json) : string :=
  match j with
  | JNull => "null"
  | JBool b => if b then "true" else "false"
  | JNum n => string_of_Z n
  | JStr s => s
  | JArr items =>
      (fix join (l : list Json) : string :=
         match l with
         | [] => EmptyString
         | [x] => match x with JNull => EmptyString | _ => json_to_string x end
         | x :: rest =>
             match x with JNull => EmptyString | _ => json_to_string x end
             +:+ "," +:+ join rest
         end) items
  | JObj _ => "[object Object]"
  end.

(** An optional JSON value inside a template literal. *)
Definition template_json (v : option Json) : string :=
  match v with
  | Some j => json_to_string j
  | None => "undefined"
  end.

Section ClientWrites.
Context `{Runtime}.

(** [SimpleCache.clear]. *)
Definition cache_clear : M unit :=
  modify_this (fun c =>
    with_cache {| cache_map := ∅; ttl := ttl (cache c) |} c).

(** [result.id] for the data of a response: reading a property of
    [undefined] or [null] throws a [TypeError]; a value that is not an
    object has no such property. *)
Definition result_id (result : option Json) : M (option Json) :=
  match result with
  | None =>
      throw (OtherError "TypeError"
               "Cannot read properties of undefined (reading 'id')")
  | Some JNull =>
      throw (OtherError "TypeError"
               "Cannot read properties of null (reading 'id')")
  | Some (JObj fields) => ret (obj_get "id" fields)
  | Some _ => ret None
  end.

Definition createSection (data : JsObject) : M (option Json) :=
  result <- request {| opt_method := POST; opt_path := "/sections/";
                       opt_body := Some data; opt_retryCount := None |} ;;
  id <- result_id result ;;
  getSection (template_json id).

Definition createSubnet (data : JsObject) : M (option Json) :=
  result <- request {| opt_method := POST; opt_path := "/subnets/";
                       opt_body := Some data; opt_retryCount := None |} ;;
  id <- result_id result ;;
  getSubnet (template_json id).

Definition allocateFirstFree (subnetId : string) (data : JsObject)
    : M (option Json) :=
  result <- request {| opt_method := POST;
                       opt_path := "/addresses/first_free/" +:+ subnetId +:+ "/";
                       opt_body := Some data; opt_retryCount := None |} ;;
  id <- result_id result ;;
  getAddress (template_json id).

Definition createAddress (data : JsObject) : M (option Json) :=
  result <- request {| opt_method := POST; opt_path := "/addresses/";
                       opt_body := Some data; opt_retryCount := None |} ;;
  id <- result_id result ;;
  getAddress (template_json id).

Definition updateAddress (id : string) (data : JsObject) : M (option Json) :=
  request {| opt_method := PATCH; opt_path := "/addresses/" +:+ id +:+ "/";
             opt_body := Some data; opt_retryCount := None |} ;;;
  getAddress id.

End ClientWrites.

(* ================================================================== *)
(** ** More vocabulary *)
(* ================================================================== *)

(** A method keeps an observation of the world as it is. *)
Definition keeps {A B} (obs : World -> B) (m : M A) : Prop :=
  forall w, obs (snd (m w)) = obs w.

(** The cache of the client object. *)
Definition the_cache (w : World) : SimpleCache := cache (this w).

(** The entries of the cache. *)
Definition cache_entries (w : World) : gmap string (option Json * Z) :=
  cache_map (cache (this w)).

(** A configuration with other secrets in it. *)
Definition with_secrets (tok pass : option string) (c : PhpIpamConfig)
    : PhpIpamConfig :=
  {| baseUrl := baseUrl c; appId := appId c; authMode := authMode c;
     token := tok; username := username c; password := pass;
     writeEnabled := writeEnabled c; verifyTls := verifyTls c;
     enableCache := enableCache c; debugHttp := debugHttp c;
     allowSubnetCreate := allowSubnetCreate c;
     allowSectionCreate := allowSectionCreate c;
     timeout := timeout c; maxRetries := maxRetries c;
     retryDelay := retryDelay c |}.

(** The mode as [loadConfig] reads it from the environment. *)
Definition env_authMode (env : gmap string string) : string :=
  if truthy_ostring (env !! "PHPIPAM_AUTH_MODE")
  then default EmptyString (env !! "PHPIPAM_AUTH_MODE") else "auto".


(** A thrown value that is a [PhpIpamError], or no thrown value at all. *)
Definition client_outcome {A} (r : Res A) : Prop :=
  match r with
  | Ret _ => True
  | Throw (PhpIpam _) => True
  | Throw (OtherError _ _) => False
  | Diverge => False
  end.

(* ================================================================== *)
(** ** More sample data *)
(* ================================================================== *)

(** A list answer, an empty list answer, the answer phpIPAM gives to a
    create (the id beside the message, no data), and a page that is not
    JSON. *)
Definition body_list : string :=
  "{" +:+ quoted "code" +:+ ":200," +:+ quoted "success" +:+ ":true,"
  +:+ quoted "data" +:+ ":[{" +:+ quoted "id" +:+ ":" +:+ quoted "3" +:+ ","
  +:+ quoted "subnet" +:+ ":" +:+ quoted "10.0.0.0" +:+ "}]}".

Definition body_empty_list : string :=
  "{" +:+ quoted "code" +:+ ":200," +:+ quoted "success" +:+ ":true,"
  +:+ quoted "data" +:+ ":[]}".

Definition body_created : string :=
  "{" +:+ quoted "code" +:+ ":201," +:+ quoted "success" +:+ ":true,"
  +:+ quoted "message" +:+ ":" +:+ quoted "Address created" +:+ ","
  +:+ quoted "id" +:+ ":" +:+ quoted "7" +:+ "}".

Definition body_401 : string :=
  "{" +:+ quoted "code" +:+ ":401," +:+ quoted "success" +:+ ":false,"
  +:+ quoted "message" +:+ ":" +:+ quoted "Unauthorized" +:+ "}".

Definition body_html : string := "<html><body>502 Bad Gateway</body></html>".


Definition response_list : ApiResponse :=
  {| resp_code := 200; resp_success := true;
     resp_data := Some (JArr [JObj [("id", JStr "3"); ("subnet", JStr "10.0.0.0")]]);
     resp_message := None |}.

Definition response_empty_list : ApiResponse :=
  {| resp_code := 200; resp_success := true;
     resp_data := Some (JArr []); resp_message := None |}.

Definition response_created : ApiResponse :=
  {| resp_code := 201; resp_success := true;
     resp_data := None; resp_message := Some "Address created" |}.

(** A login answered with success and the number 0 for a token. *)
Definition body_no_token : string :=
  "{" +:+ quoted "code" +:+ ":200," +:+ quoted "success" +:+ ":true,"
  +:+ quoted "data" +:+ ":{" +:+ quoted "token" +:+ ":0}}".

Definition response_no_token : ApiResponse :=
  {| resp_code := 200; resp_success := true;
     resp_data := Some (JObj [("token", JNum 0)]); resp_message := None |}.

Definition more_bodies : list (string * ApiResponse) :=
  [ (body_list, response_list);
    (body_empty_list, response_empty_list);
    (body_created, response_created);
    (body_401, response_401);
    (body_no_token, response_no_token) ].

(** The sample runtime with the further bodies known to [JSON.parse]. *)
Definition sample_runtime_more : Runtime :=
  {| JSON_parse := fun text =>
       snd <$> List.find (fun entry => String.eqb (fst entry) text)
                 (sample_bodies ++ more_bodies);
     JSON_stringify := fun o => sample_render (JObj o);
     aes_256_ecb_base64 := fun _ data => base64 data |}.

(** Decimal digits to a number; anything else is [NaN]. *)
Definition sample_parseInt (text : string) : option Z :=
  if forallb (fun c => (48 <=? N_of_ascii c)%N && (N_of_ascii c <=? 57)%N)
       (list_ascii_of_string text) && truthy_string text
  then Some (fold_left (fun acc c => 10 * acc + Z.of_N (N_of_ascii c - 48))
               (list_ascii_of_string text) 0)
  else None.

(** An environment with a token and nothing else optional. *)
Definition sample_env : gmap string string :=
  <["PHPIPAM_BASE_URL" := "https://ipam.example.com/"]>
    (<["PHPIPAM_APP_ID" := "mcp"]>
       (<["PHPIPAM_TOKEN" := "t1"]> ∅)).


(** A network that accepts the first call and knows nothing at the
    second and later ones. *)
Definition accept_then_missing (n : nat) : NetEvent :=
  match n with
  | O => NetResponse 200 body_empty_list
  | S _ => NetResponse 404 body_404
  end.

(** The token configuration with response caching on. *)
Definition caching_config : PhpIpamConfig :=
  {| baseUrl := "https://ipam.example.com"; appId := "mcp";
     authMode := auto_mode; token := Some "t1";
     username := None; password := None;
     writeEnabled := true; verifyTls := true; enableCache := true;
     debugHttp := false; allowSubnetCreate := false;
     allowSectionCreate := false;
     timeout := 30000; maxRetries := 3; retryDelay := 1000 |}.

(** A client with caching on that stored the subnets of section 5 more
    than a minute ago: the entry has expired. *)
Definition expired_entry_world (net : nat -> NetEvent) : World :=
  world_at (1767225600000 + 61000)
    (this (snd (cache_set "subnets:5" (Some (JArr [JObj [("id", JStr "9")]]))
                  (fresh_world caching_config net))))
    net.

(* ================================================================== *)
(** ** The built-ins on known values *)
(* ================================================================== *)

Example string_of_Z_200 : string_of_Z 200 = "200".
Proof. reflexivity. Qed.

Example split_path :
  split_on "/" "/addresses/7/" = [EmptyString; "addresses"; "7"; EmptyString].
Proof. reflexivity. Qed.

(** [substring] counts UTF-16 code units: of the four characters
    a (one byte), e acute (two), the euro sign (three) and U+1F600 (four
    bytes, two units), the first three are three units; a fourth unit is
    the high surrogate D83D, written ED A0 BD; all of them are five. *)
Example take_string_code_units :
  let text := string_of_list_ascii
                (map ascii_of_nat [97; 195; 169; 226; 130; 172;
                                   240; 159; 152; 128]%nat) in
  take_string 3 text
  = string_of_list_ascii (map ascii_of_nat [97; 195; 169; 226; 130; 172]%nat)
  /\ take_string 4 text
     = string_of_list_ascii
         (map ascii_of_nat [97; 195; 169; 226; 130; 172; 237; 160; 189]%nat)
  /\ take_string 5 text = text
  /\ utf16_length text = 5%nat
  /\ String.length text = 10%nat.
Proof. repeat split. Qed.

Example base64_basic : base64 "admin:secret" = "YWRtaW46c2VjcmV0".
Proof. reflexivity. Qed.

Example base64_padding : base64 "Ma" = "TWE=" /\ base64 "M" = "TQ==".
Proof. split; reflexivity. Qed.

Example encodeURIComponent_cidr :
  encodeURIComponent "10.0.0.0/24" = "10.0.0.0%2F24".
Proof. reflexivity. Qed.

Example encodeURIComponent_base64 :
  encodeURIComponent "a+b/c==" = "a%2Bb%2Fc%3D%3D".
Proof. reflexivity. Qed.

Example crypt_params_update :
  crypt_params "/addresses/7/" (Some [("hostname", JStr "web01")])
  = [("controller", JStr "addresses"); ("id", JStr "7"); ("hostname", JStr "web01")].
Proof. reflexivity. Qed.

Example sample_parse_500 :
  sample_parse body_500
  = Some {| resp_code := 500; resp_success := false;
            resp_data := None; resp_message := None |}.
Proof. reflexivity. Qed.

(* ================================================================== *)
(** ** Running the monad *)
(* ================================================================== *)

Lemma bind_Ret {A B} (m : M A) (k : A -> M B) w a w' :
  m w = (Ret a, w') -> bind m k w = k a w'.
Proof. intros E. unfold bind. rewrite E. reflexivity. Qed.

Lemma bind_Throw {A B} (m : M A) (k : A -> M B) w e w' :
  m w = (Throw e, w') -> bind m k w = (Throw e, w').
Proof. intros E. unfold bind. rewrite E. reflexivity. Qed.

Lemma bind_ret {A B} (a : A) (k : A -> M B) w : bind (ret a) k w = k a w.
Proof. reflexivity. Qed.

Lemma try_catch_Ret {A} (m : M A) (h : Exn -> M A) w a w' :
  m w = (Ret a, w') -> try_catch m h w = (Ret a, w').
Proof. intros E. unfold try_catch. rewrite E. reflexivity. Qed.

Lemma try_catch_Throw {A} (m : M A) (h : Exn -> M A) w e w' :
  m w = (Throw e, w') -> try_catch m h w = h e w'.
Proof. intros E. unfold try_catch. rewrite E. reflexivity. Qed.

(* ================================================================== *)
(** ** Every method ends and respects the frame *)
(* ================================================================== *)

Lemma frame_refl w : frame w w.
Proof. repeat split. Qed.

Lemma frame_trans w1 w2 w3 : frame w1 w2 -> frame w2 w3 -> frame w1 w3.
Proof.
  intros (a1 & a2 & a3 & a4) (b1 & b2 & b3 & b4).
  repeat split; congruence.
Qed.

Lemma safe_ret {A} (a : A) : safe (ret a).
Proof. intros w; split; [discriminate | apply frame_refl]. Qed.

Lemma safe_throw {A} (e : Exn) : safe (@throw A e).
Proof. intros w; split; [discriminate | apply frame_refl]. Qed.

Lemma safe_bind {A B} (m : M A) (k : A -> M B) :
  safe m -> (forall a, safe (k a)) -> safe (bind m k).
Proof.
  intros Hm Hk w. unfold bind.
  destruct (Hm w) as [Hd Hf]. destruct (m w) as [[a | e |] w1]; simpl in *.
  - destruct (Hk a w1) as [Hd' Hf']. split; [exact Hd' | eapply frame_trans; eauto].
  - split; [discriminate | exact Hf].
  - congruence.
Qed.

Lemma safe_try_catch {A} (m : M A) (h : Exn -> M A) :
  safe m -> (forall e, safe (h e)) -> safe (try_catch m h).
Proof.
  intros Hm Hh w. unfold try_catch.
  destruct (Hm w) as [Hd Hf]. destruct (m w) as [[a | e |] w1]; simpl in *.
  - split; [discriminate | exact Hf].
  - destruct (Hh e w1) as [Hd' Hf']. split; [exact Hd' | eapply frame_trans; eauto].
  - congruence.
Qed.

Lemma safe_when (b : bool) (m : M unit) : safe m -> safe (when b m).
Proof. destruct b; [trivial | intros _; apply safe_ret]. Qed.

Lemma safe_get_this : safe get_this.
Proof. intros w; split; [discriminate | apply frame_refl]. Qed.

Lemma safe_modify_this (f : PhpIpamClient -> PhpIpamClient) :
  (forall c, config (f c) = config c /\ useCrypt (f c) = useCrypt c) ->
  safe (modify_this f).
Proof.
  intros Hf w; split; [discriminate |].
  destruct (Hf (this w)) as [H1 H2]. repeat split; assumption.
Qed.

Lemma safe_Date_now : safe Date_now.
Proof. intros w; split; [discriminate | repeat split]. Qed.

Lemma safe_console_error line : safe (console_error line).
Proof. intros w; split; [discriminate | repeat split]. Qed.

Lemma safe_sleep ms : safe (sleep ms).
Proof. intros w; split; [discriminate | repeat split]. Qed.

Create HintDb safe_db.
#[local] Hint Resolve safe_ret safe_throw safe_get_this safe_Date_now
  safe_console_error safe_sleep safe_when : safe_db.

(** Walks through a method built from the monad's operations. *)
Ltac safe_walk :=
  repeat first
    [ progress intros
    | solve [auto with safe_db]
    | apply safe_bind
    | apply safe_try_catch
    | apply safe_when
    | apply safe_modify_this; intros; split; reflexivity
    | match goal with
      | |- safe (if ?b then _ else _) => destruct b
      | |- safe (match ?x with _ => _ end) => destruct x
      | |- safe (let '(_, _) := ?p in _) => destruct p
      end ].

Section Safety.
Context `{Runtime}.

Lemma safe_exchange options : safe (exchange options).
Proof. intros w; split; [discriminate | repeat split]. Qed.

Lemma safe_cache_get key : safe (cache_get key).
Proof. unfold cache_get. safe_walk. Qed.

Lemma safe_cache_set key data : safe (cache_set key data).
Proof. unfold cache_set. safe_walk. Qed.

Lemma safe_httpRequest options : safe (httpRequest options).
Proof. unfold httpRequest. pose proof safe_exchange. safe_walk. Qed.

Lemma safe_getAuthToken : safe getAuthToken.
Proof. unfold getAuthToken. pose proof safe_httpRequest. safe_walk. Qed.

Lemma safe_mapApiError response : safe (mapApiError response).
Proof. unfold mapApiError. safe_walk. Qed.

Lemma safe_attempt options : safe (attempt options).
Proof.
  unfold attempt.
  pose proof safe_httpRequest. pose proof safe_getAuthToken.
  pose proof safe_mapApiError. safe_walk.
Qed.

(** A nested call is made only below the retry bound, with the retry
    counter moved up by one. *)
Lemma attempt_nested options w options' w' :
  attempt options w = (Ret (inr options'), w') ->
  options' = with_retryCount (default 0 (opt_retryCount options) + 1) options
  /\ default 0 (opt_retryCount options) < maxRetries (config (this w)).
Proof.
  unfold attempt, bind, get_this.
  destruct (safe_getAuthToken w) as [_ (Hc & _)].
  destruct (getAuthToken w) as [[tok|e|] w1]; simpl in *; try discriminate.
  rewrite <- Hc. clear Hc.
  set (rc := default 0 (opt_retryCount options)).
  destruct (useCrypt (this w1)); [destruct tok; simpl; try discriminate |]; simpl.
  all: unfold try_catch, bind.
  all: match goal with
       | |- context [httpRequest ?o ?w0] =>
           destruct (httpRequest o w0) as [[resp|e|] w2]
       end; simpl; try discriminate.
  all: try (destruct (resp_success resp); simpl; try discriminate;
            destruct (mapApiError resp w2) as [[err|e|] w3]; simpl;
            try discriminate).
  all: repeat match goal with
       | E : ?b = _ |- context [if ?b then _ else _] => rewrite E
       | |- context [if ?b then _ else _] => destruct b eqn:?
       | |- context [match ?e with PhpIpam _ => _ | OtherError _ _ => _ end] =>
           destruct e
       | _ => progress simpl
       end; try discriminate.
  all: intros Heq; inversion Heq; subst; split; [reflexivity|].
  all: match goal with
       | E : _ && _ = true |- _ =>
           apply andb_true_iff in E; destruct E as [_ E]; lia
       end.
Qed.

(** The defining equation of [request]: the fuel it is given is enough. *)
Lemma request_unfold options w :
  request options w =
  (outcome <- attempt options ;;
   match outcome with
   | inl data => ret data
   | inr options' => request options'
   end) w.
Proof.
  unfold request at 1. simpl. unfold bind.
  destruct (safe_attempt options w) as [_ (Hc & _)].
  destruct (attempt options w) as [[[d|o']|e|] w1] eqn:E; try reflexivity.
  apply attempt_nested in E as [-> Hlt]. simpl in Hc.
  unfold request. simpl. rewrite Hc.
  replace (Z.to_nat (maxRetries (config (this w))
                     - default 0 (opt_retryCount options)))
    with (S (Z.to_nat (maxRetries (config (this w))
                       - (default 0 (opt_retryCount options) + 1)))) by lia.
  reflexivity.
Qed.

Lemma safe_request options : safe (request options).
Proof.
  intros w.
  remember (Z.to_nat (maxRetries (config (this w))
                      - default 0 (opt_retryCount options))) as n eqn:Hn.
  revert options w Hn. induction n as [|n IH]; intros options w Hn.
  all: rewrite request_unfold; unfold bind.
  all: destruct (safe_attempt options w) as [Hd Hf].
  all: destruct (attempt options w) as [[[d|o']|e|] w1] eqn:E; simpl in *;
       try (split; [discriminate || congruence | exact Hf]).
  all: apply attempt_nested in E as [-> Hlt].
  - lia.
  - destruct (IH (with_retryCount (default 0 (opt_retryCount options) + 1) options) w1)
      as [Hd' Hf'].
    + destruct Hf as (Hc & _). rewrite Hc. simpl. lia.
    + split; [exact Hd' | eapply frame_trans; eauto].
Qed.

Lemma safe_listSections : safe listSections.
Proof.
  unfold listSections.
  pose proof safe_request. pose proof safe_cache_get. pose proof safe_cache_set.
  safe_walk.
Qed.

End Safety.

(* ================================================================== *)
(** ** One step of each method, spelled out *)
(* ================================================================== *)

Section Runs.
Context `{Runtime}.

Lemma httpRequest_run (o : HttpOptions) (w : World) :
  headers_defined o = true ->
  httpRequest o w = (http_result (next_event w), exchanged o w).
Proof.
  unfold headers_defined. intros Hh. apply negb_true_iff in Hh.
  unfold httpRequest, bind, get_this, request_log, response_log, http_result,
    exchanged, next_event.
  cbn zeta. rewrite Hh.
  destruct w as [c ck tk nw st cs sl]; simpl.
  destruct (debugHttp (config c)); simpl;
    [destruct (truthy_ostring (http_body o)); simpl |];
    destruct (nw (length st)) as [status data | msg |]; simpl;
    try destruct (JSON_parse data); unfold with_console, with_sent; simpl;
    rewrite ?app_nil_r, <- ?app_assoc; reflexivity.
Qed.

Lemma getAuthToken_token_mode w :
  getEffectiveAuthMode (config (this w)) = eff_token ->
  getAuthToken w = (Ret (token (config (this w))), w).
Proof.
  intros E. unfold getAuthToken, bind, get_this. simpl. rewrite E. reflexivity.
Qed.

Lemma getAuthToken_cached w :
  getEffectiveAuthMode (config (this w)) = eff_password ->
  truthy_ostring (authToken (this w)) = true ->
  clock w (ticks w) < tokenExpires (this w) ->
  getAuthToken w = (Ret (authToken (this w)), with_ticks (S (ticks w)) w).
Proof.
  intros E Ht Hlt. unfold getAuthToken, bind, get_this. simpl. rewrite E, Ht.
  unfold Date_now; simpl.
  destruct (Z.ltb_spec (clock w (ticks w)) (tokenExpires (this w)));
    [reflexivity | lia].
Qed.

Lemma expiry_check_fails w :
  needs_login w ->
  (if truthy_ostring (authToken (this w))
   then now <- Date_now ;; ret (now <? tokenExpires (this w))
   else ret false) w = (Ret false, before_login w).
Proof.
  intros Hn. unfold before_login.
  destruct (truthy_ostring (authToken (this w))) eqn:Ht; [| reflexivity].
  destruct Hn as [Hn | Hn]; [congruence |].
  unfold bind, Date_now, ret.
  destruct (Z.ltb_spec (clock w (ticks w)) (tokenExpires (this w)));
    [lia | reflexivity].
Qed.

(** [getAuthToken] when it has to log in, by outcome of the exchange. *)
Lemma getAuthToken_login w :
  getEffectiveAuthMode (config (this w)) = eff_password ->
  needs_login w ->
  getAuthToken w =
  let w1 := exchanged (login_options (config (this w))) (before_login w) in
  match http_result (next_event w) with
  | Ret response =>
      if negb (resp_success response)
         || negb (truthy_ostring (authData_token (resp_data response)))
      then (Throw (PhpIpam (auth_failed response)), w1)
      else (Ret (authData_token (resp_data response)),
            logged_in (authData_token (resp_data response)) w1)
  | Throw e => (Throw e, w1)
  | Diverge => (Diverge, w1)
  end.
Proof.
  intros E Hn.
  assert (Hev : next_event (before_login w) = next_event w).
  { unfold before_login. destruct (truthy_ostring _); reflexivity. }
  unfold getAuthToken.
  rewrite (bind_Ret get_this _ w (this w) w) by reflexivity.
  cbv zeta. rewrite E.
  rewrite (bind_Ret _ _ w false (before_login w))
    by (apply expiry_check_fails; exact Hn).
  fold (login_options (config (this w))).
  pose proof (httpRequest_run (login_options (config (this w)))
                (before_login w) eq_refl) as Hrun.
  rewrite Hev in Hrun.
  destruct (http_result (next_event w)) as [resp | e |].
  - rewrite (bind_Ret _ _ _ _ _ Hrun).
    destruct (negb (resp_success resp) || _); reflexivity.
  - rewrite (bind_Throw _ _ _ _ _ Hrun). reflexivity.
  - unfold bind. rewrite Hrun. reflexivity.
Qed.

Lemma mapApiError_run response w :
  mapApiError response w = (Ret (classify response), invalidate_on_401 response w).
Proof.
  unfold mapApiError, classify, invalidate_on_401, bind, modify_this, ret,
    new_PhpIpamError.
  cbv zeta.
  destruct (resp_code response =? 401); [reflexivity |].
  destruct (resp_code response =? 403); [reflexivity |].
  destruct (resp_code response =? 404); [reflexivity |].
  destruct (resp_code response =? 409); [reflexivity |].
  destruct (500 <=? resp_code response); reflexivity.
Qed.

(** The parameter object [request] builds step by step in crypt mode is
    the one the protocol describes. *)
Lemma crypt_params_computed path body :
  (let controller :=
     default EmptyString (List.filter truthy_string (split_on "/" path) !! 0%nat) in
   let requestParams : JsObject := [("controller", JStr controller)] in
   let pathParts := List.filter truthy_string (split_on "/" path) in
   let requestParams :=
     if (1 <? length pathParts)%nat
     then obj_set "id" (JStr (default EmptyString (pathParts !! 1%nat))) requestParams
     else requestParams in
   match body with
   | Some b => Object_assign requestParams b
   | None => requestParams
   end) = crypt_params path body.
Proof.
  unfold crypt_params. cbv zeta.
  destruct (List.filter truthy_string (split_on "/" path)) as [| a [| b l]];
    reflexivity.
Qed.

(** The body of [request] once a credential has been obtained: one
    exchange with the request of the transport mode, then the decision. *)
Lemma attempt_run options w tok w1 :
  getAuthToken w = (Ret (Some tok), w1) ->
  attempt options w =
  attempt_outcome options (this w1) (http_result (next_event w1))
    (exchanged (wire_request (this w1) tok options) w1).
Proof.
  intros Hg. unfold attempt. cbv zeta.
  rewrite (bind_Ret _ _ _ _ _ Hg).
  rewrite (bind_Ret get_this _ w1 (this w1) w1) by reflexivity.
  pose proof (crypt_params_computed (opt_path options) (opt_body options)) as Hp.
  cbv zeta in Hp. rewrite Hp. clear Hp.
  unfold wire_request, encryptRequest.
  destruct (useCrypt (this w1)).
  all: cbv iota; rewrite bind_ret; cbv beta iota.
  all: unfold try_catch.
  all: match goal with
       | |- context [bind (httpRequest ?o) ?k ?w0] =>
           pose proof (httpRequest_run o w0 eq_refl) as Hrun;
           match type of Hrun with
           | _ = (?r, ?w2) =>
               assert (Hb : forall r', r = r' ->
                         bind (httpRequest o) k w0 =
                         match r' with
                         | Ret a => k a w2
                         | Throw e => (Throw e, w2)
                         | Diverge => (Diverge, w2)
                         end)
                 by (intros r' <-; unfold bind; rewrite Hrun; reflexivity)
           end
       end.
  all: rewrite (Hb _ eq_refl); clear Hb Hrun.
  all: unfold attempt_outcome, retry_or_throw.
  all: destruct (http_result (next_event w1)) as [resp | [e | nm msg] |];
       cbv beta iota; try reflexivity.
  all: try (destruct (resp_success resp); cbv beta iota; [reflexivity |];
            change (negb false) with true; cbv iota;
            rewrite (bind_Ret _ _ _ _ _ (mapApiError_run resp _))).
  all: match goal with
       | |- context [retryable ?e && ?c] => destruct (retryable e && c) eqn:Hc
       end; unfold throw, bind, sleep, ret; cbv beta iota; rewrite ?Hc;
       reflexivity.
Qed.


End Runs.

(* ================================================================== *)
(** ** Error classification and session invalidation *)
(* ================================================================== *)

Section Classification.
Context `{Runtime}.

(** C4.  Classification of a response that reports failure: the error
    built by [mapApiError] has kind AUTH for status 401, FORBIDDEN for
    403, NOT_FOUND for 404, CONFLICT for 409, RETRYABLE with the
    retryable flag set for every status of 500 or more, and VALIDATION for
    any other status; the retryable flag is set for the RETRYABLE kind
    only.  The error carries the status it was built from. *)
Theorem mapApiError_classification (response : ApiResponse) (w : World) :
  exists e w',
    mapApiError response w = (Ret e, w')
    /\ statusCode e = Some (resp_code response)
    /\ (resp_code response = 401 -> code e = AUTH)
    /\ (resp_code response = 403 -> code e = FORBIDDEN)
    /\ (resp_code response = 404 -> code e = NOT_FOUND)
    /\ (resp_code response = 409 -> code e = CONFLICT)
    /\ (500 <= resp_code response -> code e = RETRYABLE /\ retryable e = true)
    /\ (resp_code response < 500 ->
        resp_code response <> 401 -> resp_code response <> 403 ->
        resp_code response <> 404 -> resp_code response <> 409 ->
        code e = VALIDATION)
    /\ (retryable e = true <-> code e = RETRYABLE).
Proof.
  exists (classify response), (invalidate_on_401 response w).
  split; [apply mapApiError_run |].
  split; [reflexivity |].
  unfold classify; simpl.
  destruct (Z.eqb_spec (resp_code response) 401) as [E1 | E1];
  [| destruct (Z.eqb_spec (resp_code response) 403) as [E2 | E2];
   [| destruct (Z.eqb_spec (resp_code response) 404) as [E3 | E3];
    [| destruct (Z.eqb_spec (resp_code response) 409) as [E4 | E4];
     [| destruct (Z.leb_spec 500 (resp_code response)) as [E5 | E5] ]]]];
  simpl; repeat split; intros; try reflexivity; try discriminate; try lia;
  try congruence.
Qed.

(** C3.  Classifying a response with status 401 clears the cached
    session token, so that in password mode the next credential request,
    whatever the clock says, sends a login to the network; classifying a
    response with any other status leaves the whole state as it was. *)
Theorem unauthorized_clears_session (response : ApiResponse) (w : World) :
  (resp_code response = 401 ->
   authToken (this (snd (mapApiError response w))) = None
   /\ (getEffectiveAuthMode (config (this w)) = eff_password ->
       forall w1 : World,
         this w1 = this (snd (mapApiError response w)) ->
         sent (snd (getAuthToken w1))
         = sent w1 ++ [login_options (config (this w))]))
  /\ (resp_code response <> 401 -> snd (mapApiError response w) = w).
Proof.
  rewrite mapApiError_run. unfold invalidate_on_401. simpl. split.
  - intros ->. simpl. split; [reflexivity |].
    intros Hmode w1 Hthis.
    assert (Hn : needs_login w1) by (left; rewrite Hthis; reflexivity).
    assert (Hc : config (this w1) = config (this w)) by (rewrite Hthis; reflexivity).
    rewrite getAuthToken_login by (rewrite ?Hc; assumption).
    rewrite Hc. cbv zeta.
    assert (Hs : sent (before_login w1) = sent w1).
    { unfold before_login. destruct (truthy_ostring _); reflexivity. }
    destruct (http_result (next_event w1)) as [resp | e |];
      [destruct (negb (resp_success resp) || _) |..]; simpl; now rewrite Hs.
  - intros Hne. destruct (Z.eqb_spec (resp_code response) 401); [contradiction |].
    reflexivity.
Qed.

(** C5, as the code has it.  With a static token present and the
    configured mode not [password], the effective mode is [token] whatever
    user name and password are configured; with the configured mode
    [password] the effective mode is [password].  In token mode a
    credential request returns the configured token and leaves the world,
    the network included, untouched. *)
Theorem token_precedence (c : PhpIpamConfig) :
  truthy_ostring (token c) = true ->
  (authMode c <> password_mode -> getEffectiveAuthMode c = eff_token)
  /\ (authMode c = password_mode -> getEffectiveAuthMode c = eff_password)
  /\ (forall w : World,
        config (this w) = c ->
        getEffectiveAuthMode c = eff_token ->
        getAuthToken w = (Ret (token c), w)).
Proof.
  intros Ht. unfold getEffectiveAuthMode. repeat split.
  - destruct (authMode c); [reflexivity | contradiction | now rewrite Ht].
  - now intros ->.
  - intros w <- Hm. now apply getAuthToken_token_mode.
Qed.

End Classification.

(** [{authMode: auto, token: "t1"}]: token mode, credential ["t1"], and
    nothing sent. *)
Lemma token_precedence_witness :
  getEffectiveAuthMode token_config = eff_token
  /\ @getAuthToken sample_runtime (fresh_world token_config (fun _ => NetTimeout))
     = (Ret (Some "t1"), fresh_world token_config (fun _ => NetTimeout))
  /\ sent (snd (@getAuthToken sample_runtime
                  (fresh_world token_config (fun _ => NetTimeout)))) = [].
Proof.
  destruct (@token_precedence sample_runtime token_config eq_refl)
    as (Hmode & _ & Hcred).
  assert (Hm : getEffectiveAuthMode token_config = eff_token)
    by (apply Hmode; discriminate).
  split; [exact Hm |].
  rewrite (Hcred (fresh_world token_config (fun _ => NetTimeout)) eq_refl Hm).
  split; reflexivity.
Defined.

(** C5 as stated fails: a configuration that passes validation, holds a
    static token and selects password mode has effective mode
    [password]. *)
Lemma token_present_but_password_mode :
  validateAuthConfig (authMode both_config) (token both_config)
    (username both_config) (password both_config) = true
  /\ truthy_ostring (token both_config) = true
  /\ getEffectiveAuthMode both_config <> eff_token.
Proof. repeat split. discriminate. Qed.

Lemma mapApiError_classification_witness :
  exists e w',
    mapApiError response_503 (fresh_world token_config (fun _ => NetTimeout))
    = (Ret e, w')
    /\ code e = RETRYABLE /\ retryable e = true /\ statusCode e = Some 503.
Proof.
  destruct (mapApiError_classification response_503
              (fresh_world token_config (fun _ => NetTimeout)))
    as (e & w' & Hrun & Hst & _ & _ & _ & _ & H5 & _).
  exists e, w'. split; [exact Hrun |].
  destruct H5 as [Hc Hr]; [simpl; lia |]. auto.
Defined.

(** A 401 met while a session token is cached: the token is dropped and
    the next credential request logs in again although the old token had
    hours to go. *)
Lemma unauthorized_clears_session_witness :
  authToken (this (session_world (fun _ => NetTimeout))) = Some "0ldT0k3n"
  /\ authToken (this (snd (mapApiError response_401
                             (session_world (fun _ => NetTimeout))))) = None
  /\ sent (snd (@getAuthToken sample_runtime
                  (snd (mapApiError response_401
                          (session_world (fun _ => NetTimeout))))))
     = [login_options password_config].
Proof.
  destruct (@unauthorized_clears_session sample_runtime response_401
              (session_world (fun _ => NetTimeout))) as [H401 _].
  destruct (H401 eq_refl) as [Hnone Hlogin].
  split; [reflexivity |]. split; [exact Hnone |].
  exact (Hlogin eq_refl _ eq_refl).
Defined.

(* ================================================================== *)
(** ** The session token in password mode *)
(* ================================================================== *)

Section Session.
Context `{Runtime}.

Lemma before_login_fields w :
  this (before_login w) = this w /\ clock (before_login w) = clock w
  /\ sent (before_login w) = sent w /\ slept (before_login w) = slept w
  /\ network (before_login w) = network w.
Proof. unfold before_login. destruct (truthy_ostring _); repeat split. Qed.

(** C8.  Password mode: when a login is accepted with token [tok] and
    [T] is the reading of the clock taken right after the exchange, the
    token is cached with tracked expiry [T] plus five hours.  From then
    on, in any world holding that session state, a credential request
    that reads a time before the tracked expiry returns the cached token
    and sends nothing, and one that reads a time at or after it sends a
    fresh login. *)
Theorem session_token_expiry (w : World) (response : ApiResponse) (tok : string) :
  getEffectiveAuthMode (config (this w)) = eff_password ->
  needs_login w ->
  http_result (next_event w) = Ret response ->
  resp_success response = true ->
  authData_token (resp_data response) = Some tok ->
  truthy_string tok = true ->
  let T := clock w (ticks (before_login w)) in
  let w' := snd (getAuthToken w) in
  fst (getAuthToken w) = Ret (Some tok)
  /\ authToken (this w') = Some tok
  /\ tokenExpires (this w') = T + 5 * 60 * 60 * 1000
  /\ forall w2 : World,
       this w2 = this w' ->
       (clock w2 (ticks w2) < T + 5 * 60 * 60 * 1000 ->
        getAuthToken w2 = (Ret (Some tok), with_ticks (S (ticks w2)) w2)
        /\ sent (snd (getAuthToken w2)) = sent w2)
       /\ (T + 5 * 60 * 60 * 1000 <= clock w2 (ticks w2) ->
           sent (snd (getAuthToken w2))
           = sent w2 ++ [login_options (config (this w))]).
Proof.
  intros Hmode Hn Hres Hok Htok Htruthy T w'.
  assert (Hrun : getAuthToken w
                 = (Ret (Some tok),
                    logged_in (Some tok)
                      (exchanged (login_options (config (this w))) (before_login w)))).
  { rewrite getAuthToken_login by assumption. cbv zeta.
    rewrite Hres, Hok, Htok. simpl. rewrite Htruthy. reflexivity. }
  subst w'. rewrite Hrun. simpl.
  destruct (before_login_fields w) as (Hthis & Hclock & _).
  split; [reflexivity |]. split; [reflexivity |].
  split; [subst T; now rewrite Hclock |].
  intros w2 Hw2.
  assert (Hc : config (this w2) = config (this w))
    by (rewrite Hw2; simpl; now rewrite Hthis).
  split.
  - intros Hlt.
    assert (Hcached : getAuthToken w2
                      = (Ret (Some tok), with_ticks (S (ticks w2)) w2)).
    { rewrite (getAuthToken_cached w2).
      - now rewrite Hw2.
      - now rewrite Hc.
      - rewrite Hw2. simpl. exact Htruthy.
      - rewrite Hw2. simpl. rewrite Hclock. exact Hlt. }
    split; [exact Hcached | now rewrite Hcached].
  - intros Hge.
    assert (Hn2 : needs_login w2).
    { right. rewrite Hw2. simpl. rewrite Hclock. exact Hge. }
    rewrite getAuthToken_login by (rewrite ?Hc; assumption).
    rewrite Hc. cbv zeta.
    destruct (before_login_fields w2) as (_ & _ & Hs & _).
    destruct (http_result (next_event w2)) as [resp | e |];
      [destruct (negb (resp_success resp) || _) |..]; simpl; now rewrite Hs.
Qed.

(** C9.  Password mode: when the login exchange made to obtain the
    credential ends in a connection failure or a timeout, [request] throws
    that RETRYABLE error at once.  The login is the only exchange made and
    no backoff delay is slept, whatever [maxRetries] and the retry counter
    are. *)
Theorem login_transport_failure_not_retried
    (options : RequestOptions) (w : World) :
  getEffectiveAuthMode (config (this w)) = eff_password ->
  needs_login w ->
  (exists msg, next_event w = NetError msg) \/ next_event w = NetTimeout ->
  exists e w',
    request options w = (Throw (PhpIpam e), w')
    /\ code e = RETRYABLE
    /\ retryable e = true
    /\ sent w' = sent w ++ [login_options (config (this w))]
    /\ slept w' = slept w.
Proof.
  intros Hmode Hn Hev.
  assert (Hthrow : exists e, http_result (next_event w) = Throw (PhpIpam e)
                             /\ code e = RETRYABLE /\ retryable e = true).
  { destruct Hev as [[msg ->] | ->]; eexists; repeat split. }
  destruct Hthrow as (e & Hres & Hcode & Hretry).
  exists e, (exchanged (login_options (config (this w))) (before_login w)).
  destruct (before_login_fields w) as (_ & _ & Hs & Hsl & _).
  split; [| repeat split; simpl; congruence].
  rewrite request_unfold.
  apply bind_Throw. unfold attempt. apply bind_Throw.
  rewrite getAuthToken_login by assumption. cbv zeta.
  now rewrite Hres.
Qed.

End Session.

(** A login at time [T] = 1767225600000: the tracked expiry is [T] plus
    five hours; a request at [T] plus four hours uses the cached token and
    sends nothing, a request at [T] plus five hours and one minute logs in
    again. *)
Lemma session_token_expiry_witness :
  tokenExpires
    (this (snd (@getAuthToken sample_runtime
                  (fresh_world password_config
                     (fun _ => NetResponse 200 body_login)))))
  = 1767225600000 + 18000000
  /\ sent (snd (@getAuthToken sample_runtime
                  (world_at (1767225600000 + 4 * 60 * 60 * 1000)
                     (this (snd (@getAuthToken sample_runtime
                                   (fresh_world password_config
                                      (fun _ => NetResponse 200 body_login)))))
                     (fun _ => NetTimeout)))) = []
  /\ sent (snd (@getAuthToken sample_runtime
                  (world_at (1767225600000 + (5 * 60 + 1) * 60 * 1000)
                     (this (snd (@getAuthToken sample_runtime
                                   (fresh_world password_config
                                      (fun _ => NetResponse 200 body_login)))))
                     (fun _ => NetTimeout))))
     = [login_options password_config].
Proof.
  destruct (@session_token_expiry sample_runtime
              (fresh_world password_config (fun _ => NetResponse 200 body_login))
              {| resp_code := 200; resp_success := true;
                 resp_data := Some (JObj [("token", JStr "s3ss10nT0k3n")]);
                 resp_message := None |}
              "s3ss10nT0k3n" eq_refl (or_introl eq_refl) eq_refl eq_refl eq_refl
              eq_refl)
    as (_ & _ & Hexp & Hlater).
  split; [exact Hexp |]. split.
  - destruct (Hlater (world_at (1767225600000 + 4 * 60 * 60 * 1000)
                        (this (snd (@getAuthToken sample_runtime
                                      (fresh_world password_config
                                         (fun _ => NetResponse 200 body_login)))))
                        (fun _ => NetTimeout)) eq_refl) as [Hearly _].
    apply Hearly. reflexivity.
  - destruct (Hlater (world_at (1767225600000 + (5 * 60 + 1) * 60 * 1000)
                        (this (snd (@getAuthToken sample_runtime
                                      (fresh_world password_config
                                         (fun _ => NetResponse 200 body_login)))))
                        (fun _ => NetTimeout)) eq_refl) as [_ Hlate].
    apply Hlate. discriminate.
Defined.

(** The login times out: one exchange, no delay, a RETRYABLE error,
    although three retries are configured. *)
Lemma login_transport_failure_not_retried_witness :
  maxRetries password_config = 3
  /\ exists e w',
       @request sample_runtime write_call
         (fresh_world password_config (fun _ => NetTimeout))
       = (Throw (PhpIpam e), w')
       /\ code e = RETRYABLE
       /\ retryable e = true
       /\ sent w' = [login_options password_config]
       /\ slept w' = [].
Proof.
  split; [reflexivity |].
  exact (@login_transport_failure_not_retried sample_runtime write_call
           (fresh_world password_config (fun _ => NetTimeout))
           eq_refl (or_introl eq_refl) (or_intror eq_refl)).
Defined.
(* ================================================================== *)
(** ** Retry with exponential backoff *)
(* ================================================================== *)

Section Retry.
Context `{Runtime}.

(** A ready credential is handed out without touching anything but the
    count of clock readings. *)
Lemma credential_ready_run w :
  credential_ready w ->
  exists tok w1,
    getAuthToken w = (Ret (Some tok), w1)
    /\ this w1 = this w /\ sent w1 = sent w /\ slept w1 = slept w
    /\ console w1 = console w
    /\ clock w1 = clock w /\ network w1 = network w
    /\ (ticks w <= ticks w1)%nat.
Proof.
  unfold credential_ready. intros Hr.
  destruct (getEffectiveAuthMode (config (this w))) eqn:Hm.
  - destruct Hr as [tok Htok]. exists tok, w.
    rewrite getAuthToken_token_mode by assumption. rewrite Htok.
    repeat split; lia.
  - destruct Hr as [Ht Hclock].
    destruct (authToken (this w)) as [tok |] eqn:Ha; [| discriminate].
    exists tok, (with_ticks (S (ticks w)) w).
    assert (Hlt : clock w (ticks w) < tokenExpires (this w)) by (apply Hclock; lia).
    rewrite getAuthToken_cached; rewrite ?Ha; auto.
    repeat split; simpl; lia.
Qed.

Lemma credential_ready_later w w' :
  credential_ready w ->
  this w' = this w -> clock w' = clock w -> (ticks w <= ticks w')%nat ->
  credential_ready w'.
Proof.
  unfold credential_ready. intros Hr -> -> Ht.
  destruct (getEffectiveAuthMode (config (this w))); [exact Hr |].
  destruct Hr as [Ha Hc]. split; [exact Ha |]. intros k Hk. apply Hc. lia.
Qed.

(** On a retryable outcome the body of [request] ends with the retry
    decision on a RETRYABLE error; the session state is untouched. *)
Lemma attempt_on_retryable options w tok w1 :
  getAuthToken w = (Ret (Some tok), w1) ->
  retryable_outcome (next_event w1) = true ->
  exists e w2,
    attempt options w = retry_or_throw options (this w1) e w2
    /\ code e = RETRYABLE /\ retryable e = true
    /\ this w2 = this w1
    /\ sent w2 = sent w1 ++ [wire_request (this w1) tok options]
    /\ slept w2 = slept w1
    /\ clock w2 = clock w1 /\ network w2 = network w1
    /\ ticks w2 = ticks w1.
Proof.
  intros Hg Hev.
  rewrite (attempt_run options w tok w1 Hg).
  set (o := wire_request (this w1) tok options).
  unfold retryable_outcome in Hev. unfold attempt_outcome.
  destruct (http_result (next_event w1)) as [resp | e |] eqn:Hres;
    [| | discriminate].
  - apply andb_true_iff in Hev as [Hfail Hcode].
    apply negb_true_iff in Hfail. apply Z.leb_le in Hcode. rewrite Hfail.
    assert (H401 : (resp_code resp =? 401) = false) by (apply Z.eqb_neq; lia).
    exists (classify resp), (exchanged o w1).
    unfold invalidate_on_401. rewrite H401.
    split; [reflexivity |].
    unfold classify; simpl.
    assert (H403 : (resp_code resp =? 403) = false) by (apply Z.eqb_neq; lia).
    assert (H404 : (resp_code resp =? 404) = false) by (apply Z.eqb_neq; lia).
    assert (H409 : (resp_code resp =? 409) = false) by (apply Z.eqb_neq; lia).
    assert (H500 : (500 <=? resp_code resp) = true) by (apply Z.leb_le; lia).
    rewrite H401, H403, H404, H409, H500.
    repeat split.
  - assert (He : exists e', e = PhpIpam e' /\ code e' = RETRYABLE
                            /\ retryable e' = true).
    { unfold http_result in Hres.
      destruct (next_event w1); inversion Hres; eexists; repeat split. }
    destruct He as (e' & -> & Hc & Hrt).
    exists e', (exchanged o w1).
    repeat split; assumption.
Qed.

(** One retry, however the credential was obtained: below the bound a
    retryable outcome makes [request] sleep [retryDelay * 2^retryCount]
    and start over with the counter moved up by one; at the bound it makes
    [request] throw the RETRYABLE error without delay. *)
Lemma retry_step options w tok w1 :
  getAuthToken w = (Ret (Some tok), w1) ->
  retryable_outcome (next_event w1) = true ->
  let retryCount := default 0 (opt_retryCount options) in
  (retryCount < maxRetries (config (this w)) ->
   exists w2,
     request options w = request (with_retryCount (retryCount + 1) options) w2
     /\ slept w2 = slept w1 ++ [retryDelay (config (this w)) * 2 ^ retryCount]
     /\ sent w2 = sent w1 ++ [wire_request (this w1) tok options])
  /\ (maxRetries (config (this w)) <= retryCount ->
      exists e w2,
        request options w = (Throw (PhpIpam e), w2)
        /\ code e = RETRYABLE /\ retryable e = true
        /\ slept w2 = slept w1
        /\ sent w2 = sent w1 ++ [wire_request (this w1) tok options]).
Proof.
  intros Hg Hev retryCount.
  destruct (attempt_on_retryable options w tok w1 Hg Hev) as
    (e & w2 & Hatt & Hcode & Hrt & Hthis & Hsent & Hslept & _).
  destruct (safe_getAuthToken w) as [_ (Hcfg & _)].
  rewrite Hg in Hcfg. simpl in Hcfg.
  unfold retry_or_throw in Hatt. fold retryCount in Hatt.
  rewrite Hrt, Hcfg in Hatt. simpl in Hatt.
  split; intros Hbound.
  - assert (Hlt : (retryCount <? maxRetries (config (this w))) = true)
      by (apply Z.ltb_lt; lia).
    rewrite Hlt in Hatt.
    eexists. split; [| split].
    + rewrite request_unfold, (bind_Ret _ _ _ _ _ Hatt). reflexivity.
    + simpl. now rewrite Hslept.
    + simpl. exact Hsent.
  - assert (Hge : (retryCount <? maxRetries (config (this w))) = false)
      by (apply Z.ltb_ge; lia).
    rewrite Hge in Hatt.
    exists e, w2. split; [| repeat split; assumption].
    rewrite request_unfold. now apply bind_Throw.
Qed.

Lemma attempt_retryable options w :
  credential_ready w ->
  retryable_outcome (next_event w) = true ->
  exists e o w2,
    attempt options w = retry_or_throw options (this w) e w2
    /\ code e = RETRYABLE /\ retryable e = true
    /\ this w2 = this w /\ sent w2 = sent w ++ [o] /\ slept w2 = slept w
    /\ clock w2 = clock w /\ network w2 = network w
    /\ (ticks w <= ticks w2)%nat.
Proof.
  intros Hr Hev.
  destruct (credential_ready_run w Hr)
    as (tok & w1 & Hg & Hthis & Hsent & Hslept & _ & Hclock & Hnet & Hticks).
  assert (Hnext : next_event w1 = next_event w)
    by (unfold next_event; now rewrite Hnet, Hsent).
  rewrite <- Hnext in Hev.
  destruct (attempt_on_retryable options w tok w1 Hg Hev) as
    (e & w2 & Hatt & Hcode & Hrt & Hthis2 & Hsent2 & Hslept2 & Hclock2
     & Hnet2 & Hticks2).
  exists e, (wire_request (this w1) tok options), w2.
  rewrite <- Hthis. repeat split; congruence || lia.
Qed.

(** [request] looks at its retry counter through the default only. *)
Lemma request_retryCount_default options w :
  request (with_retryCount (default 0 (opt_retryCount options)) options) w
  = request options w.
Proof. destruct options as [m p b [rc |]]; reflexivity. Qed.

Lemma backoff_snoc c n :
  backoff c (S n) = backoff c n ++ [retryDelay c * 2 ^ Z.of_nat n].
Proof.
  unfold backoff. rewrite seq_S, map_app. reflexivity.
Qed.

(** After [k] retryable outcomes below the bound, [request] has slept
    the first [k] backoff delays (counted from its own retry counter) and
    continues as the call with the counter moved up by [k]. *)
Lemma request_retries (k : nat) : forall options w,
  credential_ready w ->
  0 <= default 0 (opt_retryCount options) ->
  (k <= Z.to_nat (maxRetries (config (this w))
                   - default 0 (opt_retryCount options))%Z)%nat ->
  (forall i, (i < k)%nat ->
     retryable_outcome (network w (length (sent w) + i)) = true) ->
  exists w_k,
    request options w
    = request (with_retryCount (default 0 (opt_retryCount options) + Z.of_nat k)
                 options) w_k
    /\ slept w_k
       = slept w ++ map (fun i => retryDelay (config (this w))
                                  * 2 ^ (default 0 (opt_retryCount options)
                                         + Z.of_nat i)) (seq 0 k)
    /\ length (sent w_k) = (length (sent w) + k)%nat
    /\ this w_k = this w /\ clock w_k = clock w /\ network w_k = network w
    /\ (ticks w <= ticks w_k)%nat.
Proof.
  induction k as [| k IH]; intros options w Hr Hrc Hmax Hev.
  - exists w. rewrite Z.add_0_r, request_retryCount_default.
    simpl. rewrite app_nil_r, Nat.add_0_r. repeat split; lia.
  - set (rc := default 0 (opt_retryCount options)) in *.
    destruct (attempt_retryable options w Hr) as
      (e & o & w2 & Hatt & _ & Hrt & Hthis & Hsent & Hslept & Hclock & Hnet & Hticks).
    { specialize (Hev 0%nat). rewrite Nat.add_0_r in Hev. apply Hev. lia. }
    unfold retry_or_throw in Hatt. fold rc in Hatt.
    assert (Hlt : (rc <? maxRetries (config (this w))) = true) by (apply Z.ltb_lt; lia).
    rewrite Hrt, Hlt in Hatt. simpl in Hatt.
    set (w' := with_slept (slept w2 ++ [retryDelay (config (this w)) * 2 ^ rc]) w2) in *.
    destruct (IH (with_retryCount (rc + 1) options) w') as
      (w_k & Hreq & Hsl & Hlen & Hth & Hck & Hnw & Htk).
    + apply (credential_ready_later w); simpl; auto.
    + simpl. lia.
    + simpl. rewrite Hthis. lia.
    + intros i Hi. simpl. rewrite Hnet, Hsent, length_app. simpl.
      replace (length (sent w) + 1 + i)%nat with (length (sent w) + S i)%nat by lia.
      apply Hev. lia.
    + exists w_k. simpl in *.
      split.
      { rewrite request_unfold, (bind_Ret _ _ _ _ _ Hatt). rewrite Hreq.
        f_equal. unfold with_retryCount. simpl. f_equal. f_equal. lia. }
      split.
      { rewrite Hsl, Hslept, Hthis, <- app_assoc. f_equal. simpl.
        rewrite Z.add_0_r. f_equal.
        rewrite <- seq_shift, map_map.
        apply map_ext. intros i. f_equal. f_equal. lia. }
      rewrite Hlen, Hsent, length_app. simpl.
      repeat split; try congruence; lia.
Qed.

(** A fresh call through [request] made with a credential at hand, the
    outcomes given by their place in the sequence of exchanges.
    After [k] retryable outcomes in a row, [k] within [maxRetries], the
    call has made [k] exchanges, has slept the delays
    [retryDelay * 2^0, ..., retryDelay * 2^(k-1)] in this order, and goes
    on as the attempt with index [k].  When [k] has reached [maxRetries]
    and that attempt ends in a retryable outcome too, the call throws a
    RETRYABLE error after [maxRetries + 1] exchanges in all and no
    further delay. *)
Lemma retries_with_credential_at_hand
    (options : RequestOptions) (w : World) (k : nat) :
  opt_retryCount options = None ->
  credential_ready w ->
  (k <= Z.to_nat (maxRetries (config (this w))))%nat ->
  (forall i, (i < k)%nat ->
     retryable_outcome (network w (length (sent w) + i)) = true) ->
  exists w_k,
    request options w = request (with_retryCount (Z.of_nat k) options) w_k
    /\ slept w_k = slept w ++ backoff (config (this w)) k
    /\ length (sent w_k) = (length (sent w) + k)%nat
    /\ (k = Z.to_nat (maxRetries (config (this w))) ->
        retryable_outcome (network w (length (sent w) + k)) = true ->
        exists e w',
          request options w = (Throw (PhpIpam e), w')
          /\ code e = RETRYABLE
          /\ retryable e = true
          /\ slept w' = slept w ++ backoff (config (this w)) k
          /\ length (sent w') = (length (sent w) + k + 1)%nat).
Proof.
  intros Hfresh Hr Hk Hev.
  destruct (request_retries k options w Hr) as
    (w_k & Hreq & Hsl & Hlen & Hth & Hck & Hnw & Htk).
  { rewrite Hfresh. simpl. lia. }
  { rewrite Hfresh. simpl. rewrite Z.sub_0_r. exact Hk. }
  { exact Hev. }
  rewrite Hfresh in Hreq, Hsl. simpl in Hreq, Hsl.
  exists w_k. split; [exact Hreq |]. split; [exact Hsl |]. split; [exact Hlen |].
  intros Hbound Hlast.
  destruct (attempt_retryable (with_retryCount (Z.of_nat k) options) w_k) as
    (e & o & w2 & Hatt & Hcode & Hrt & _ & Hsent & Hslept & _).
  - apply (credential_ready_later w); assumption.
  - unfold next_event. rewrite Hnw, Hlen. exact Hlast.
  - unfold retry_or_throw in Hatt. simpl in Hatt.
    assert (Hge : (Z.of_nat k <? maxRetries (config (this w_k))) = false)
      by (apply Z.ltb_ge; rewrite Hth; lia).
    rewrite Hge, andb_false_r in Hatt.
    exists e, w2. rewrite Hreq, request_unfold, (bind_Throw _ _ _ _ _ Hatt).
    repeat split; try assumption.
    + now rewrite Hslept, Hsl.
    + rewrite Hsent, length_app, Hlen. simpl. lia.
Qed.

End Retry.

(** The write call that meets [{code:500, success:false}] every time,
    with [maxRetries = 3] and [retryDelay = 1000]: four exchanges, the
    delays 1000, 2000 and 4000 (7000 in all), then a RETRYABLE error. *)
Example retries_on_500_in_token_mode :
  exists e w',
    @request sample_runtime write_call
      (fresh_world token_config (fun _ => NetResponse 500 body_500))
    = (Throw (PhpIpam e), w')
    /\ code e = RETRYABLE
    /\ retryable e = true
    /\ slept w' = [1000; 2000; 4000]
    /\ fold_right Z.add 0 (slept w') = 7000
    /\ length (sent w') = 4%nat.
Proof.
  destruct (@retries_with_credential_at_hand sample_runtime write_call
              (fresh_world token_config (fun _ => NetResponse 500 body_500))
              3%nat eq_refl)
    as (w_k & _ & _ & _ & Hfinal).
  - exists "t1". reflexivity.
  - simpl. lia.
  - intros i _. reflexivity.
  - destruct (Hfinal eq_refl eq_refl) as (e & w' & Hrun & Hcode & Hrt & Hsl & Hlen).
    exists e, w'. split; [exact Hrun |]. split; [exact Hcode |].
    split; [exact Hrt |]. split; [exact Hsl |].
    split; [rewrite Hsl; reflexivity | exact Hlen].
Qed.

(** The same schedule in password mode with a cached session token and
    a connection that is reset every time: the logical method is kept and
    the call is made four times. *)
Example retry_in_password_mode :
  fst (@request sample_runtime write_call
         (session_world (fun _ => NetError "ECONNRESET")))
  = Throw (PhpIpam {| message := "HTTP request failed: ECONNRESET";
                      code := RETRYABLE; statusCode := None;
                      retryable := true |})
  /\ slept (snd (@request sample_runtime write_call
                   (session_world (fun _ => NetError "ECONNRESET"))))
     = [1000; 2000; 4000]
  /\ map http_method
       (sent (snd (@request sample_runtime write_call
                     (session_world (fun _ => NetError "ECONNRESET")))))
     = ["POST"; "POST"; "POST"; "POST"].
Proof. repeat split. Qed.

(* ================================================================== *)
(** ** Domain operations on a 404 *)
(* ================================================================== *)

Section NotFound.
Context `{Runtime}.

(** A response that reports failure with a status below 500 ends the
    call at once with the error of its classification. *)
Lemma request_rejected options w tok w1 response :
  getAuthToken w = (Ret (Some tok), w1) ->
  http_result (next_event w1) = Ret response ->
  resp_success response = false ->
  resp_code response < 500 ->
  request options w
  = (Throw (PhpIpam (classify response)),
     invalidate_on_401 response
       (exchanged (wire_request (this w1) tok options) w1)).
Proof.
  intros Hg Hres Hfail Hcode.
  rewrite request_unfold. apply bind_Throw.
  rewrite (attempt_run options w tok w1 Hg), Hres.
  unfold attempt_outcome, retry_or_throw. rewrite Hfail.
  assert (Hr : retryable (classify response) = false).
  { unfold classify; simpl.
    destruct (Z.leb_spec 500 (resp_code response)); [lia |].
    now rewrite !andb_false_r. }
  now rewrite Hr.
Qed.

Lemma classify_404 response :
  resp_code response = 404 ->
  code (classify response) = NOT_FOUND
  /\ statusCode (classify response) = Some 404.
Proof. intros E. unfold classify. rewrite E. split; reflexivity. Qed.

Lemma asks_backend_cache_off key w :
  enableCache (config (this w)) = false -> asks_backend key w w.
Proof.
  intros Hoff. unfold asks_backend, cache_lookup, bind, get_this. simpl.
  now rewrite Hoff.
Qed.

Lemma asks_backend_no_entry key w :
  cache_map (cache (this w)) !! key = None -> asks_backend key w w.
Proof.
  intros Hm. unfold asks_backend, cache_lookup, cache_get, bind, get_this.
  simpl. destruct (enableCache (config (this w))); [| reflexivity].
  simpl. now rewrite Hm.
Qed.

Lemma asks_backend_expired key w data expires :
  enableCache (config (this w)) = true ->
  cache_map (cache (this w)) !! key = Some (data, expires) ->
  expires < clock w (ticks w) ->
  asks_backend key w
    (with_this
       (with_cache {| cache_map := delete key (cache_map (cache (this w)));
                      ttl := ttl (cache (this w)) |} (this w))
       (with_ticks (S (ticks w)) w)).
Proof.
  intros Hon He Hlt.
  unfold asks_backend, cache_lookup, cache_get, bind, get_this, Date_now.
  simpl. rewrite Hon, He. simpl.
  destruct (Z.ltb_spec expires (clock w (ticks w))); [reflexivity | lia].
Qed.

Lemma asks_backend_falsy key w data expires :
  enableCache (config (this w)) = true ->
  cache_map (cache (this w)) !! key = Some (data, expires) ->
  clock w (ticks w) <= expires ->
  truthy_ojson data = false ->
  asks_backend key w (with_ticks (S (ticks w)) w).
Proof.
  intros Hon He Hle Hf.
  unfold asks_backend, cache_lookup, cache_get, bind, get_this, Date_now.
  simpl. rewrite Hon, He. simpl.
  destruct (Z.ltb_spec expires (clock w (ticks w))); [lia |].
  simpl. now rewrite Hf.
Qed.

(** C6, on the code.  The backend answers the call of the operation with
    [{success:false, code:404}], the credential having been obtained in
    [w].  Every list operation that has a parent or a query
    ([listAddresses], [listSubnets], [search], [searchByHostname])
    returns an empty collection instead of raising, and every get-by-id
    operation ([getSection], [getSubnet], [getAddress]) raises a
    NOT_FOUND error that carries the status 404; [listSections], the one
    list operation without the handler of its siblings, raises that
    NOT_FOUND error too.  For the two cached lists this is said of every
    start [w0] from which the backend is asked in [w]. *)
Theorem not_found_by_operation_shape
    (id : string) (w : World) (tok : string) (w1 : World)
    (response : ApiResponse) :
  getAuthToken w = (Ret (Some tok), w1) ->
  http_result (next_event w1) = Ret response ->
  resp_success response = false ->
  resp_code response = 404 ->
  fst (listAddresses id w) = Ret (JArr [])
  /\ (forall w0, asks_backend ("subnets:" +:+ id) w0 w ->
      fst (listSubnets id w0) = Ret (JArr []))
  /\ fst (searchByHostname id w) = Ret (JArr [])
  /\ fst (search id w) = Ret (JObj [("addresses", JArr [])])
  /\ (exists e, fst (getSection id w) = Throw (PhpIpam e)
                /\ code e = NOT_FOUND /\ statusCode e = Some 404)
  /\ (exists e, fst (getSubnet id w) = Throw (PhpIpam e)
                /\ code e = NOT_FOUND /\ statusCode e = Some 404)
  /\ (exists e, fst (getAddress id w) = Throw (PhpIpam e)
                /\ code e = NOT_FOUND /\ statusCode e = Some 404)
  /\ (forall w0, asks_backend "sections" w0 w ->
      exists e, fst (listSections w0) = Throw (PhpIpam e)
                /\ code e = NOT_FOUND /\ statusCode e = Some 404).
Proof.
  intros Hg Hres Hfail Hcode.
  assert (Hlt : resp_code response < 500) by lia.
  pose proof (fun options =>
    request_rejected options w tok w1 response Hg Hres Hfail Hlt) as Hreq.
  destruct (classify_404 response Hcode) as [Hnf Hst].
  assert (Hcatch : forall (A : Type) (options : RequestOptions)
            (k : option Json -> M A) (fallback : A),
            fst (try_catch (bind (request options) k) (on_NOT_FOUND fallback) w)
            = Ret fallback).
  { intros A options k fallback.
    rewrite (try_catch_Throw _ _ _ _ _ (bind_Throw _ _ _ _ _ (Hreq options))).
    unfold on_NOT_FOUND. now rewrite Hnf. }
  split; [apply Hcatch |].
  split.
  { intros w0 Hask. unfold listSubnets.
    rewrite (bind_Ret get_this _ w0 (this w0) w0) by reflexivity.
    cbv zeta. rewrite (bind_Ret _ _ w0 None w) by exact Hask.
    apply Hcatch. }
  split; [apply Hcatch |].
  split; [apply Hcatch |].
  unfold getSection, getSubnet, getAddress. rewrite !Hreq. simpl.
  split; [exists (classify response); auto |].
  split; [exists (classify response); auto |].
  split; [exists (classify response); auto |].
  intros w0 Hask. unfold listSections.
  rewrite (bind_Ret get_this _ w0 (this w0) w0) by reflexivity.
  rewrite (bind_Ret _ _ w0 None w) by exact Hask.
  rewrite (bind_Throw _ _ _ _ _ (Hreq _)). simpl.
  exists (classify response). auto.
Qed.

End NotFound.

(** [listSections] on [{success:false, code:404}]: it raises NOT_FOUND,
    where its siblings return an empty collection. *)
Example listSections_raises_on_404 :
  @http_result sample_runtime
    (next_event (fresh_world token_config (fun _ => NetResponse 404 body_404)))
  = Ret {| resp_code := 404; resp_success := false;
           resp_data := None; resp_message := Some "Not found" |}
  /\ fst (@listSections sample_runtime
            (fresh_world token_config (fun _ => NetResponse 404 body_404)))
     = Throw (PhpIpam {| message := "Not found"; code := NOT_FOUND;
                         statusCode := Some 404; retryable := false |}).
Proof. split; reflexivity. Qed.

(** A 404 for every call.  Without caching: the addresses of a subnet and
    the subnets of a section are empty lists, the address 5 is a
    NOT_FOUND error, and so is the list of sections.  With caching on and
    an expired entry for the subnets of section 5: the backend is asked
    and the list is empty. *)
Lemma not_found_by_operation_shape_witness :
  fst (@listAddresses sample_runtime "5"
         (fresh_world token_config (fun _ => NetResponse 404 body_404)))
  = Ret (JArr [])
  /\ fst (@listSubnets sample_runtime "5"
            (fresh_world token_config (fun _ => NetResponse 404 body_404)))
     = Ret (JArr [])
  /\ (exists e,
        fst (@getAddress sample_runtime "5"
               (fresh_world token_config (fun _ => NetResponse 404 body_404)))
        = Throw (PhpIpam e)
        /\ code e = NOT_FOUND /\ statusCode e = Some 404)
  /\ (exists e,
        fst (@listSections sample_runtime
               (fresh_world token_config (fun _ => NetResponse 404 body_404)))
        = Throw (PhpIpam e)
        /\ code e = NOT_FOUND /\ statusCode e = Some 404)
  /\ fst (@listSubnets sample_runtime "5"
            (expired_entry_world (fun _ => NetResponse 404 body_404)))
     = Ret (JArr [])
  /\ length (sent (snd (@listSubnets sample_runtime "5"
                          (expired_entry_world
                             (fun _ => NetResponse 404 body_404)))))
     = 1%nat.
Proof.
  destruct (@not_found_by_operation_shape sample_runtime "5"
              (fresh_world token_config (fun _ => NetResponse 404 body_404))
              "t1"
              (fresh_world token_config (fun _ => NetResponse 404 body_404))
              {| resp_code := 404; resp_success := false;
                 resp_data := None; resp_message := Some "Not found" |}
              eq_refl eq_refl eq_refl eq_refl)
    as (Hla & Hls & _ & _ & _ & _ & Hga & Hsec).
  split; [exact Hla |].
  split; [apply Hls; apply asks_backend_cache_off; reflexivity |].
  split; [exact Hga |].
  split; [apply Hsec; apply asks_backend_cache_off; reflexivity |].
  destruct (@not_found_by_operation_shape sample_runtime "5"
              (snd (cache_lookup "subnets:5"
                      (expired_entry_world (fun _ => NetResponse 404 body_404))))
              "t1"
              (snd (cache_lookup "subnets:5"
                      (expired_entry_world (fun _ => NetResponse 404 body_404))))
              {| resp_code := 404; resp_success := false;
                 resp_data := None; resp_message := Some "Not found" |}
              eq_refl eq_refl eq_refl eq_refl)
    as (_ & Hexp & _).
  split; [apply Hexp; reflexivity | reflexivity].
Defined.

(* ================================================================== *)
(** ** Crypt mode on the wire *)
(* ================================================================== *)

Section Crypt.
Context `{Runtime}.






End Crypt.


(* ================================================================== *)
(** ** Health check *)
(* ================================================================== *)

Section HealthCheck.
Context `{Runtime}.

(** C10.  [health] never raises: it returns a record for every world.
    The record says healthy, with the fixed message, exactly when the
    [listSections] call it makes returns; when that call throws, whatever
    the error (a [PhpIpamError] of any kind, or another [Error]), the
    record says unhealthy and its message is the [message] of the thrown
    error. *)
Theorem health_never_raises (w : World) :
  exists h : Health,
    fst (health w) = Ret h
    /\ snd (health w) = snd (listSections w)
    /\ (healthy h = true <-> exists v, fst (listSections w) = Ret v)
    /\ match fst (listSections w) with
       | Ret _ =>
           h = {| healthy := true; health_message := "Connected to phpIPAM" |}
       | Throw (PhpIpam e) =>
           h = {| healthy := false; health_message := message e |}
       | Throw (OtherError _ msg) =>
           h = {| healthy := false; health_message := msg |}
       | Diverge => False
       end.
Proof.
  unfold health, try_catch, bind.
  destruct (safe_listSections w) as [Hd _].
  destruct (listSections w) as [[v | [e | nm msg] |] w1]; simpl in *.
  - eexists. repeat split. now exists v.
  - eexists. repeat split; [discriminate | now intros [v Hv]].
  - eexists. repeat split; [discriminate | now intros [v Hv]].
  - congruence.
Qed.

End HealthCheck.

(** A network that times out every time: [health] answers after the
    retries with the message of the timeout. *)
Example health_on_timeout :
  fst (@health sample_runtime (fresh_world token_config (fun _ => NetTimeout)))
  = Ret {| healthy := false; health_message := "Request timeout" |}.
Proof. reflexivity. Qed.

(** Three outcomes of [health]: a RETRYABLE error (the network times out
    every time), an AUTH error (the login is answered with a 401) and a
    list of sections. *)
Lemma health_never_raises_witness :
  fst (@health sample_runtime (fresh_world token_config (fun _ => NetTimeout)))
  = Ret {| healthy := false; health_message := "Request timeout" |}
  /\ fst (@health sample_runtime_more
            (fresh_world password_config (fun _ => NetResponse 401 body_401)))
     = Ret {| healthy := false;
              health_message := "Authentication failed: Unauthorized" |}
  /\ fst (@health sample_runtime_more
            (fresh_world token_config (fun _ => NetResponse 200 body_list)))
     = Ret {| healthy := true; health_message := "Connected to phpIPAM" |}.
Proof.
  split; [| split].
  - destruct (@health_never_raises sample_runtime
                (fresh_world token_config (fun _ => NetTimeout)))
      as (h & Hh & _ & _ & Hm).
    rewrite Hh. f_equal. exact Hm.
  - destruct (@health_never_raises sample_runtime_more
                (fresh_world password_config (fun _ => NetResponse 401 body_401)))
      as (h & Hh & _ & _ & Hm).
    rewrite Hh. f_equal. exact Hm.
  - destruct (@health_never_raises sample_runtime_more
                (fresh_world token_config (fun _ => NetResponse 200 body_list)))
      as (h & Hh & _ & _ & Hm).
    rewrite Hh. f_equal. exact Hm.
Defined.

(* ================================================================== *)
(** ** The debug log *)
(* ================================================================== *)

Section DebugLog.
Context `{Runtime}.

(** With HTTP debugging on, the text of the login response, cut at 500
    characters, is written to the console. *)
Lemma login_response_is_logged (w : World) (status : Z) (data : string) :
  getEffectiveAuthMode (config (this w)) = eff_password ->
  needs_login w ->
  debugHttp (config (this w)) = true ->
  next_event w = NetResponse status data ->
  In ("[HTTP] Response " +:+ string_of_Z status +:+ ": " +:+ take_string 500 data)
     (console (snd (getAuthToken w))).
Proof.
  intros Hmode Hn Hdebug Hev.
  assert (Hin : In ("[HTTP] Response " +:+ string_of_Z status +:+ ": "
                    +:+ take_string 500 data)
                  (console (exchanged (login_options (config (this w)))
                              (before_login w)))).
  { assert (Hb : config (this (before_login w)) = config (this w)
                 /\ next_event (before_login w) = next_event w).
    { unfold before_login. destruct (truthy_ostring _); split; reflexivity. }
    destruct Hb as [Hcfg Hnext].
    unfold exchanged, with_console. cbn [console].
    rewrite Hcfg, Hnext, Hdebug, Hev. unfold response_log.
    apply in_or_app. right. apply in_or_app. right. left. reflexivity. }
  rewrite getAuthToken_login by assumption. cbv zeta.
  destruct (http_result (next_event w)) as [resp | e |];
    [destruct (negb (resp_success resp) || _) |..]; exact Hin.
Qed.

End DebugLog.

(** C2 fails on the code: a password-mode login with HTTP debugging on.
    The provider answers with the session token, the login succeeds, and
    the console holds a line that contains the token. *)
Theorem debug_log_leaks_session_token :
  debugHttp password_config = true
  /\ fst (@getAuthToken sample_runtime
            (fresh_world password_config (fun _ => NetResponse 200 body_login)))
     = Ret (Some "s3ss10nT0k3n")
  /\ console (snd (@getAuthToken sample_runtime
                     (fresh_world password_config
                        (fun _ => NetResponse 200 body_login))))
     = [ "[HTTP] POST https://ipam.example.com/api/mcp/user/";
         "[HTTP] Response 200: " +:+ body_login ]
  /\ existsb (contains "s3ss10nT0k3n")
       (console (snd (@getAuthToken sample_runtime
                        (fresh_world password_config
                           (fun _ => NetResponse 200 body_login)))))
     = true.
Proof. repeat split. Qed.

(* ================================================================== *)
(** ** What a method keeps *)
(* ================================================================== *)

Lemma keeps_ret {A B} (obs : World -> B) (a : A) : keeps obs (ret a).
Proof. intros w. reflexivity. Qed.

Lemma keeps_throw {A B} (obs : World -> B) (e : Exn) : keeps obs (@throw A e).
Proof. intros w. reflexivity. Qed.

Lemma keeps_bind {A B C} (obs : World -> C) (m : M A) (k : A -> M B) :
  keeps obs m -> (forall a, keeps obs (k a)) -> keeps obs (bind m k).
Proof.
  intros Hm Hk w. unfold bind. specialize (Hm w).
  destruct (m w) as [[a | e |] w1]; simpl in *; [| exact Hm | exact Hm].
  rewrite (Hk a w1). exact Hm.
Qed.

Lemma keeps_try_catch {A C} (obs : World -> C) (m : M A) (h : Exn -> M A) :
  keeps obs m -> (forall e, keeps obs (h e)) -> keeps obs (try_catch m h).
Proof.
  intros Hm Hh w. unfold try_catch. specialize (Hm w).
  destruct (m w) as [[a | e |] w1]; simpl in *; [exact Hm | | exact Hm].
  rewrite (Hh e w1). exact Hm.
Qed.

Lemma keeps_when {C} (obs : World -> C) (b : bool) (m : M unit) :
  keeps obs m -> keeps obs (when b m).
Proof. destruct b; [trivial | intros _; apply keeps_ret]. Qed.

Lemma keeps_get_this {C} (obs : World -> C) : keeps obs get_this.
Proof. intros w. reflexivity. Qed.

Lemma keeps_Date_now {C} (obs : World -> C) :
  (forall w n, obs (with_ticks n w) = obs w) -> keeps obs Date_now.
Proof. intros Ho w. apply Ho. Qed.

Lemma keeps_console_error {C} (obs : World -> C) line :
  (forall w l, obs (with_console l w) = obs w) -> keeps obs (console_error line).
Proof. intros Ho w. apply Ho. Qed.

Lemma keeps_sleep {C} (obs : World -> C) ms :
  (forall w l, obs (with_slept l w) = obs w) -> keeps obs (sleep ms).
Proof. intros Ho w. apply Ho. Qed.

Lemma keeps_modify_this {C} (obs : World -> C) f :
  (forall w, obs (with_this (f (this w)) w) = obs w) -> keeps obs (modify_this f).
Proof. intros Ho w. apply Ho. Qed.

(** Walks through a method built from the monad's operations. *)
Ltac keeps_walk :=
  repeat first
    [ progress intros
    | assumption
    | match goal with H : context [keeps] |- _ => apply H end
    | apply keeps_ret
    | apply keeps_throw
    | apply keeps_get_this
    | apply keeps_Date_now; intros; reflexivity
    | apply keeps_console_error; intros; reflexivity
    | apply keeps_sleep; intros; reflexivity
    | apply keeps_modify_this; intros; reflexivity
    | apply keeps_bind
    | apply keeps_try_catch
    | apply keeps_when
    | match goal with
      | |- keeps _ (if ?b then _ else _) => destruct b
      | |- keeps _ (match ?x with _ => _ end) => destruct x
      | |- keeps _ (let '(_, _) := ?p in _) => destruct p
      end ].

Section Keeping.
Context `{Runtime}.

Lemma keeps_exchange {C} (obs : World -> C) options :
  (forall w l, obs (with_sent l w) = obs w) -> keeps obs (exchange options).
Proof. intros Ho w. apply Ho. Qed.

Lemma httpRequest_keeps_cache options : keeps the_cache (httpRequest options).
Proof.
  unfold httpRequest.
  assert (forall o, keeps the_cache (exchange o))
    by (intros o; apply keeps_exchange; reflexivity).
  keeps_walk.
Qed.

Lemma getAuthToken_keeps_cache : keeps the_cache getAuthToken.
Proof. unfold getAuthToken. pose proof httpRequest_keeps_cache. keeps_walk. Qed.

Lemma mapApiError_keeps_cache response : keeps the_cache (mapApiError response).
Proof. unfold mapApiError. keeps_walk. Qed.

Lemma attempt_keeps_cache options : keeps the_cache (attempt options).
Proof.
  unfold attempt.
  pose proof httpRequest_keeps_cache. pose proof getAuthToken_keeps_cache.
  pose proof mapApiError_keeps_cache. keeps_walk.
Qed.

(** No call through [request] reads or writes the response cache. *)
Lemma request_keeps_cache options : keeps the_cache (request options).
Proof.
  intros w.
  remember (Z.to_nat (maxRetries (config (this w))
                      - default 0 (opt_retryCount options))) as n eqn:Hn.
  revert options w Hn. induction n as [| n IH]; intros options w Hn.
  all: rewrite request_unfold; unfold bind.
  all: pose proof (attempt_keeps_cache options w) as Hk.
  all: destruct (safe_attempt options w) as [_ (Hc & _)].
  all: destruct (attempt options w) as [[[d | o'] | e |] w1] eqn:E; simpl in *;
       try exact Hk.
  all: apply attempt_nested in E as [-> Hlt].
  - lia.
  - rewrite IH; [exact Hk |]. rewrite Hc. simpl. lia.
Qed.

Lemma httpRequest_keeps_slept options : keeps slept (httpRequest options).
Proof.
  unfold httpRequest.
  assert (forall o, keeps slept (exchange o))
    by (intros o; apply keeps_exchange; reflexivity).
  keeps_walk.
Qed.

Lemma getAuthToken_keeps_slept : keeps slept getAuthToken.
Proof. unfold getAuthToken. pose proof httpRequest_keeps_slept. keeps_walk. Qed.

Lemma mapApiError_keeps_slept response : keeps slept (mapApiError response).
Proof. unfold mapApiError. keeps_walk. Qed.

End Keeping.

(* ================================================================== *)
(** ** The response cache *)
(* ================================================================== *)

Section Cache.
Context `{Runtime}.

Lemma cache_get_miss key w :
  cache_entries w !! key = None -> cache_get key w = (Ret None, w).
Proof.
  unfold cache_entries. intros Hm.
  unfold cache_get, bind, get_this. simpl. now rewrite Hm.
Qed.

Lemma cache_get_fresh key w data expires :
  cache_entries w !! key = Some (data, expires) ->
  clock w (ticks w) <= expires ->
  cache_get key w = (Ret data, with_ticks (S (ticks w)) w).
Proof.
  unfold cache_entries. intros He Hle.
  unfold cache_get, bind, get_this, Date_now. simpl. rewrite He. simpl.
  destruct (Z.ltb_spec expires (clock w (ticks w))); [lia | reflexivity].
Qed.

Lemma cache_get_expired key w data expires :
  cache_entries w !! key = Some (data, expires) ->
  expires < clock w (ticks w) ->
  cache_get key w
  = (Ret None,
     with_this
       (with_cache {| cache_map := delete key (cache_entries w);
                      ttl := ttl (cache (this w)) |} (this w))
       (with_ticks (S (ticks w)) w)).
Proof.
  unfold cache_entries. intros He Hlt.
  unfold cache_get, bind, get_this, Date_now. simpl. rewrite He. simpl.
  destruct (Z.ltb_spec expires (clock w (ticks w))); [reflexivity | lia].
Qed.

Lemma cache_set_entries key data w :
  cache_entries (snd (cache_set key data w))
  = <[key := (data, clock w (ticks w) + ttl (cache (this w)))]> (cache_entries w).
Proof. reflexivity. Qed.

Lemma cache_set_keeps_other key other data w :
  other <> key ->
  cache_entries (snd (cache_set other data w)) !! key = cache_entries w !! key.
Proof. intros Hne. rewrite cache_set_entries. now apply lookup_insert_ne. Qed.

Lemma cache_get_keeps_other key other w :
  other <> key ->
  cache_entries (snd (cache_get other w)) !! key = cache_entries w !! key.
Proof.
  intros Hne.
  destruct (cache_entries w !! other) as [[data expires] |] eqn:He.
  - destruct (Z.lt_ge_cases expires (clock w (ticks w))) as [Hlt | Hge].
    + rewrite (cache_get_expired other w data expires He Hlt).
      unfold cache_entries. simpl. now apply lookup_delete_ne.
    + rewrite (cache_get_fresh other w data expires He) by lia. reflexivity.
  - now rewrite cache_get_miss.
Qed.

(** X1.  [SimpleCache]: a store puts the value under the key with the
    expiry at the time of the store plus the time to live, and leaves the
    entries under all other keys as they were.  In every state of the
    client in which that entry is in place, a lookup of the key that
    reads a time up to and including the expiry hands the value back and
    changes nothing but the count of clock readings.  Stores and lookups
    under other keys, logins and calls through [request] leave the entry
    in place. *)
Theorem cache_set_then_get
    (key : string) (data : option Json) (w : World) :
  cache_entries (snd (cache_set key data w)) !! key
  = Some (data, clock w (ticks w) + ttl (cache (this w)))
  /\ (forall other : string,
        other <> key ->
        cache_entries (snd (cache_set key data w)) !! other
        = cache_entries w !! other)
  /\ (forall w2 : World,
        cache_entries w2 !! key
        = Some (data, clock w (ticks w) + ttl (cache (this w))) ->
        clock w2 (ticks w2) <= clock w (ticks w) + ttl (cache (this w)) ->
        cache_get key w2 = (Ret data, with_ticks (S (ticks w2)) w2))
  /\ (forall (w2 : World) (other : string) (data' : option Json)
             (options : RequestOptions),
        (other <> key ->
         cache_entries (snd (cache_set other data' w2)) !! key
         = cache_entries w2 !! key
         /\ cache_entries (snd (cache_get other w2)) !! key
            = cache_entries w2 !! key)
        /\ cache_entries (snd (getAuthToken w2)) !! key
           = cache_entries w2 !! key
        /\ cache_entries (snd (request options w2)) !! key
           = cache_entries w2 !! key).
Proof.
  split; [rewrite cache_set_entries; apply lookup_insert_eq |].
  split; [intros other Hne; rewrite cache_set_entries;
          now apply lookup_insert_ne |].
  split.
  - intros w2 He Hle. now apply (cache_get_fresh key w2 data _ He).
  - intros w2 other data' options. split; [| split].
    + intros Hne. split;
        [now apply cache_set_keeps_other | now apply cache_get_keeps_other].
    + pose proof (getAuthToken_keeps_cache w2) as Hk.
      unfold the_cache in Hk. unfold cache_entries. now rewrite Hk.
    + pose proof (request_keeps_cache options w2) as Hk.
      unfold the_cache in Hk. unfold cache_entries. now rewrite Hk.
Qed.

(** X2.  [SimpleCache]: a lookup that reads a time after the store's time
    plus the time to live answers [undefined] and deletes the entry, so
    that the next lookup of the key answers [undefined] without reading
    the clock; entries under other keys stay. *)
Theorem cache_entry_expires
    (key : string) (data : option Json) (w w2 : World) :
  this w2 = this (snd (cache_set key data w)) ->
  clock w (ticks w) + ttl (cache (this w)) < clock w2 (ticks w2) ->
  fst (cache_get key w2) = Ret None
  /\ cache_entries (snd (cache_get key w2)) !! key = None
  /\ cache_get key (snd (cache_get key w2)) = (Ret None, snd (cache_get key w2))
  /\ forall other : string,
       other <> key ->
       cache_entries (snd (cache_get key w2)) !! other = cache_entries w !! other.
Proof.
  intros Hthis Hlt.
  assert (He : cache_entries w2
               = <[key := (data, clock w (ticks w) + ttl (cache (this w)))]>
                   (cache_entries w)).
  { unfold cache_entries at 1. rewrite Hthis. apply cache_set_entries. }
  rewrite (cache_get_expired key w2 data
             (clock w (ticks w) + ttl (cache (this w))));
    [| rewrite He; apply lookup_insert_eq | exact Hlt].
  simpl.
  assert (Hgone : cache_entries
                    (with_this
                       (with_cache {| cache_map := delete key (cache_entries w2);
                                      ttl := ttl (cache (this w2)) |} (this w2))
                       (with_ticks (S (ticks w2)) w2)) !! key = None)
    by (unfold cache_entries at 1; simpl; apply lookup_delete_eq).
  split; [reflexivity |]. split; [exact Hgone |].
  split; [now apply cache_get_miss |].
  intros other Hne. unfold cache_entries at 1. simpl.
  rewrite lookup_delete_ne by congruence.
  rewrite He. now apply lookup_insert_ne.
Qed.

(** An accepted response ends the call at once with its data. *)
Lemma request_accepted options w tok w1 response :
  getAuthToken w = (Ret (Some tok), w1) ->
  http_result (next_event w1) = Ret response ->
  resp_success response = true ->
  request options w
  = (Ret (resp_data response),
     exchanged (wire_request (this w1) tok options) w1).
Proof.
  intros Hg Hres Hok.
  rewrite request_unfold.
  rewrite (bind_Ret _ _ w (inl (resp_data response))
             (exchanged (wire_request (this w1) tok options) w1));
    [reflexivity |].
  rewrite (attempt_run options w tok w1 Hg), Hres.
  unfold attempt_outcome. now rewrite Hok.
Qed.

(** X3.  [listSections] with caching on: a fetch that the backend accepts
    with data [v] (a truthy value, an empty array included) returns [v]
    and stores it; from then on, in any world holding that client state,
    a call that reads a time up to the time of the store plus the time
    to live returns [v] and changes nothing but the count of clock
    readings: no credential is asked for and nothing is sent. *)
Theorem listSections_fetch_then_cached
    (w : World) (tok : string) (w1 : World) (response : ApiResponse) (v : Json) :
  enableCache (config (this w)) = true ->
  cache_entries w !! "sections" = None ->
  getAuthToken w = (Ret (Some tok), w1) ->
  http_result (next_event w1) = Ret response ->
  resp_success response = true ->
  resp_data response = Some v ->
  truthy_json v = true ->
  fst (listSections w) = Ret v
  /\ cache_entries (snd (listSections w)) !! "sections"
     = Some (Some v, clock w1 (ticks w1) + ttl (cache (this w)))
  /\ forall w2 : World,
       this w2 = this (snd (listSections w)) ->
       clock w2 (ticks w2) <= clock w1 (ticks w1) + ttl (cache (this w)) ->
       listSections w2 = (Ret v, with_ticks (S (ticks w2)) w2).
Proof.
  intros Hon Hmiss Hg Hres Hok Hdata Htruthy.
  set (w2' := exchanged
                (wire_request (this w1) tok
                   {| opt_method := GET; opt_path := "/sections/";
                      opt_body := None; opt_retryCount := None |}) w1).
  assert (Hrun : listSections w
                 = (Ret v, snd (cache_set "sections" (Some v) w2'))).
  { unfold listSections.
    rewrite (bind_Ret get_this _ w (this w) w) by reflexivity.
    rewrite Hon.
    rewrite (bind_Ret _ _ w None w).
    2:{ rewrite (bind_Ret _ _ w None w) by (now apply cache_get_miss).
        reflexivity. }
    rewrite (bind_Ret _ _ _ _ _
               (request_accepted _ w tok w1 response Hg Hres Hok)).
    fold w2'. rewrite Hdata. unfold when.
    rewrite (bind_Ret _ _ w2' tt (snd (cache_set "sections" (Some v) w2')))
      by reflexivity.
    unfold or_empty. rewrite Htruthy. reflexivity. }
  pose proof (getAuthToken_keeps_cache w) as Hkc.
  rewrite Hg in Hkc. simpl in Hkc. unfold the_cache in Hkc.
  rewrite Hrun. simpl fst. simpl snd.
  assert (Hentry : cache_entries (snd (cache_set "sections" (Some v) w2'))
                     !! "sections"
                   = Some (Some v, clock w1 (ticks w1) + ttl (cache (this w)))).
  { rewrite cache_set_entries, lookup_insert_eq.
    subst w2'. simpl. now rewrite Hkc. }
  split; [reflexivity |]. split; [exact Hentry |].
  intros w3 Hthis Hle.
  assert (Hon3 : enableCache (config (this w3)) = true).
  { rewrite Hthis. simpl. subst w2'. simpl.
    destruct (safe_getAuthToken w) as [_ (Hc & _)].
    rewrite Hg in Hc. simpl in Hc. now rewrite Hc. }
  unfold listSections.
  rewrite (bind_Ret get_this _ w3 (this w3) w3) by reflexivity.
  rewrite Hon3.
  rewrite (bind_Ret _ _ w3 (Some v) (with_ticks (S (ticks w3)) w3)).
  - reflexivity.
  - rewrite (bind_Ret _ _ w3 (Some v) (with_ticks (S (ticks w3)) w3)).
    + simpl. now rewrite Htruthy.
    + apply (cache_get_fresh "sections" w3 (Some v)
               (clock w1 (ticks w1) + ttl (cache (this w)))); [| exact Hle].
      unfold cache_entries. rewrite Hthis. exact Hentry.
Qed.

End Cache.

(** An empty list stored under [sections] in a client just built, then
    a store under another key and a call through [request] that times
    out: the list is read back afterwards. *)
Lemma cache_set_then_get_witness :
  fst (cache_get "sections"
         (snd (@request sample_runtime write_call
                 (snd (cache_set "subnets:5" (Some JNull)
                         (snd (cache_set "sections" (Some (JArr []))
                                 (world_at 1767225600000
                                    (new_PhpIpamClient caching_config)
                                    (fun _ => NetTimeout)))))))))
  = Ret (Some (JArr [])).
Proof.
  destruct (@cache_set_then_get sample_runtime "sections" (Some (JArr []))
              (world_at 1767225600000 (new_PhpIpamClient caching_config)
                 (fun _ => NetTimeout)))
    as (_ & _ & Hget & _).
  rewrite (Hget (snd (@request sample_runtime write_call
                        (snd (cache_set "subnets:5" (Some JNull)
                                (snd (cache_set "sections" (Some (JArr []))
                                        (world_at 1767225600000
                                           (new_PhpIpamClient caching_config)
                                           (fun _ => NetTimeout)))))))));
    reflexivity || (simpl; lia).
Defined.

(** The same entry read 60001 ms after the store: a miss, and the entry
    is gone. *)
Lemma cache_entry_expires_witness :
  fst (cache_get "sections"
         (world_at (1767225600000 + 60001)
            (this (snd (cache_set "sections" (Some (JArr []))
                          (fresh_world caching_config (fun _ => NetTimeout)))))
            (fun _ => NetTimeout)))
  = Ret None
  /\ cache_entries
       (snd (cache_get "sections"
               (world_at (1767225600000 + 60001)
                  (this (snd (cache_set "sections" (Some (JArr []))
                                (fresh_world caching_config
                                   (fun _ => NetTimeout)))))
                  (fun _ => NetTimeout)))) !! "sections"
     = None.
Proof.
  destruct (cache_entry_expires "sections" (Some (JArr []))
              (fresh_world caching_config (fun _ => NetTimeout))
              (world_at (1767225600000 + 60001)
                 (this (snd (cache_set "sections" (Some (JArr []))
                               (fresh_world caching_config
                                  (fun _ => NetTimeout)))))
                 (fun _ => NetTimeout)))
    as (Hmiss & Hgone & _).
  - reflexivity.
  - simpl. lia.
  - split; [exact Hmiss | exact Hgone].
Defined.

(** A list fetched with caching on is served from the cache thirty
    seconds later, with nothing sent. *)
Lemma listSections_fetch_then_cached_witness :
  fst (@listSections sample_runtime_more
         (fresh_world caching_config (fun _ => NetResponse 200 body_list)))
  = Ret (JArr [JObj [("id", JStr "3"); ("subnet", JStr "10.0.0.0")]])
  /\ sent (snd (@listSections sample_runtime_more
                  (world_at (1767225600000 + 30000)
                     (this (snd (@listSections sample_runtime_more
                                   (fresh_world caching_config
                                      (fun _ => NetResponse 200 body_list)))))
                     (fun _ => NetTimeout))))
     = [].
Proof.
  destruct (@listSections_fetch_then_cached sample_runtime_more
              (fresh_world caching_config (fun _ => NetResponse 200 body_list))
              "t1"
              (fresh_world caching_config (fun _ => NetResponse 200 body_list))
              response_list
              (JArr [JObj [("id", JStr "3"); ("subnet", JStr "10.0.0.0")]])
              eq_refl eq_refl eq_refl eq_refl eq_refl eq_refl eq_refl)
    as (Hfetch & _ & Hlater).
  split; [exact Hfetch |].
  rewrite (Hlater (world_at (1767225600000 + 30000)
                     (this (snd (@listSections sample_runtime_more
                                   (fresh_world caching_config
                                      (fun _ => NetResponse 200 body_list)))))
                     (fun _ => NetTimeout)) eq_refl).
  - reflexivity.
  - simpl. lia.
Defined.


Section CacheAndOperations.
Context `{Runtime}.

Lemma result_id_keeps {C} (obs : World -> C) result : keeps obs (result_id result).
Proof. unfold result_id. keeps_walk. Qed.

Lemma safe_result_id result : safe (result_id result).
Proof. unfold result_id. safe_walk. Qed.

Lemma safe_getSection id : safe (getSection id).
Proof. apply safe_request. Qed.

Lemma safe_createSection data : safe (createSection data).
Proof.
  unfold createSection.
  pose proof safe_request. pose proof safe_result_id. pose proof safe_getSection.
  safe_walk.
Qed.

Lemma cache_get_keeps_cache_when_absent key w :
  cache_entries w !! key = None -> the_cache (snd (cache_get key w)) = the_cache w.
Proof. intros Hm. now rewrite cache_get_miss. Qed.

Lemma createSection_keeps_cache data : keeps the_cache (createSection data).
Proof.
  unfold createSection, getSection.
  pose proof request_keeps_cache.
  pose proof (@result_id_keeps SimpleCache the_cache).
  keeps_walk.
Qed.

(** X4.  The response cache is written by [listSections] and
    [listSubnets] only, and by neither when caching is off: every other
    operation of the client, the write operations included, leaves the
    cache exactly as it was (no write invalidates a cached list). *)
Theorem only_cached_lists_write_cache
    (id : string) (data : JsObject) (w : World) :
  the_cache (snd (getSection id w)) = the_cache w
  /\ the_cache (snd (getSubnet id w)) = the_cache w
  /\ the_cache (snd (getSubnetByCidr id w)) = the_cache w
  /\ the_cache (snd (listAddresses id w)) = the_cache w
  /\ the_cache (snd (getAddress id w)) = the_cache w
  /\ the_cache (snd (getAddressByIp id w)) = the_cache w
  /\ the_cache (snd (search id w)) = the_cache w
  /\ the_cache (snd (searchByHostname id w)) = the_cache w
  /\ the_cache (snd (deleteAddress id w)) = the_cache w
  /\ the_cache (snd (createSection data w)) = the_cache w
  /\ the_cache (snd (createSubnet data w)) = the_cache w
  /\ the_cache (snd (createAddress data w)) = the_cache w
  /\ the_cache (snd (allocateFirstFree id data w)) = the_cache w
  /\ the_cache (snd (updateAddress id data w)) = the_cache w
  /\ (enableCache (config (this w)) = false ->
      the_cache (snd (listSections w)) = the_cache w
      /\ the_cache (snd (listSubnets id w)) = the_cache w).
Proof.
  pose proof request_keeps_cache as Hreq.
  pose proof (@result_id_keeps SimpleCache the_cache) as Hid.
  assert (Hnf : forall (A : Type) (a : A) e, keeps the_cache (on_NOT_FOUND a e))
    by (intros A a e; unfold on_NOT_FOUND; keeps_walk).
  repeat match goal with
         | |- _ /\ _ => split
         end.
  all: try (match goal with
            | |- the_cache (snd (?m ?w0)) = the_cache ?w0 =>
                revert w0;
                change (keeps the_cache m)
            end;
            unfold getSection, getSubnet, getSubnetByCidr, listAddresses,
              getAddress, getAddressByIp, search, searchByHostname,
              deleteAddress, createSection, createSubnet, createAddress,
              allocateFirstFree, updateAddress;
            keeps_walk).
  intros Hoff. split.
  - unfold listSections, bind, get_this. simpl. rewrite Hoff. simpl.
    pose proof (Hreq {| opt_method := GET; opt_path := "/sections/";
                        opt_body := None; opt_retryCount := None |} w) as Hk.
    destruct (request _ w) as [[v | e |] w1]; exact Hk.
  - unfold listSubnets, bind, get_this, try_catch. simpl. rewrite Hoff. simpl.
    pose proof (Hreq {| opt_method := GET;
                        opt_path := "/sections/" +:+ id +:+ "/subnets/";
                        opt_body := None; opt_retryCount := None |} w) as Hk.
    destruct (request _ w) as [[v | e |] w1]; simpl in *; try exact Hk.
    rewrite (Hnf Json (JArr []) e w1). exact Hk.
Qed.

(** X5.  Stale read after a write: with caching on and a list of
    sections in the cache, [createSection] leaves the entry in place, so
    a [listSections] that follows within the entry's lifetime returns the
    list cached before the creation and asks the backend nothing. *)
Theorem stale_sections_after_create
    (data : JsObject) (w : World) (v : Json) (expires : Z) :
  enableCache (config (this w)) = true ->
  cache_entries w !! "sections" = Some (Some v, expires) ->
  truthy_json v = true ->
  clock w (ticks (snd (createSection data w))) <= expires ->
  listSections (snd (createSection data w))
  = (Ret v, with_ticks (S (ticks (snd (createSection data w))))
              (snd (createSection data w))).
Proof.
  intros Hon Hentry Htruthy Hle.
  destruct (safe_createSection data w) as [_ (Hc & _ & Hclock & _)].
  pose proof (createSection_keeps_cache data w) as Hk.
  set (w' := snd (createSection data w)) in *.
  unfold listSections.
  rewrite (bind_Ret get_this _ w' (this w') w') by reflexivity.
  rewrite Hc, Hon.
  rewrite (bind_Ret _ _ w' (Some v) (with_ticks (S (ticks w')) w')).
  - reflexivity.
  - rewrite (bind_Ret _ _ w' (Some v) (with_ticks (S (ticks w')) w')).
    + simpl. now rewrite Htruthy.
    + apply (cache_get_fresh "sections" w' (Some v) expires).
      * unfold cache_entries. unfold the_cache in Hk. rewrite Hk. exact Hentry.
      * rewrite Hclock. exact Hle.
Qed.


End CacheAndOperations.

(** The list cached before a section was created is what [listSections]
    returns after the creation. *)
Lemma stale_sections_after_create_witness :
  fst (@listSections sample_runtime_more
         (snd (@createSection sample_runtime_more [("name", JStr "lab")]
                 (snd (@listSections sample_runtime_more
                         (fresh_world caching_config
                            (fun _ => NetResponse 200 body_list)))))))
  = Ret (JArr [JObj [("id", JStr "3"); ("subnet", JStr "10.0.0.0")]]).
Proof.
  rewrite (@stale_sections_after_create sample_runtime_more
             [("name", JStr "lab")]
             (snd (@listSections sample_runtime_more
                     (fresh_world caching_config
                        (fun _ => NetResponse 200 body_list))))
             (JArr [JObj [("id", JStr "3"); ("subnet", JStr "10.0.0.0")]])
             (1767225600000 + 60000) eq_refl eq_refl eq_refl).
  - reflexivity.
  - vm_compute. discriminate.
Defined.



(* ================================================================== *)
(** ** Lookups by secondary key *)
(* ================================================================== *)

Section SecondaryKey.
Context `{Runtime}.

(** X7.  [getSubnetByCidr] and [getAddressByIp], by the backend's answer
    to the one search they make.  A 404 failure gives [null]; an accepted
    answer gives the first element of its data array, and [null] when
    that array is empty or the data is absent; a failure with any other
    status below 500 is thrown with its classification. *)
Theorem lookup_by_secondary_key
    (key : string) (w : World) (tok : string) (w1 : World)
    (response : ApiResponse) :
  getAuthToken w = (Ret (Some tok), w1) ->
  http_result (next_event w1) = Ret response ->
  (resp_success response = false -> resp_code response = 404 ->
   fst (getSubnetByCidr key w) = Ret None
   /\ fst (getAddressByIp key w) = Ret None)
  /\ (resp_success response = true ->
      forall result : option Json,
        (resp_data response = None /\ result = None
         \/ resp_data response = Some (JArr []) /\ result = None
         \/ exists x rest, resp_data response = Some (JArr (x :: rest))
                           /\ result = Some x) ->
        fst (getSubnetByCidr key w) = Ret result
        /\ fst (getAddressByIp key w) = Ret result)
  /\ (resp_success response = false -> resp_code response < 500 ->
      resp_code response <> 404 ->
      fst (getSubnetByCidr key w) = Throw (PhpIpam (classify response))
      /\ fst (getAddressByIp key w) = Throw (PhpIpam (classify response))).
Proof.
  intros Hg Hres.
  split; [| split].
  - intros Hfail Hcode.
    assert (Hlt : resp_code response < 500) by lia.
    unfold getSubnetByCidr, getAddressByIp.
    rewrite !(try_catch_Throw _ _ _ _ _
                (bind_Throw _ _ _ _ _
                   (request_rejected _ w tok w1 response Hg Hres Hfail Hlt))).
    unfold on_NOT_FOUND, classify; simpl. rewrite Hcode. split; reflexivity.
  - intros Hok result Hshape.
    unfold getSubnetByCidr, getAddressByIp.
    rewrite !(try_catch_Ret _ _ _ _ _
                (bind_Ret _ _ _ _ _
                   (request_accepted _ w tok w1 response Hg Hres Hok))).
    destruct Hshape as [[-> ->] | [[-> ->] | (x & rest & -> & ->)]];
      split; reflexivity.
  - intros Hfail Hlt Hne.
    unfold getSubnetByCidr, getAddressByIp.
    rewrite !(try_catch_Throw _ _ _ _ _
                (bind_Throw _ _ _ _ _
                   (request_rejected _ w tok w1 response Hg Hres Hfail Hlt))).
    unfold on_NOT_FOUND, classify; simpl.
    destruct (Z.eqb_spec (resp_code response) 401); [split; reflexivity |].
    destruct (Z.eqb_spec (resp_code response) 403); [split; reflexivity |].
    destruct (Z.eqb_spec (resp_code response) 404); [contradiction |].
    destruct (Z.eqb_spec (resp_code response) 409); [split; reflexivity |].
    destruct (Z.leb_spec 500 (resp_code response)); [lia | split; reflexivity].
Qed.

End SecondaryKey.

(* ================================================================== *)
(** ** What crypt mode forgets *)
(* ================================================================== *)

Section CryptForgets.
Context `{Runtime}.

Lemma crypt_params_two_segments path1 path2 body :
  take 2 (List.filter truthy_string (split_on "/" path1))
  = take 2 (List.filter truthy_string (split_on "/" path2)) ->
  crypt_params path1 body = crypt_params path2 body.
Proof.
  unfold crypt_params. cbv zeta.
  destruct (List.filter truthy_string (split_on "/" path1)) as [| a1 [| b1 l1]];
    destruct (List.filter truthy_string (split_on "/" path2)) as [| a2 [| b2 l2]];
    simpl; intros Heq; inversion Heq; reflexivity.
Qed.

Lemma request_crypt_ext (m : nat) : forall o1 o2 w key,
  useCrypt (this w) = true ->
  getEffectiveAuthMode (config (this w)) = eff_token ->
  token (config (this w)) = Some key ->
  crypt_params (opt_path o1) (opt_body o1)
  = crypt_params (opt_path o2) (opt_body o2) ->
  default 0 (opt_retryCount o1) = default 0 (opt_retryCount o2) ->
  Z.to_nat (maxRetries (config (this w)) - default 0 (opt_retryCount o1)) = m ->
  request o1 w = request o2 w.
Proof.
  induction m as [| m IH]; intros o1 o2 w key Hcrypt Hmode Hkey Hp Hrc Hm.
  all: assert (Hg : getAuthToken w = (Ret (Some key), w))
         by (rewrite getAuthToken_token_mode, Hkey; auto).
  all: rewrite (request_unfold o1), (request_unfold o2); unfold bind.
  all: pose proof (safe_attempt o1 w) as [_ (Hc & Hu & _)].
  all: pose proof (attempt_nested o1 w) as Hn1.
  all: pose proof (attempt_nested o2 w) as Hn2.
  all: rewrite (attempt_run o1 w key w Hg) in *.
  all: rewrite (attempt_run o2 w key w Hg) in *.
  all: assert (Hw : wire_request (this w) key o1 = wire_request (this w) key o2)
         by (unfold wire_request; rewrite Hcrypt, Hp; reflexivity).
  all: rewrite Hw in *.
  all: unfold attempt_outcome, retry_or_throw in *; rewrite <- Hrc in *.
  all: destruct (http_result (next_event w)) as [resp | [e | nm msg] |];
       try reflexivity.
  all: try (destruct (resp_success resp); [reflexivity |]).
  all: match goal with
       | |- context [retryable ?e && ?c] => destruct (retryable e && c) eqn:Hretry
       end; try reflexivity.
  all: match goal with
       | H : forall o' w', (Ret (inr ?o), ?wx) = _ -> _ |- _ =>
           destruct (H o wx eq_refl) as [_ Hlt]
       end.
  all: simpl in Hc, Hu.
  all: try lia.
  all: apply (IH _ _ _ key); simpl; rewrite ?Hu, ?Hc; try assumption;
       try congruence; lia.
Qed.

(** X8.  Crypt mode (token authentication) forgets the HTTP method and
    every path segment after the second: two calls whose paths agree on
    their first two non-empty segments and whose bodies are the same end
    with the same result in the same world, so the same requests went
    over the wire. *)
Theorem crypt_mode_forgets_method_and_tail
    (o1 o2 : RequestOptions) (w : World) (key : string) :
  useCrypt (this w) = true ->
  getEffectiveAuthMode (config (this w)) = eff_token ->
  token (config (this w)) = Some key ->
  take 2 (List.filter truthy_string (split_on "/" (opt_path o1)))
  = take 2 (List.filter truthy_string (split_on "/" (opt_path o2))) ->
  opt_body o1 = opt_body o2 ->
  opt_retryCount o1 = opt_retryCount o2 ->
  request o1 w = request o2 w.
Proof.
  intros Hcrypt Hmode Hkey Hsegs Hbody Hrc.
  eapply request_crypt_ext; eauto.
  - rewrite Hbody. now apply crypt_params_two_segments.
  - now rewrite Hrc.
Qed.

Lemma string_of_list_ascii_length l :
  String.length (string_of_list_ascii l) = length l.
Proof. induction l as [| c l IH]; simpl; congruence. Qed.

(** X9.  The cipher key is always 32 bytes: a shorter token is padded
    with zero bytes and a longer one is cut, so two tokens that agree on
    their first 32 bytes encrypt every request alike. *)
Theorem keyBuffer_32_bytes (key1 key2 : string) :
  String.length (keyBuffer key1) = 32%nat
  /\ ((String.length key1 <= 32)%nat ->
      keyBuffer key1
      = key1 +:+ string_of_list_ascii
                   (replicate (32 - String.length key1) Ascii.zero))
  /\ (take 32 (list_ascii_of_string key1) = take 32 (list_ascii_of_string key2) ->
      keyBuffer key1 = keyBuffer key2
      /\ forall data, encryptRequest data key1 = encryptRequest data key2).
Proof.
  assert (Hlen : forall s, String.length s = length (list_ascii_of_string s)).
  { induction s as [| c s IH]; simpl; congruence. }
  assert (Happ : forall a b, string_of_list_ascii (a ++ b)
                 = string_of_list_ascii a +:+ string_of_list_ascii b).
  { induction a as [| x a IHa]; intros b; simpl; [reflexivity |].
    now rewrite IHa. }
  unfold keyBuffer. split; [| split].
  - rewrite string_of_list_ascii_length, length_take, length_app,
      length_replicate. lia.
  - intros Hle. rewrite Hlen in Hle. rewrite take_app.
    rewrite (take_ge (list_ascii_of_string key1)) by exact Hle.
    rewrite take_replicate, Happ, string_of_list_ascii_of_string.
    rewrite Hlen. do 3 f_equal. lia.
  - intros Heq.
    assert (Hk : take 32 (list_ascii_of_string key1 ++ replicate 32 Ascii.zero)
                 = take 32 (list_ascii_of_string key2 ++ replicate 32 Ascii.zero)).
    { rewrite !take_app, Heq. f_equal.
      assert (Hl : length (take 32 (list_ascii_of_string key1))
                   = length (take 32 (list_ascii_of_string key2)))
        by now rewrite Heq.
      rewrite !length_take in Hl. rewrite !take_replicate. f_equal. lia. }
    split; [now rewrite Hk |].
    intros data. unfold encryptRequest, keyBuffer. now rewrite Hk.
Qed.

End CryptForgets.

(** A search by CIDR that finds one subnet, and a search by IP that
    finds none. *)
Lemma lookup_by_secondary_key_witness :
  fst (@getSubnetByCidr sample_runtime_more "10.0.0.0/24"
         (fresh_world token_config (fun _ => NetResponse 200 body_list)))
  = Ret (Some (JObj [("id", JStr "3"); ("subnet", JStr "10.0.0.0")]))
  /\ fst (@getAddressByIp sample_runtime_more "10.0.0.7"
            (fresh_world token_config (fun _ => NetResponse 200 body_empty_list)))
     = Ret None.
Proof.
  split.
  - destruct (@lookup_by_secondary_key sample_runtime_more "10.0.0.0/24"
                (fresh_world token_config (fun _ => NetResponse 200 body_list))
                "t1"
                (fresh_world token_config (fun _ => NetResponse 200 body_list))
                response_list eq_refl eq_refl)
      as (_ & Hfound & _).
    apply (Hfound eq_refl). right. right. eexists. eexists.
    split; reflexivity.
  - destruct (@lookup_by_secondary_key sample_runtime_more "10.0.0.7"
                (fresh_world token_config
                   (fun _ => NetResponse 200 body_empty_list))
                "t1"
                (fresh_world token_config
                   (fun _ => NetResponse 200 body_empty_list))
                response_empty_list eq_refl eq_refl)
      as (_ & Hfound & _).
    apply (Hfound eq_refl). right. left. split; reflexivity.
Defined.

(** In crypt mode a DELETE of an address and a GET of its ping run the
    same way. *)
Lemma crypt_mode_forgets_method_and_tail_witness :
  @request sample_runtime
    {| opt_method := DELETE; opt_path := "/addresses/7/";
       opt_body := None; opt_retryCount := None |}
    (fresh_world token_config (fun _ => NetResponse 404 body_404))
  = @request sample_runtime
      {| opt_method := GET; opt_path := "/addresses/7/ping/";
         opt_body := None; opt_retryCount := None |}
      (fresh_world token_config (fun _ => NetResponse 404 body_404)).
Proof.
  apply (@crypt_mode_forgets_method_and_tail sample_runtime _ _ _ "t1");
    reflexivity.
Defined.


(* ================================================================== *)
(** ** How a call through [request] can end *)
(* ================================================================== *)

Section Outcomes.
Context `{Runtime}.

Lemma http_result_outcome ev :
  (exists response, http_result ev = Ret response)
  \/ (exists e, http_result ev = Throw (PhpIpam e)
                /\ code e = RETRYABLE /\ retryable e = true).
Proof.
  destruct ev as [status data | msg |]; simpl;
    [left | right | right]; eexists; repeat split.
Qed.

(** The two ways a login ends. *)
Lemma login_cases w :
  getEffectiveAuthMode (config (this w)) = eff_password ->
  needs_login w ->
  (exists tok response,
     http_result (next_event w) = Ret response
     /\ resp_success response = true
     /\ authData_token (resp_data response) = Some tok
     /\ truthy_string tok = true
     /\ getAuthToken w
        = (Ret (Some tok),
           logged_in (Some tok)
             (exchanged (login_options (config (this w))) (before_login w))))
  \/ (exists e,
        getAuthToken w
        = (Throw (PhpIpam e),
           exchanged (login_options (config (this w))) (before_login w))
        /\ ((exists response,
               http_result (next_event w) = Ret response
               /\ e = auth_failed response)
            \/ (http_result (next_event w) = Throw (PhpIpam e)
                /\ code e = RETRYABLE /\ retryable e = true))).
Proof.
  intros Hmode Hn. rewrite getAuthToken_login by assumption. cbv zeta.
  destruct (http_result_outcome (next_event w))
    as [[response Hres] | (e & Hres & Hc & Hr)]; rewrite Hres.
  - destruct (resp_success response) eqn:Hok; simpl.
    + destruct (authData_token (resp_data response)) as [tok |] eqn:Htok; simpl.
      * destruct (truthy_string tok) eqn:Ht; simpl.
        -- left. exists tok, response. repeat split; auto.
        -- right. exists (auth_failed response). split; [reflexivity |].
           left. exists response. split; reflexivity.
      * right. exists (auth_failed response). split; [reflexivity |].
        left. exists response. split; reflexivity.
    + right. exists (auth_failed response). split; [reflexivity |].
      left. exists response. split; reflexivity.
  - right. exists e. split; [reflexivity |]. right. repeat split; auto.
Qed.

(** How [getAuthToken] ends: with a token, or with a [PhpIpamError]
    after a login. *)
Lemma getAuthToken_cases w :
  (getEffectiveAuthMode (config (this w)) = eff_token
   /\ getAuthToken w = (Ret (token (config (this w))), w))
  \/ (exists tok, getAuthToken w = (Ret (Some tok), with_ticks (S (ticks w)) w))
  \/ (exists tok,
        getAuthToken w
        = (Ret (Some tok),
           logged_in (Some tok)
             (exchanged (login_options (config (this w))) (before_login w))))
  \/ (exists e,
        getAuthToken w
        = (Throw (PhpIpam e),
           exchanged (login_options (config (this w))) (before_login w))).
Proof.
  destruct (getEffectiveAuthMode (config (this w))) eqn:Hmode.
  - left. split; [reflexivity |]. now apply getAuthToken_token_mode.
  - right.
    assert (Hlogin : needs_login w ->
              (exists tok,
                 getAuthToken w
                 = (Ret (Some tok),
                    logged_in (Some tok)
                      (exchanged (login_options (config (this w)))
                         (before_login w))))
              \/ (exists e,
                    getAuthToken w
                    = (Throw (PhpIpam e),
                       exchanged (login_options (config (this w)))
                         (before_login w)))).
    { intros Hn.
      destruct (login_cases w Hmode Hn)
        as [(tok & response & _ & _ & _ & _ & Hrun) | (e & Hrun & _)];
        [left; exists tok | right; exists e]; exact Hrun. }
    destruct (authToken (this w)) as [tok |] eqn:Ha.
    + destruct (truthy_string tok) eqn:Ht.
      * destruct (Z.lt_ge_cases (clock w (ticks w)) (tokenExpires (this w)))
          as [Hlt | Hge].
        -- left. exists tok.
           rewrite getAuthToken_cached; rewrite ?Ha; auto.
        -- right. apply Hlogin. right. exact Hge.
      * right. apply Hlogin. left. rewrite Ha. exact Ht.
    + right. apply Hlogin. left. rewrite Ha. reflexivity.
Qed.

Lemma attempt_client_outcome options w :
  (getEffectiveAuthMode (config (this w)) = eff_token ->
   is_Some (token (config (this w)))) ->
  client_outcome (fst (attempt options w)).
Proof.
  intros Htok.
  assert (Hout : forall tok w1, getAuthToken w = (Ret (Some tok), w1) ->
                   client_outcome (fst (attempt options w))).
  { intros tok w1 Hg. rewrite (attempt_run options w tok w1 Hg).
    unfold attempt_outcome, retry_or_throw.
    destruct (http_result_outcome (next_event w1))
      as [[response Hres] | (e & Hres & _)]; rewrite Hres.
    - destruct (resp_success response); [exact I |].
      destruct (retryable _ && _); exact I.
    - destruct (retryable _ && _); exact I. }
  destruct (getAuthToken_cases w)
    as [[Hmode Hg] | [[tok Hg] | [[tok Hg] | [e Hg]]]];
    try (eapply Hout; exact Hg).
  - destruct (Htok Hmode) as [tok Ht]. rewrite Ht in Hg.
    eapply Hout; exact Hg.
  - unfold attempt. rewrite (bind_Throw _ _ _ _ _ Hg). exact I.
Qed.

Lemma request_client_outcome options : forall n w,
  n = Z.to_nat (maxRetries (config (this w))
                - default 0 (opt_retryCount options)) ->
  (getEffectiveAuthMode (config (this w)) = eff_token ->
   is_Some (token (config (this w)))) ->
  client_outcome (fst (request options w)).
Proof.
  intros n. revert options. induction n as [| n IH]; intros options w Hn Htok.
  all: rewrite request_unfold; unfold bind.
  all: pose proof (attempt_client_outcome options w Htok) as Hout.
  all: destruct (safe_attempt options w) as [_ (Hc & _)].
  all: destruct (attempt options w) as [[[d | o'] | e |] w1] eqn:E; simpl in *;
       try exact Hout; try exact I.
  all: apply attempt_nested in E as [-> Hlt].
  - lia.
  - apply IH; rewrite Hc; [simpl; lia | exact Htok].
Qed.

(** X10.  With a credential at hand (the static token, or a cached
    session token that stays valid), a call through [request] always
    ends, and it ends by returning or by throwing a [PhpIpamError]:
    whatever the network answers, no other kind of error leaves
    [request].  (What a login throws is outside this statement: the
    credential is obtained before the [try].) *)
Theorem request_throws_client_errors_only
    (options : RequestOptions) (w : World) :
  credential_ready w ->
  client_outcome (fst (request options w)).
Proof.
  intros Hr. apply (request_client_outcome options _ w eq_refl).
  intros Hmode. unfold credential_ready in Hr. now rewrite Hmode in Hr.
Qed.

End Outcomes.

(** A write with a cached session token against a gateway that answers
    with a page of HTML every time. *)
Lemma request_throws_client_errors_only_witness :
  client_outcome
    (fst (@request sample_runtime write_call
            (session_world (fun _ => NetResponse 502 body_html)))).
Proof.
  apply (@request_throws_client_errors_only sample_runtime).
  split; [reflexivity |]. intros k _. simpl. lia.
Defined.


(* ================================================================== *)
(** ** What a call through [request] costs at most *)
(* ================================================================== *)

Section Bounds.
Context `{Runtime}.

Lemma before_login_effects w :
  slept (before_login w) = slept w /\ sent (before_login w) = sent w
  /\ this (before_login w) = this w.
Proof.
  unfold before_login. destruct (truthy_ostring _); repeat split.
Qed.

Lemma getAuthToken_effects w :
  slept (snd (getAuthToken w)) = slept w
  /\ (length (sent w) <= length (sent (snd (getAuthToken w)))
      <= length (sent w) + 1)%nat.
Proof.
  destruct (before_login_effects w) as (Hsl & Hse & _).
  destruct (getAuthToken_cases w)
    as [[_ Hg] | [[tok Hg] | [[tok Hg] | [e Hg]]]]; rewrite Hg; simpl;
    rewrite ?length_app, ?Hsl, ?Hse; simpl; split; try reflexivity; lia.
Qed.

(** One run of the body of [request]: at least one exchange and at most
    two; a delay exactly when a nested call takes over. *)
Lemma attempt_effects options w :
  (getEffectiveAuthMode (config (this w)) = eff_token ->
   is_Some (token (config (this w)))) ->
  (length (sent w) + 1 <= length (sent (snd (attempt options w)))
   <= length (sent w) + 2)%nat
  /\ ((slept (snd (attempt options w)) = slept w
       /\ forall o, fst (attempt options w) <> Ret (inr o))
      \/ (fst (attempt options w)
          = Ret (inr (with_retryCount (default 0 (opt_retryCount options) + 1)
                        options))
          /\ slept (snd (attempt options w))
             = slept w ++ [retryDelay (config (this w))
                           * 2 ^ default 0 (opt_retryCount options)])).
Proof.
  intros Htok.
  destruct (getAuthToken_effects w) as (Hsl & Hse).
  destruct (safe_getAuthToken w) as [_ (Hcfg & _)].
  assert (Hout : forall tok w1, getAuthToken w = (Ret (Some tok), w1) ->
            (length (sent w) + 1 <= length (sent (snd (attempt options w)))
             <= length (sent w) + 2)%nat
            /\ ((slept (snd (attempt options w)) = slept w
                 /\ forall o, fst (attempt options w) <> Ret (inr o))
                \/ (fst (attempt options w)
                    = Ret (inr (with_retryCount
                                  (default 0 (opt_retryCount options) + 1)
                                  options))
                    /\ slept (snd (attempt options w))
                       = slept w ++ [retryDelay (config (this w))
                                     * 2 ^ default 0 (opt_retryCount options)]))).
  { intros tok w1 Hg. rewrite Hg in Hsl, Hse, Hcfg. simpl in Hsl, Hse, Hcfg.
    rewrite (attempt_run options w tok w1 Hg).
    unfold attempt_outcome, retry_or_throw, invalidate_on_401.
    destruct (http_result_outcome (next_event w1))
      as [[response Hres] | (e & Hres & _)]; rewrite Hres.
    - destruct (resp_success response).
      + simpl. rewrite length_app. simpl.
        split; [lia |]. left. split; [exact Hsl | discriminate].
      + destruct (resp_code response =? 401);
          destruct (retryable _ && _); simpl; rewrite ?length_app, ?Hcfg;
          simpl; (split; [lia |]);
          first [ left; split; [exact Hsl | discriminate]
                | right; split; [reflexivity | now rewrite Hsl] ].
    - destruct (retryable _ && _); simpl; rewrite ?length_app, ?Hcfg;
        simpl; (split; [lia |]);
        first [ left; split; [exact Hsl | discriminate]
              | right; split; [reflexivity | now rewrite Hsl] ]. }
  destruct (getAuthToken_cases w)
    as [[Hmode Hg] | [[tok Hg] | [[tok Hg] | [e Hg]]]];
    try (eapply Hout; exact Hg).
  - destruct (Htok Hmode) as [tok Ht]. rewrite Ht in Hg.
    eapply Hout; exact Hg.
  - rewrite Hg in Hsl, Hse. simpl in Hsl, Hse.
    destruct (before_login_effects w) as (_ & Hbs & _).
    unfold attempt. rewrite (bind_Throw _ _ _ _ _ Hg). simpl.
    rewrite length_app, Hbs. simpl.
    split; [lia |]. left. split; [| discriminate].
    rewrite <- Hsl. reflexivity.
Qed.

Lemma request_cost_from options :
  forall n w,
  n = Z.to_nat (maxRetries (config (this w))
                - default 0 (opt_retryCount options)) ->
  (getEffectiveAuthMode (config (this w)) = eff_token ->
   is_Some (token (config (this w)))) ->
  exists j : nat,
    (j <= n)%nat
    /\ slept (snd (request options w))
       = slept w
         ++ map (fun i => retryDelay (config (this w))
                          * 2 ^ (default 0 (opt_retryCount options) + Z.of_nat i))
              (seq 0 j)
    /\ (length (sent w) + (j + 1) <= length (sent (snd (request options w)))
        <= length (sent w) + 2 * (j + 1))%nat.
Proof.
  intros n. revert options. induction n as [| n IH]; intros options w Hn Htok.
  all: destruct (attempt_effects options w Htok) as (Hse & Hsl).
  all: destruct (safe_attempt options w) as [Hd (Hc & _)].
  all: rewrite request_unfold; unfold bind.
  all: destruct (attempt options w) as [[[d | o'] | e |] w1] eqn:E;
       simpl in Hse, Hsl, Hd, Hc; try congruence.
  all: try (exists 0%nat; simpl;
            destruct Hsl as [[Hsl _] | [Hsl _]]; [| discriminate];
            rewrite Hsl, app_nil_r; split; [lia |]; split; [reflexivity | lia]).
  all: destruct Hsl as [[_ Hsl] | [_ Hsl]]; [now destruct (Hsl o') |].
  all: apply attempt_nested in E as [-> Hlt].
  - lia.
  - destruct (IH (with_retryCount (default 0 (opt_retryCount options) + 1) options)
                w1) as (j & Hj & Hsj & Hej).
    + rewrite Hc. simpl. lia.
    + rewrite Hc. exact Htok.
    + exists (S j). split; [lia |]. split.
      * rewrite Hsj, Hsl, Hc, <- app_assoc. f_equal.
        change (seq 0 (S j)) with (0%nat :: seq 1 j).
        rewrite <- seq_shift. cbn [map app]. rewrite map_map, Z.add_0_r.
        f_equal. apply map_ext. intros i. simpl default. f_equal. f_equal. lia.
      * lia.
Qed.

(** X11.  A call made by one of the public methods (no [retryCount] in
    its options) under a configuration that holds a token whenever its
    effective mode is [token], whatever the network answers and whatever
    the state of the session: it sleeps some [j] delays, [j] at most
    [maxRetries], and these are [retryDelay * 2^0, ...,
    retryDelay * 2^(j-1)] in this order; it makes at least [j + 1]
    exchanges (one before every delay, and a last one) and at most
    [2 * (j + 1)] (a login beside each). *)
Theorem request_cost_is_bounded (options : RequestOptions) (w : World) :
  opt_retryCount options = None ->
  (getEffectiveAuthMode (config (this w)) = eff_token ->
   is_Some (token (config (this w)))) ->
  exists j : nat,
    (j <= Z.to_nat (maxRetries (config (this w))))%nat
    /\ slept (snd (request options w)) = slept w ++ backoff (config (this w)) j
    /\ (length (sent w) + (j + 1) <= length (sent (snd (request options w)))
        <= length (sent w) + 2 * (j + 1))%nat.
Proof.
  intros Hfresh Htok.
  destruct (request_cost_from options _ w eq_refl Htok) as (j & Hj & Hsl & Hse).
  rewrite Hfresh in Hj, Hsl. simpl in Hj, Hsl. rewrite Z.sub_0_r in Hj.
  exists j. split; [exact Hj |]. split; [exact Hsl | exact Hse].
Qed.

End Bounds.

(** A connection that is reset every time, with a session token at
    hand. *)
Lemma request_cost_is_bounded_witness :
  exists j : nat,
    (j <= 3)%nat
    /\ slept (snd (@request sample_runtime write_call
                     (session_world (fun _ => NetError "ECONNRESET"))))
       = backoff password_config j
    /\ (j + 1 <= length (sent (snd (@request sample_runtime write_call
                                     (session_world
                                        (fun _ => NetError "ECONNRESET")))))
        <= 2 * (j + 1))%nat.
Proof.
  apply (@request_cost_is_bounded sample_runtime write_call
           (session_world (fun _ => NetError "ECONNRESET")) eq_refl).
  discriminate.
Defined.


(* ================================================================== *)
(** ** A login that is answered but not accepted; bodies and statuses *)
(* ================================================================== *)

Section Answers.
Context `{Runtime}.

(** A login answer without a truthy token has no token for the model
    either. *)
Lemma falsy_data_token data :
  truthy_ojson (data_token data) = false ->
  truthy_ostring (authData_token data) = false.
Proof.
  unfold data_token, authData_token.
  destruct data as [[| b | n | t | items | fields] |]; try reflexivity.
  destruct (obj_get "token" fields) as [[| b | n | t | items | fs] |];
    try reflexivity.
  intros Ht. exact Ht.
Qed.

(** X12.  Password mode with no usable session token.  When the login
    exchange is answered and the answer is not an accepted login
    ([success] false, or under [token] in the data nothing or a falsy
    value: [null], [false], [0], the empty string), the call through
    [request] throws an AUTH error that is not retryable and carries the
    code of the answer, whatever that code is (a 503 included); the login
    is the only exchange, the call itself is never sent, nothing is
    slept, and the session state stays as it was. *)
Theorem rejected_login_is_auth_error
    (options : RequestOptions) (w : World) (response : ApiResponse) :
  getEffectiveAuthMode (config (this w)) = eff_password ->
  needs_login w ->
  http_result (next_event w) = Ret response ->
  resp_success response = false
  \/ truthy_ojson (data_token (resp_data response)) = false ->
  exists w',
    request options w = (Throw (PhpIpam (auth_failed response)), w')
    /\ code (auth_failed response) = AUTH
    /\ retryable (auth_failed response) = false
    /\ statusCode (auth_failed response) = Some (resp_code response)
    /\ sent w' = sent w ++ [login_options (config (this w))]
    /\ slept w' = slept w
    /\ this w' = this w.
Proof.
  intros Hmode Hn Hres Hrej.
  destruct (before_login_effects w) as (Hsl & Hse & Hth).
  exists (exchanged (login_options (config (this w))) (before_login w)).
  split.
  - rewrite request_unfold. apply bind_Throw.
    unfold attempt. apply bind_Throw.
    rewrite getAuthToken_login by assumption. cbv zeta. rewrite Hres.
    destruct Hrej as [-> | Hfalsy]; [reflexivity |].
    rewrite (falsy_data_token _ Hfalsy), orb_true_r. reflexivity.
  - simpl. rewrite Hsl, Hse, Hth. repeat split.
Qed.

Lemma credential_ready_attempt w :
  credential_ready w ->
  exists tok w1,
    getAuthToken w = (Ret (Some tok), w1)
    /\ next_event w1 = next_event w
    /\ this w1 = this w /\ sent w1 = sent w /\ slept w1 = slept w.
Proof.
  intros Hr.
  destruct (credential_ready_run w Hr)
    as (tok & w1 & Hg & Hthis & Hsent & Hslept & _ & _ & Hnet & _).
  exists tok, w1. unfold next_event. rewrite Hnet, Hsent. repeat split; assumption.
Qed.

(** X13.  With a credential at hand, an answer whose body parses is
    judged by the body alone: when the body says [success], the call
    returns its data, and when it says failure with a code below 500, the
    call throws the error made from that code; the status line of the
    answer plays no part, and one exchange is made either way. *)
Theorem parsed_body_decides_not_status
    (options : RequestOptions) (w : World)
    (status : Z) (data : string) (parsed : ApiResponse) :
  credential_ready w ->
  next_event w = NetResponse status data ->
  JSON_parse data = Some parsed ->
  (resp_success parsed = true ->
   fst (request options w) = Ret (resp_data parsed))
  /\ (resp_success parsed = false -> resp_code parsed < 500 ->
      fst (request options w) = Throw (PhpIpam (classify parsed))
      /\ statusCode (classify parsed) = Some (resp_code parsed))
  /\ (resp_success parsed = true \/ resp_code parsed < 500 ->
      length (sent (snd (request options w))) = S (length (sent w))
      /\ slept (snd (request options w)) = slept w).
Proof.
  intros Hr Hev Hp.
  destruct (credential_ready_attempt w Hr)
    as (tok & w1 & Hg & Hnext & Hthis & Hsent & Hslept).
  assert (Hres : http_result (next_event w1) = Ret parsed).
  { rewrite Hnext, Hev. simpl. now rewrite Hp. }
  split; [| split].
  - intros Hok.
    now rewrite (request_accepted options w tok w1 parsed Hg Hres Hok).
  - intros Hfail Hcode.
    rewrite (request_rejected options w tok w1 parsed Hg Hres Hfail Hcode).
    split; reflexivity.
  - intros Hcase.
    destruct (resp_success parsed) eqn:Hok.
    + rewrite (request_accepted options w tok w1 parsed Hg Hres Hok). simpl.
      rewrite length_app, Hsent, Hslept. simpl. split; [lia | reflexivity].
    + destruct Hcase as [Hcase | Hcode]; [discriminate |].
      rewrite (request_rejected options w tok w1 parsed Hg Hres Hok Hcode).
      unfold invalidate_on_401.
      destruct (resp_code parsed =? 401); simpl;
        rewrite length_app, Hsent, Hslept; simpl; (split; [lia | reflexivity]).
Qed.






End Answers.

(** A login answered with a 500, and a login answered with success and
    the number 0 for a token: an AUTH error after the one login
    exchange. *)
Lemma rejected_login_is_auth_error_witness :
  (exists w',
     @request sample_runtime write_call
       (fresh_world password_config (fun _ => NetResponse 500 body_500))
     = (Throw (PhpIpam (auth_failed
                          {| resp_code := 500; resp_success := false;
                             resp_data := None; resp_message := None |})), w')
     /\ sent w' = [login_options password_config]
     /\ slept w' = [])
  /\ (exists w',
        @request sample_runtime_more write_call
          (fresh_world password_config (fun _ => NetResponse 200 body_no_token))
        = (Throw (PhpIpam (auth_failed response_no_token)), w')
        /\ sent w' = [login_options password_config]).
Proof.
  split.
  - destruct (@rejected_login_is_auth_error sample_runtime write_call
                (fresh_world password_config (fun _ => NetResponse 500 body_500))
                {| resp_code := 500; resp_success := false;
                   resp_data := None; resp_message := None |}
                eq_refl (or_introl eq_refl) eq_refl (or_introl eq_refl))
      as (w' & Hrun & _ & _ & _ & Hsent & Hslept & _).
    exists w'. split; [exact Hrun |]. split; [exact Hsent | exact Hslept].
  - destruct (@rejected_login_is_auth_error sample_runtime_more write_call
                (fresh_world password_config
                   (fun _ => NetResponse 200 body_no_token))
                response_no_token
                eq_refl (or_introl eq_refl) eq_refl (or_intror eq_refl))
      as (w' & Hrun & _ & _ & _ & Hsent & _).
    exists w'. split; [exact Hrun | exact Hsent].
Defined.

(** A status line of 500 over a body that reports success: the data is
    returned. *)
Lemma parsed_body_decides_not_status_witness :
  fst (@request sample_runtime_more
         {| opt_method := GET; opt_path := "/subnets/";
            opt_body := None; opt_retryCount := None |}
         (fresh_world token_config (fun _ => NetResponse 500 body_list)))
  = Ret (Some (JArr [JObj [("id", JStr "3"); ("subnet", JStr "10.0.0.0")]])).
Proof.
  destruct (@parsed_body_decides_not_status sample_runtime_more
              {| opt_method := GET; opt_path := "/subnets/";
                 opt_body := None; opt_retryCount := None |}
              (fresh_world token_config (fun _ => NetResponse 500 body_list))
              500 body_list response_list)
    as (Haccepted & _).
  - exists "t1". reflexivity.
  - reflexivity.
  - reflexivity.
  - apply Haccepted. reflexivity.
Defined.



(* ================================================================== *)
(** ** Retries, however the credential is obtained *)
(* ================================================================== *)

Section RetryEveryCall.
Context `{Runtime}.

Lemma is_login_wire_request c tok options :
  is_login (wire_request c tok options) = false.
Proof. unfold wire_request. destruct (useCrypt c); reflexivity. Qed.

(** [getAuthToken] puts at most the login on the wire. *)
Lemma getAuthToken_sent w :
  sent (snd (getAuthToken w)) = sent w
  \/ sent (snd (getAuthToken w)) = sent w ++ [login_options (config (this w))].
Proof.
  destruct (before_login_effects w) as (_ & Hse & _).
  destruct (getAuthToken_cases w)
    as [[_ Hg] | [[tok Hg] | [[tok Hg] | [e Hg]]]]; rewrite Hg; simpl;
    rewrite ?Hse; auto.
Qed.

Lemma calls_made_app w l :
  calls_made (with_sent (sent w ++ l) w)
  = (calls_made w + length (List.filter (fun o => negb (is_login o)) l))%nat.
Proof. unfold calls_made. simpl. now rewrite List.filter_app, length_app. Qed.

(** One attempt that meets a retryable outcome: the call is made once,
    beside a login at most, and the attempt ends with the retry below
    the bound and with the RETRYABLE error at the bound. *)
Lemma retryable_attempt options w :
  meets_retryable w ->
  exists e w2,
    code e = RETRYABLE /\ retryable e = true
    /\ config (this w2) = config (this w)
    /\ slept w2 = slept w
    /\ calls_made w2 = S (calls_made w)
    /\ (length (sent w) + 1 <= length (sent w2) <= length (sent w) + 2)%nat
    /\ attempt options w
       = if default 0 (opt_retryCount options) <? maxRetries (config (this w))
         then (Ret (inr (with_retryCount (default 0 (opt_retryCount options) + 1)
                           options)),
               with_slept
                 (slept w2 ++ [retryDelay (config (this w))
                               * 2 ^ default 0 (opt_retryCount options)]) w2)
         else (Throw (PhpIpam e), w2).
Proof.
  intros (tok & w1 & Hg & Hev).
  destruct (attempt_on_retryable options w tok w1 Hg Hev)
    as (e & w2 & Hatt & Hcode & Hrt & Hthis & Hsent & Hslept & _).
  destruct (safe_getAuthToken w) as [_ (Hcfg & _)].
  pose proof (getAuthToken_keeps_slept w) as Hks.
  pose proof (getAuthToken_sent w) as Hgs.
  rewrite Hg in Hcfg, Hks, Hgs. simpl in Hcfg, Hks, Hgs.
  exists e, w2. split; [exact Hcode |]. split; [exact Hrt |].
  split; [now rewrite Hthis |]. split; [congruence |].
  split; [| split].
  - unfold calls_made. rewrite Hsent, List.filter_app, length_app. simpl.
    rewrite is_login_wire_request. simpl.
    destruct Hgs as [-> | ->]; [lia |].
    rewrite List.filter_app, length_app. simpl. lia.
  - rewrite Hsent, length_app. simpl.
    destruct Hgs as [-> | ->]; rewrite ?length_app; simpl; lia.
  - rewrite Hatt. unfold retry_or_throw. rewrite Hrt, Hcfg. simpl.
    reflexivity.
Qed.

(** The retries of a call whose first [k] attempts meet retryable
    outcomes. *)
Lemma request_goes_on k : forall options w,
  (k <= Z.to_nat (maxRetries (config (this w))
                   - default 0 (opt_retryCount options))%Z)%nat ->
  retryable_attempts k options w ->
  exists w_k,
    request options w
    = request (with_retryCount (default 0 (opt_retryCount options) + Z.of_nat k)
                 options) w_k
    /\ config (this w_k) = config (this w)
    /\ slept w_k
       = slept w ++ map (fun i => retryDelay (config (this w))
                                  * 2 ^ (default 0 (opt_retryCount options)
                                         + Z.of_nat i)) (seq 0 k)
    /\ calls_made w_k = (calls_made w + k)%nat
    /\ (length (sent w) + k <= length (sent w_k) <= length (sent w) + 2 * k)%nat.
Proof.
  induction k as [| k IH]; intros options w Hk Hall.
  - exists w. rewrite Z.add_0_r, request_retryCount_default. simpl.
    rewrite app_nil_r. repeat split; lia.
  - destruct Hall as [Hfirst Hrest].
    destruct (retryable_attempt options w Hfirst)
      as (e & w2 & _ & _ & Hcfg & Hslept & Hcalls & Hsent & Hatt).
    assert (Hlt : (default 0 (opt_retryCount options)
                   <? maxRetries (config (this w))) = true)
      by (apply Z.ltb_lt; lia).
    rewrite Hlt in Hatt. rewrite Hatt in Hrest. simpl in Hrest.
    pose proof (fun Hb => IH _ _ Hb Hrest) as IH'.
    simpl in IH'. rewrite Hcfg in IH'.
    destruct IH' as (w_k & Hreq & Hcfgk & Hsleptk & Hcallsk & Hsentk); [lia |].
    exists w_k. split; [| split; [| split; [| split]]].
    + rewrite request_unfold, (bind_Ret _ _ _ _ _ Hatt).
      rewrite Hreq. f_equal.
      unfold with_retryCount. simpl. do 2 f_equal. lia.
    + congruence.
    + rewrite Hsleptk, Hslept, <- app_assoc. f_equal.
      change (seq 0 (S k)) with (0%nat :: seq 1 k).
      rewrite <- seq_shift. cbn [map app]. rewrite map_map, Z.add_0_r.
      f_equal. apply map_ext. intros i. f_equal. f_equal. lia.
    + unfold calls_made in *. simpl in Hcallsk. lia.
    + lia.
Qed.

(** The end of a call whose attempts all meet retryable outcomes. *)
Lemma request_gives_up k : forall options w,
  k = Z.to_nat (maxRetries (config (this w))
                - default 0 (opt_retryCount options)) ->
  retryable_attempts (S k) options w ->
  exists e w',
    request options w = (Throw (PhpIpam e), w')
    /\ code e = RETRYABLE /\ retryable e = true
    /\ slept w'
       = slept w ++ map (fun i => retryDelay (config (this w))
                                  * 2 ^ (default 0 (opt_retryCount options)
                                         + Z.of_nat i)) (seq 0 k)
    /\ calls_made w' = (calls_made w + k + 1)%nat
    /\ (length (sent w) + k + 1 <= length (sent w')
        <= length (sent w) + 2 * (k + 1))%nat.
Proof.
  induction k as [| k IH]; intros options w Hk [Hfirst Hrest].
  all: destruct (retryable_attempt options w Hfirst)
         as (e & w2 & Hcode & Hrt & Hcfg & Hslept & Hcalls & Hsent & Hatt).
  - assert (Hge : (default 0 (opt_retryCount options)
                   <? maxRetries (config (this w))) = false)
      by (apply Z.ltb_ge; lia).
    rewrite Hge in Hatt.
    exists e, w2. rewrite request_unfold, (bind_Throw _ _ _ _ _ Hatt).
    simpl. rewrite app_nil_r. repeat split; auto; lia.
  - assert (Hlt : (default 0 (opt_retryCount options)
                   <? maxRetries (config (this w))) = true)
      by (apply Z.ltb_lt; lia).
    rewrite Hlt in Hatt. rewrite Hatt in Hrest. simpl snd in Hrest.
    pose proof (fun Hb => IH _ _ Hb Hrest) as IH'.
    simpl in IH'. rewrite Hcfg in IH'.
    destruct IH' as (e' & w' & Hreq & Hcode' & Hrt' & Hslept' & Hcalls' & Hsent');
      [lia |].
    exists e', w'. split; [| split; [| split; [| split; [| split]]]]; auto.
    + rewrite request_unfold, (bind_Ret _ _ _ _ _ Hatt). exact Hreq.
    + rewrite Hslept', Hslept, <- app_assoc. f_equal.
      change (seq 0 (S k)) with (0%nat :: seq 1 k).
      rewrite <- seq_shift. cbn [map app]. rewrite map_map, Z.add_0_r.
      f_equal. apply map_ext. intros i. f_equal. f_equal. lia.
    + unfold calls_made in *. simpl in Hcalls'. lia.
    + lia.
Qed.

(** C1.  A call through [request], as every public method makes it (no
    retry counter in its options).  When each of its first [k] attempts,
    [k] within [maxRetries], obtains a credential in whatever way (the
    static token, a cached session token, or a login that is accepted)
    and has its own exchange end in a retryable outcome, the call has by
    then made its request [k] times, has slept the delays
    [retryDelay * 2^0, ..., retryDelay * 2^(k-1)] in this order, and goes
    on as the attempt with index [k].  When [k] is [maxRetries] and the
    attempt with index [k] meets a retryable outcome as well, the call
    throws a RETRYABLE error after [maxRetries + 1] requests and no
    further delay. *)
Theorem retry_with_exponential_backoff
    (options : RequestOptions) (w : World) (k : nat) :
  opt_retryCount options = None ->
  (k <= Z.to_nat (maxRetries (config (this w))))%nat ->
  retryable_attempts k options w ->
  (exists w_k,
     request options w = request (with_retryCount (Z.of_nat k) options) w_k
     /\ slept w_k = slept w ++ backoff (config (this w)) k
     /\ calls_made w_k = (calls_made w + k)%nat
     /\ (length (sent w) + k <= length (sent w_k)
         <= length (sent w) + 2 * k)%nat)
  /\ (k = Z.to_nat (maxRetries (config (this w))) ->
      retryable_attempts (S k) options w ->
      exists e w',
        request options w = (Throw (PhpIpam e), w')
        /\ code e = RETRYABLE
        /\ retryable e = true
        /\ slept w' = slept w ++ backoff (config (this w)) k
        /\ calls_made w' = (calls_made w + k + 1)%nat
        /\ (length (sent w) + k + 1 <= length (sent w')
            <= length (sent w) + 2 * (k + 1))%nat).
Proof.
  intros Hfresh Hk Hall. split.
  - destruct (request_goes_on k options w) as
      (w_k & Hreq & _ & Hsl & Hcalls & Hsent); [| exact Hall |].
    { rewrite Hfresh. simpl. rewrite Z.sub_0_r. exact Hk. }
    rewrite Hfresh in Hreq, Hsl. simpl in Hreq, Hsl.
    exists w_k. repeat split; auto; lia.
  - intros Hbound Hlast.
    destruct (request_gives_up k options w) as
      (e & w' & Hreq & Hcode & Hrt & Hsl & Hcalls & Hsent); [| exact Hlast |].
    { rewrite Hfresh. simpl. rewrite Z.sub_0_r. exact Hbound. }
    rewrite Hfresh in Hsl. simpl in Hsl.
    exists e, w'. repeat split; auto; lia.
Qed.

(** With a credential at hand, the attempts meet retryable outcomes
    when the exchanges that follow have such outcomes. *)
Lemma retryable_attempts_with_credential k : forall options w,
  credential_ready w ->
  (forall i, (i < k)%nat ->
     retryable_outcome (network w (length (sent w) + i)) = true) ->
  retryable_attempts k options w.
Proof.
  induction k as [| k IH]; intros options w Hr Hev; [exact I |].
  assert (Hev0 : retryable_outcome (next_event w) = true).
  { unfold next_event. rewrite <- (Nat.add_0_r (length (sent w))).
    apply Hev. lia. }
  split.
  - destruct (credential_ready_attempt w Hr)
      as (tok & w1 & Hg & Hnext & _).
    exists tok, w1. split; [exact Hg | now rewrite Hnext].
  - destruct (attempt_retryable options w Hr Hev0)
      as (e & o & w2 & Hatt & _ & _ & Hthis & Hsent & _ & Hclock & Hnet & Hticks).
    assert (Hnext : forall (l : list Z) (w3 : World),
              w3 = with_slept l w2 \/ w3 = w2 ->
              retryable_attempts k
                (with_retryCount (default 0 (opt_retryCount options) + 1) options)
                w3).
    { intros l w3 Hw3. apply IH.
      - apply (credential_ready_later w); destruct Hw3 as [-> | ->]; auto.
      - intros i Hi.
        assert (Hn3 : network w3 = network w /\ sent w3 = sent w ++ [o])
          by (destruct Hw3 as [-> | ->]; auto).
        destruct Hn3 as [-> ->]. rewrite length_app. simpl.
        replace (length (sent w) + 1 + i)%nat with (length (sent w) + S i)%nat
          by lia.
        apply Hev. lia. }
    rewrite Hatt. unfold retry_or_throw.
    destruct (retryable e && _); simpl;
      [eapply Hnext; left; reflexivity | apply (Hnext []); right; reflexivity].
Qed.

(** On a client that has to log in, when the login is accepted and the
    session it opens lasts, the attempts meet retryable outcomes when
    the exchanges after the login have such outcomes. *)
Lemma retryable_attempts_after_login k options w tok response :
  getEffectiveAuthMode (config (this w)) = eff_password ->
  needs_login w ->
  http_result (next_event w) = Ret response ->
  resp_success response = true ->
  authData_token (resp_data response) = Some tok ->
  truthy_string tok = true ->
  (forall j, (S (ticks (before_login w)) <= j)%nat ->
     clock w j < clock w (ticks (before_login w)) + 5 * 60 * 60 * 1000) ->
  (forall i, (i < k)%nat ->
     retryable_outcome (network w (length (sent w) + 1 + i)) = true) ->
  retryable_attempts k options w.
Proof.
  intros Hmode Hn Hres Hok Htok Htruthy Hlast Hev.
  destruct k as [| k]; [exact I |].
  destruct (before_login_effects w) as (_ & Hbs & Hbt).
  assert (Hbc : clock (before_login w) = clock w
                /\ network (before_login w) = network w).
  { unfold before_login. destruct (truthy_ostring _); split; reflexivity. }
  destruct Hbc as [Hbc Hbn].
  set (w1 := logged_in (Some tok)
               (exchanged (login_options (config (this w))) (before_login w))).
  assert (Hg : getAuthToken w = (Ret (Some tok), w1)).
  { rewrite getAuthToken_login by assumption. cbv zeta.
    rewrite Hres, Hok, Htok. simpl. rewrite Htruthy. reflexivity. }
  assert (Hnext : next_event w1 = network w (length (sent w) + 1 + 0)).
  { unfold next_event. subst w1. simpl. rewrite Hbn, Hbs, length_app. simpl.
    f_equal. lia. }
  assert (Hev0 : retryable_outcome (next_event w1) = true)
    by (rewrite Hnext; apply Hev; lia).
  split; [exists tok, w1; split; assumption |].
  destruct (attempt_on_retryable options w tok w1 Hg Hev0)
    as (e & w2 & Hatt & _ & _ & Hthis & Hsent & _ & Hclock & Hnet & Hticks).
  assert (Hrest : forall w3 : World,
            this w3 = this w2 -> clock w3 = clock w2 ->
            network w3 = network w2 -> sent w3 = sent w2 ->
            ticks w3 = ticks w2 ->
            retryable_attempts k
              (with_retryCount (default 0 (opt_retryCount options) + 1) options)
              w3).
  { intros w3 H3t H3c H3n H3s H3k.
    apply retryable_attempts_with_credential.
    - unfold credential_ready. rewrite H3t, Hthis. subst w1. simpl.
      rewrite Hbt, Hmode. simpl. split; [exact Htruthy |].
      intros j Hj. rewrite H3c, Hclock. simpl. rewrite Hbc.
      apply Hlast. rewrite H3k, Hticks in Hj. simpl in Hj. exact Hj.
    - intros i Hi. rewrite H3n, H3s, Hnet, Hsent. subst w1. simpl.
      rewrite Hbn, Hbs, !length_app. simpl.
      replace (length (sent w) + 1 + 1 + i)%nat
        with (length (sent w) + 1 + S i)%nat by lia.
      apply Hev. lia. }
  rewrite Hatt. unfold retry_or_throw.
  destruct (retryable e && _); simpl; apply Hrest; reflexivity.
Qed.

End RetryEveryCall.

(** The scenario of a 500 for every call, [maxRetries = 3] and
    [retryDelay = 1000].  In token mode: four requests, the delays 1000,
    2000 and 4000 (7000 in all), then a RETRYABLE error.  In password
    mode on a client that has to log in first: the same four requests and
    delays after the one login, five exchanges in all. *)
Lemma retry_with_exponential_backoff_witness :
  (exists e w',
     @request sample_runtime write_call
       (fresh_world token_config (fun _ => NetResponse 500 body_500))
     = (Throw (PhpIpam e), w')
     /\ code e = RETRYABLE
     /\ retryable e = true
     /\ slept w' = [1000; 2000; 4000]
     /\ fold_right Z.add 0 (slept w') = 7000
     /\ calls_made w' = 4%nat
     /\ length (sent w') = 4%nat)
  /\ (exists e w',
        @request sample_runtime write_call
          (world_at 1767225600000 (new_PhpIpamClient password_config)
             login_then_500)
        = (Throw (PhpIpam e), w')
        /\ code e = RETRYABLE
        /\ retryable e = true
        /\ slept w' = [1000; 2000; 4000]
        /\ calls_made w' = 4%nat
        /\ length (sent w') = 5%nat).
Proof.
  split.
  - destruct (@retry_with_exponential_backoff sample_runtime write_call
                (fresh_world token_config (fun _ => NetResponse 500 body_500))
                3%nat eq_refl)
      as [_ Hfinal].
    + simpl. lia.
    + apply retryable_attempts_with_credential;
        [exists "t1"; reflexivity | intros i _; reflexivity].
    + destruct (Hfinal eq_refl)
        as (e & w' & Hrun & Hcode & Hrt & Hsl & Hcalls & _).
      { apply retryable_attempts_with_credential;
          [exists "t1"; reflexivity | intros i _; reflexivity]. }
      exists e, w'. split; [exact Hrun |]. split; [exact Hcode |].
      split; [exact Hrt |]. split; [exact Hsl |].
      split; [rewrite Hsl; reflexivity |]. split; [exact Hcalls |].
      assert (Hw : snd (@request sample_runtime write_call
                          (fresh_world token_config
                             (fun _ => NetResponse 500 body_500))) = w')
        by (now rewrite Hrun).
      rewrite <- Hw. reflexivity.
  - assert (Hall : forall k,
              @retryable_attempts sample_runtime k write_call
                (world_at 1767225600000 (new_PhpIpamClient password_config)
                   login_then_500)).
    { intros k.
      apply (@retryable_attempts_after_login sample_runtime k write_call
               (world_at 1767225600000 (new_PhpIpamClient password_config)
                  login_then_500)
               "s3ss10nT0k3n"
               {| resp_code := 200; resp_success := true;
                  resp_data := Some (JObj [("token", JStr "s3ss10nT0k3n")]);
                  resp_message := None |});
        first [reflexivity | left; reflexivity | intros j _; simpl; lia]. }
    destruct (@retry_with_exponential_backoff sample_runtime write_call
                (world_at 1767225600000 (new_PhpIpamClient password_config)
                   login_then_500)
                3%nat eq_refl)
      as [_ Hfinal].
    + simpl. lia.
    + apply Hall.
    + destruct (Hfinal eq_refl (Hall 4%nat))
        as (e & w' & Hrun & Hcode & Hrt & Hsl & Hcalls & _).
      exists e, w'. split; [exact Hrun |]. split; [exact Hcode |].
      split; [exact Hrt |]. split; [exact Hsl |]. split; [exact Hcalls |].
      assert (Hw : snd (@request sample_runtime write_call
                          (world_at 1767225600000
                             (new_PhpIpamClient password_config)
                             login_then_500)) = w')
        by (now rewrite Hrun).
      rewrite <- Hw. reflexivity.
Defined.

(** C1 as stated fails when the retryable outcome is that of the login:
    in password mode, on a client that has to log in, a network that
    times out ends the call with a RETRYABLE error that is marked
    retryable after one exchange and no delay, although the attempt
    index 0 is below [maxRetries = 3]. *)
Lemma login_timeout_is_not_retried :
  fst (@request sample_runtime write_call
         (fresh_world password_config (fun _ => NetTimeout)))
  = Throw (PhpIpam {| message := "Request timeout"; code := RETRYABLE;
                      statusCode := None; retryable := true |})
  /\ slept (snd (@request sample_runtime write_call
                   (fresh_world password_config (fun _ => NetTimeout)))) = []
  /\ length (sent (snd (@request sample_runtime write_call
                          (fresh_world password_config (fun _ => NetTimeout)))))
     = 1%nat
  /\ default 0 (opt_retryCount write_call) < maxRetries password_config.
Proof. repeat split. Qed.

(* ================================================================== *)
(** ** Loading the configuration *)
(* ================================================================== *)

Lemma truthy_ostring_Some (o : option string) :
  truthy_ostring o = true <-> exists s, o = Some s /\ truthy_string s = true.
Proof.
  destruct o as [s |]; simpl; split.
  - intros Hs. now exists s.
  - now intros (s' & [= <-] & Hs).
  - discriminate.
  - now intros (s' & Hs & _).
Qed.


Lemma strip_trailing_slash_cases s :
  strip_trailing_slash s = s \/ s = strip_trailing_slash s +:+ "/".
Proof.
  induction s as [| c s IH]; [now left |].
  destruct s as [| d s].
  - simpl. destruct (Ascii.eqb_spec c "/") as [-> |]; [now right | now left].
  - change (strip_trailing_slash (String c (String d s)))
      with (String c (strip_trailing_slash (String d s))).
    destruct IH as [-> | IH]; [now left |].
    right. change (String c ?x +:+ "/") with (String c (x +:+ "/")).
    now rewrite <- IH.
Qed.

Lemma strip_trailing_slash_one s : strip_trailing_slash (s +:+ "/") = s.
Proof.
  induction s as [| c s IH]; [reflexivity |].
  change (String c s +:+ "/") with (String c (s +:+ "/")).
  destruct (s +:+ "/") as [| d t] eqn:E.
  - destruct s; discriminate.
  - change (strip_trailing_slash (String c (String d t)))
      with (String c (strip_trailing_slash (String d t))).
    now rewrite IH.
Qed.

Lemma validateAuthConfig_error_None raw tok user pass :
  validateAuthConfig_error raw tok user pass = None <->
  exists m : AuthMode,
    raw = authMode_name m /\ validateAuthConfig m tok user pass = true.
Proof.
  unfold validateAuthConfig_error, validateAuthConfig. cbv zeta. split.
  - destruct (String.eqb_spec raw "token") as [-> | Ht].
    { destruct (truthy_ostring tok) eqn:E; [| discriminate].
      intros _. exists token_mode. now split. }
    destruct (String.eqb_spec raw "password") as [-> | Hp].
    { destruct (truthy_ostring user && truthy_ostring pass) eqn:E;
        [| discriminate].
      intros _. exists password_mode. now split. }
    destruct (String.eqb_spec raw "auto") as [-> | Ha]; [| discriminate].
    destruct (truthy_ostring tok) eqn:E1;
      destruct (truthy_ostring user && truthy_ostring pass) eqn:E2;
      try discriminate; intros _; exists auto_mode; simpl;
      rewrite ?E1, ?E2; now split.
  - intros ([] & -> & Hv); simpl in *; rewrite ?Hv; try reflexivity.
    destruct (truthy_ostring tok); simpl in *; [reflexivity |].
    now rewrite Hv.
Qed.

Lemma authMode_of_name m : authMode_of (authMode_name m) = m.
Proof. now destruct m. Qed.



Section Loading.
Variable Number_parseInt : string -> option Z.

Lemma loadConfig_inr env cfg :
  loadConfig Number_parseInt env = inr cfg ->
  truthy_ostring (env !! "PHPIPAM_BASE_URL") = true
  /\ truthy_ostring (env !! "PHPIPAM_APP_ID") = true
  /\ validateAuthConfig_error (env_authMode env) (env !! "PHPIPAM_TOKEN")
       (env !! "PHPIPAM_USERNAME") (env !! "PHPIPAM_PASSWORD") = None
  /\ cfg = {| baseUrl := strip_trailing_slash
                           (default EmptyString (env !! "PHPIPAM_BASE_URL"));
              appId := default EmptyString (env !! "PHPIPAM_APP_ID");
              authMode := authMode_of (env_authMode env);
              token := env !! "PHPIPAM_TOKEN";
              username := env !! "PHPIPAM_USERNAME";
              password := env !! "PHPIPAM_PASSWORD";
              writeEnabled := parseBool (env !! "PHPIPAM_WRITE_ENABLED") false;
              verifyTls := parseBool (env !! "PHPIPAM_VERIFY_TLS") true;
              enableCache := parseBool (env !! "PHPIPAM_ENABLE_CACHE") false;
              debugHttp := parseBool (env !! "PHPIPAM_DEBUG_HTTP") false;
              allowSubnetCreate :=
                parseBool (env !! "PHPIPAM_ALLOW_SUBNET_CREATE") false;
              allowSectionCreate :=
                parseBool (env !! "PHPIPAM_ALLOW_SECTION_CREATE") false;
              timeout := parseInt Number_parseInt (env !! "PHPIPAM_TIMEOUT") 30000;
              maxRetries :=
                parseInt Number_parseInt (env !! "PHPIPAM_MAX_RETRIES") 3;
              retryDelay :=
                parseInt Number_parseInt (env !! "PHPIPAM_RETRY_DELAY") 1000 |}.
Proof.
  unfold loadConfig. cbv zeta. fold (env_authMode env).
  destruct (truthy_ostring (env !! "PHPIPAM_BASE_URL")); [| discriminate].
  destruct (truthy_ostring (env !! "PHPIPAM_APP_ID")); [| discriminate].
  simpl.
  destruct (validateAuthConfig_error _ _ _ _); [discriminate |].
  intros [= <-]. repeat split.
Qed.

(** X15.  A configuration that [loadConfig] returns passes the
    validation of its own mode and holds the credential of its effective
    mode: a non-empty token when that mode is [token], a non-empty user
    name and password when it is [password].  Its application id is not
    empty.  Its base URL is the one of the environment without its last
    character when that one ends in a slash (one slash goes, not more),
    and the one of the environment as it is otherwise. *)
Theorem loaded_config_has_its_credential
    (env : gmap string string) (cfg : PhpIpamConfig) :
  loadConfig Number_parseInt env = inr cfg ->
  validateAuthConfig (authMode cfg) (token cfg) (username cfg) (password cfg)
  = true
  /\ (getEffectiveAuthMode cfg = eff_token ->
      exists tok, token cfg = Some tok /\ truthy_string tok = true)
  /\ (getEffectiveAuthMode cfg = eff_password ->
      truthy_ostring (username cfg) = true
      /\ truthy_ostring (password cfg) = true)
  /\ truthy_string (appId cfg) = true
  /\ (forall url, env !! "PHPIPAM_BASE_URL" = Some (url +:+ "/") ->
      baseUrl cfg = url)
  /\ (forall url, env !! "PHPIPAM_BASE_URL" = Some url ->
      (forall head, url <> head +:+ "/") ->
      baseUrl cfg = url).
Proof.
  intros Hload.
  destruct (loadConfig_inr env cfg Hload) as (Hb & Ha & Hv & ->).
  apply validateAuthConfig_error_None in Hv as (m & Hm & Hv).
  rewrite Hm, authMode_of_name.
  apply truthy_ostring_Some in Hb as (b & Hb & _).
  apply truthy_ostring_Some in Ha as (a & Ha & Hta).
  unfold getEffectiveAuthMode. simpl. rewrite Hb, Ha. simpl.
  split; [exact Hv |].
  split; [| split; [| split; [exact Hta | split]]].
  - intros Hmode. apply truthy_ostring_Some.
    destruct m; simpl in *; try discriminate; [exact Hv |].
    destruct (truthy_ostring (env !! "PHPIPAM_TOKEN")); [reflexivity | discriminate].
  - intros Hmode. apply andb_true_iff.
    destruct m; simpl in *; try discriminate; [exact Hv |].
    destruct (truthy_ostring (env !! "PHPIPAM_TOKEN")); [discriminate | exact Hv].
  - intros url [= ->]. apply strip_trailing_slash_one.
  - intros url [= ->] Hend.
    destruct (strip_trailing_slash_cases url) as [E | E]; [exact E |].
    now destruct (Hend (strip_trailing_slash url)).
Qed.

(** X16.  [loadConfig] returns a configuration exactly when the base URL
    and the application id are set and not empty, the mode (absent or
    empty: [auto]) is one of the three names, and the credentials pass
    the validation of that mode.  Otherwise it throws, always a
    VALIDATION error that is not retryable; without a base URL the error
    is the one of the empty environment, whatever else is set. *)
Theorem loadConfig_accepts_exactly (env : gmap string string) :
  ((exists cfg, loadConfig Number_parseInt env = inr cfg) <->
   truthy_ostring (env !! "PHPIPAM_BASE_URL") = true
   /\ truthy_ostring (env !! "PHPIPAM_APP_ID") = true
   /\ exists m : AuthMode,
        env_authMode env = authMode_name m
        /\ validateAuthConfig m (env !! "PHPIPAM_TOKEN")
             (env !! "PHPIPAM_USERNAME") (env !! "PHPIPAM_PASSWORD") = true)
  /\ (forall e, loadConfig Number_parseInt env = inl e ->
        code e = VALIDATION /\ retryable e = false /\ statusCode e = None)
  /\ (truthy_ostring (env !! "PHPIPAM_BASE_URL") = false ->
      loadConfig Number_parseInt env = loadConfig Number_parseInt ∅).
Proof.
  split; [split |].
  - intros [cfg Hload].
    destruct (loadConfig_inr env cfg Hload) as (Hb & Ha & Hv & _).
    split; [exact Hb |]. split; [exact Ha |].
    now apply validateAuthConfig_error_None.
  - intros (Hb & Ha & Hv). apply validateAuthConfig_error_None in Hv.
    unfold loadConfig. cbv zeta. fold (env_authMode env).
    rewrite Hb, Ha, Hv. simpl. eexists. reflexivity.
  - split.
    + intros e. unfold loadConfig. cbv zeta. fold (env_authMode env).
      destruct (truthy_ostring (env !! "PHPIPAM_BASE_URL")); simpl;
        [| intros [= <-]; repeat split].
      destruct (truthy_ostring (env !! "PHPIPAM_APP_ID")); simpl;
        [| intros [= <-]; repeat split].
      unfold validateAuthConfig_error. cbv zeta.
      repeat match goal with
             | |- context [if ?b then _ else _] => destruct b
             end; simpl; intros [= <-]; repeat split.
    + intros Hb. unfold loadConfig. cbv zeta. rewrite Hb.
      reflexivity.
Qed.


End Loading.

(* ================================================================== *)
(** ** Gates and masking *)
(* ================================================================== *)

(** X18.  The write gates.  A write passes exactly when writes are
    enabled; the creation of a subnet or of a section passes exactly when
    writes are enabled and the creation is allowed too.  What a gate
    throws is a FORBIDDEN error that is not retryable, and with writes
    disabled a creation gate throws the error of the write gate. *)
Theorem write_gates (config : PhpIpamConfig) (operation : string) :
  (assertWriteEnabled config operation = None <-> writeEnabled config = true)
  /\ (assertSubnetCreateEnabled config = None <->
      writeEnabled config = true /\ allowSubnetCreate config = true)
  /\ (assertSectionCreateEnabled config = None <->
      writeEnabled config = true /\ allowSectionCreate config = true)
  /\ (forall e,
        assertWriteEnabled config operation = Some e
        \/ assertSubnetCreateEnabled config = Some e
        \/ assertSectionCreateEnabled config = Some e ->
        code e = FORBIDDEN /\ retryable e = false)
  /\ (writeEnabled config = false ->
      assertSubnetCreateEnabled config
      = assertWriteEnabled config "subnets.ensure"
      /\ assertSectionCreateEnabled config
         = assertWriteEnabled config "sections.ensure").
Proof.
  unfold assertSubnetCreateEnabled, assertSectionCreateEnabled,
    assertWriteEnabled.
  destruct (writeEnabled config), (allowSubnetCreate config),
    (allowSectionCreate config); simpl.
  all: repeat match goal with
              | |- _ /\ _ => split
              | |- _ <-> _ => split
              end; try tauto; try congruence; try discriminate.
  all: try (intros e [He | [He | He]]; inversion He; now split).
  all: try (intros [? ?]; discriminate).
Qed.

(** X19.  What [maskConfig] returns does not depend on the secrets: two
    configurations that differ in the values of token and password only,
    each of them present in both or absent in both, are masked to the
    same record, and that record always has the same fifteen keys. *)
Theorem maskConfig_hides_secrets
    (config : PhpIpamConfig) (tok1 tok2 pass1 pass2 : option string) :
  truthy_ostring tok1 = truthy_ostring tok2 ->
  truthy_ostring pass1 = truthy_ostring pass2 ->
  maskConfig (with_secrets tok1 pass1 config)
  = maskConfig (with_secrets tok2 pass2 config)
  /\ map fst (maskConfig config)
     = ["baseUrl"; "appId"; "authMode"; "token"; "username"; "password";
        "writeEnabled"; "verifyTls"; "enableCache"; "debugHttp";
        "allowSubnetCreate"; "allowSectionCreate";
        "timeout"; "maxRetries"; "retryDelay"].
Proof.
  intros Ht Hp. unfold maskConfig, with_secrets. simpl.
  rewrite Ht, Hp. split; reflexivity.
Qed.

(** The environment with a token and a base URL that ends in a slash. *)
Lemma loaded_config_has_its_credential_witness :
  exists cfg,
    loadConfig sample_parseInt sample_env = inr cfg
    /\ baseUrl cfg = "https://ipam.example.com"
    /\ getEffectiveAuthMode cfg = eff_token
    /\ exists tok, token cfg = Some tok /\ truthy_string tok = true.
Proof.
  eexists. split; [vm_compute; reflexivity |].
  split; [reflexivity |]. split; [reflexivity |].
  eapply (loaded_config_has_its_credential sample_parseInt sample_env);
    reflexivity.
Defined.


(** Two pairs of secrets, one masked record. *)
Lemma maskConfig_hides_secrets_witness :
  maskConfig (with_secrets (Some "t1") (Some "hunter2secret") password_config)
  = maskConfig (with_secrets (Some "0ther") (Some "s3cr3t") password_config).
Proof.
  apply (maskConfig_hides_secrets password_config); reflexivity.
Defined.


(* ================================================================== *)
(** ** A creation that is accepted without data *)
(* ================================================================== *)

Section Creations.
Context `{Runtime}.

Lemma id_of_nothing_after options (k : option Json -> M (option Json)) w
    response :
  credential_ready w ->
  http_result (next_event w) = Ret response ->
  resp_success response = true ->
  resp_data response = None \/ resp_data response = Some JNull ->
  exists msg w',
    (result <- request options ;; id <- result_id result ;; k id) w
    = (Throw (OtherError "TypeError" msg), w')
    /\ length (sent w') = S (length (sent w))
    /\ slept w' = slept w.
Proof.
  intros Hr Hres Hok Hdata.
  destruct (credential_ready_attempt w Hr)
    as (tok & w1 & Hg & Hnext & Hthis & Hsent & Hslept).
  rewrite <- Hnext in Hres.
  pose proof (request_accepted options w tok w1 response Hg Hres Hok) as Hrun.
  rewrite (bind_Ret _ _ _ _ _ Hrun).
  destruct Hdata as [-> | ->]; eexists; eexists;
    (split; [apply bind_Throw; reflexivity |]);
    simpl; rewrite length_app, Hsent, Hslept; simpl; (split; [lia | reflexivity]).
Qed.

(** X20.  With a credential at hand, a creation that the backend accepts
    with no data in its answer (or with [null] for data): each of
    [createSection], [createSubnet], [createAddress] and
    [allocateFirstFree] throws a [TypeError], which is not a
    [PhpIpamError], after the one exchange that made the write; the
    created object is not read back and nothing is slept. *)
Theorem creation_without_data_throws_after_write
    (data : JsObject) (subnetId : string) (w : World) (response : ApiResponse) :
  credential_ready w ->
  http_result (next_event w) = Ret response ->
  resp_success response = true ->
  resp_data response = None \/ resp_data response = Some JNull ->
  (exists msg w',
     createSection data w = (Throw (OtherError "TypeError" msg), w')
     /\ length (sent w') = S (length (sent w)) /\ slept w' = slept w)
  /\ (exists msg w',
        createSubnet data w = (Throw (OtherError "TypeError" msg), w')
        /\ length (sent w') = S (length (sent w)) /\ slept w' = slept w)
  /\ (exists msg w',
        createAddress data w = (Throw (OtherError "TypeError" msg), w')
        /\ length (sent w') = S (length (sent w)) /\ slept w' = slept w)
  /\ (exists msg w',
        allocateFirstFree subnetId data w
        = (Throw (OtherError "TypeError" msg), w')
        /\ length (sent w') = S (length (sent w)) /\ slept w' = slept w).
Proof.
  intros Hr Hres Hok Hdata.
  repeat split; eapply id_of_nothing_after; eassumption.
Qed.

End Creations.

(** The answer [{code: 201, success: true, id: 7}] to the creation of an
    address. *)
Lemma creation_without_data_throws_after_write_witness :
  exists msg w',
    @createAddress sample_runtime_more
      [("ip", JStr "10.0.0.7"); ("subnetId", JStr "3")]
      (fresh_world token_config (fun _ => NetResponse 201 body_created))
    = (Throw (OtherError "TypeError" msg), w')
    /\ length (sent w') = 1%nat.
Proof.
  destruct (@creation_without_data_throws_after_write sample_runtime_more
              [("ip", JStr "10.0.0.7"); ("subnetId", JStr "3")] "3"
              (fresh_world token_config (fun _ => NetResponse 201 body_created))
              response_created)
    as (_ & _ & (msg & w' & Hrun & Hsent & _) & _).
  - exists "t1". reflexivity.
  - reflexivity.
  - reflexivity.
  - left. reflexivity.
  - exists msg, w'. split; [exact Hrun | exact Hsent].
Defined.


(* ================================================================== *)
(** ** Writes that are answered with a failure *)
(* ================================================================== *)

Section WritesAndNotFound.
Context `{Runtime}.

Lemma request_rejected_ready options w response :
  credential_ready w ->
  http_result (next_event w) = Ret response ->
  resp_success response = false ->
  resp_code response < 500 ->
  exists w',
    request options w = (Throw (PhpIpam (classify response)), w')
    /\ length (sent w') = S (length (sent w)) /\ slept w' = slept w.
Proof.
  intros Hr Hres Hfail Hcode.
  destruct (credential_ready_attempt w Hr)
    as (tok & w1 & Hg & Hnext & Hthis & Hsent & Hslept).
  rewrite <- Hnext in Hres.
  eexists. split.
  - apply (request_rejected options w tok w1 response Hg Hres Hfail Hcode).
  - unfold invalidate_on_401.
    destruct (resp_code response =? 401); simpl;
      rewrite length_app, Hsent, Hslept; simpl; (split; [lia | reflexivity]).
Qed.

Lemma request_accepted_ready options w response :
  credential_ready w ->
  http_result (next_event w) = Ret response ->
  resp_success response = true ->
  exists w',
    request options w = (Ret (resp_data response), w')
    /\ credential_ready w'
    /\ next_event w' = network w (S (length (sent w)))
    /\ length (sent w') = S (length (sent w)) /\ slept w' = slept w.
Proof.
  intros Hr Hres Hok.
  destruct (credential_ready_run w Hr)
    as (tok & w1 & Hg & Hthis & Hsent & Hslept & _ & Hclock & Hnet & Hticks).
  assert (Hnext : next_event w1 = next_event w)
    by (unfold next_event; now rewrite Hnet, Hsent).
  rewrite <- Hnext in Hres.
  eexists. split.
  - apply (request_accepted options w tok w1 response Hg Hres Hok).
  - split; [| split; [| split]].
    + apply (credential_ready_later w); simpl; assumption.
    + unfold next_event. simpl. rewrite length_app, Hnet, Hsent. simpl.
      f_equal. lia.
    + simpl. rewrite length_app, Hsent. simpl. lia.
    + simpl. exact Hslept.
Qed.

(** X21.  No write turns a 404 into a value.  With a credential at
    hand, when the backend answers the write with
    [{success:false, code:404}], [deleteAddress], [updateAddress] and the
    four creations throw the NOT_FOUND error after that one exchange;
    [updateAddress] does not go on to read the address. *)
Theorem writes_throw_on_not_found
    (id : string) (data : JsObject) (w : World) (response : ApiResponse) :
  credential_ready w ->
  http_result (next_event w) = Ret response ->
  resp_success response = false ->
  resp_code response = 404 ->
  code (classify response) = NOT_FOUND
  /\ (exists w', deleteAddress id w = (Throw (PhpIpam (classify response)), w')
                 /\ length (sent w') = S (length (sent w)))
  /\ (exists w', updateAddress id data w
                 = (Throw (PhpIpam (classify response)), w')
                 /\ length (sent w') = S (length (sent w)))
  /\ (exists w', createAddress data w
                 = (Throw (PhpIpam (classify response)), w')
                 /\ length (sent w') = S (length (sent w)))
  /\ (exists w', allocateFirstFree id data w
                 = (Throw (PhpIpam (classify response)), w')
                 /\ length (sent w') = S (length (sent w)))
  /\ (exists w', createSubnet data w
                 = (Throw (PhpIpam (classify response)), w')
                 /\ length (sent w') = S (length (sent w)))
  /\ (exists w', createSection data w
                 = (Throw (PhpIpam (classify response)), w')
                 /\ length (sent w') = S (length (sent w))).
Proof.
  intros Hr Hres Hfail H404.
  assert (Hcode : resp_code response < 500) by lia.
  split; [apply classify_404; exact H404 |].
  unfold deleteAddress, updateAddress, createAddress, allocateFirstFree,
    createSubnet, createSection.
  repeat match goal with
         | |- _ /\ _ => split
         end.
  all: match goal with
       | |- context [bind (request ?o)] =>
           destruct (request_rejected_ready o w response Hr Hres Hfail Hcode)
             as (w' & Hrun & Hsent & _)
       end.
  all: exists w'; split; [apply bind_Throw; exact Hrun | exact Hsent].
Qed.

(** X22.  [updateAddress] is a PATCH followed by a read of the address.
    With a credential at hand and the PATCH accepted, what it returns is
    the data of the read (the data of the PATCH is dropped); and when the
    read is answered with a failure below 500, it throws the error of the
    read, although the update has been made.  Two exchanges either way. *)
Theorem updateAddress_is_patch_then_read
    (id : string) (data : JsObject) (w : World) (patched read : ApiResponse) :
  credential_ready w ->
  http_result (network w (length (sent w))) = Ret patched ->
  resp_success patched = true ->
  http_result (network w (S (length (sent w)))) = Ret read ->
  (resp_success read = true ->
   exists w',
     updateAddress id data w = (Ret (resp_data read), w')
     /\ length (sent w') = S (S (length (sent w))))
  /\ (resp_success read = false -> resp_code read < 500 ->
      exists w',
        updateAddress id data w = (Throw (PhpIpam (classify read)), w')
        /\ length (sent w') = S (S (length (sent w)))).
Proof.
  intros Hr Hres1 Hok Hres2.
  destruct (request_accepted_ready
              {| opt_method := PATCH; opt_path := "/addresses/" +:+ id +:+ "/";
                 opt_body := Some data; opt_retryCount := None |}
              w patched Hr Hres1 Hok)
    as (w1 & Hrun1 & Hr1 & Hnext1 & Hsent1 & Hslept1).
  rewrite <- Hnext1 in Hres2.
  unfold updateAddress. rewrite (bind_Ret _ _ _ _ _ Hrun1).
  unfold getAddress. split.
  - intros Hok2.
    destruct (request_accepted_ready
                {| opt_method := GET; opt_path := "/addresses/" +:+ id +:+ "/";
                   opt_body := None; opt_retryCount := None |}
                w1 read Hr1 Hres2 Hok2)
      as (w2 & Hrun2 & _ & _ & Hsent2 & _).
    exists w2. split; [exact Hrun2 | lia].
  - intros Hfail Hcode.
    destruct (request_rejected_ready
                {| opt_method := GET; opt_path := "/addresses/" +:+ id +:+ "/";
                   opt_body := None; opt_retryCount := None |}
                w1 read Hr1 Hres2 Hfail Hcode)
      as (w2 & Hrun2 & Hsent2 & _).
    exists w2. split; [exact Hrun2 | lia].
Qed.

End WritesAndNotFound.

(** The deletion of an address that the backend does not know. *)
Lemma writes_throw_on_not_found_witness :
  exists w',
    @deleteAddress sample_runtime "7"
      (fresh_world token_config (fun _ => NetResponse 404 body_404))
    = (Throw (PhpIpam (classify response_404)), w')
    /\ length (sent w') = 1%nat.
Proof.
  destruct (@writes_throw_on_not_found sample_runtime "7" []
              (fresh_world token_config (fun _ => NetResponse 404 body_404))
              response_404)
    as (_ & Hdelete & _).
  - exists "t1". reflexivity.
  - reflexivity.
  - reflexivity.
  - reflexivity.
  - exact Hdelete.
Defined.

(** An update that is made, and a read that finds nothing. *)
Lemma updateAddress_is_patch_then_read_witness :
  exists w',
    @updateAddress sample_runtime_more "7" [("hostname", JStr "db1")]
      (fresh_world token_config accept_then_missing)
    = (Throw (PhpIpam (classify response_404)), w')
    /\ length (sent w') = 2%nat.
Proof.
  destruct (@updateAddress_is_patch_then_read sample_runtime_more "7"
              [("hostname", JStr "db1")]
              (fresh_world token_config accept_then_missing)
              response_empty_list response_404)
    as (_ & Hgone).
  - exists "t1". reflexivity.
  - reflexivity.
  - reflexivity.
  - reflexivity.
  - apply Hgone; [reflexivity | reflexivity].
Defined.
